(** * k8s-mcp-server: command dispatch, resource kinds and the log pipeline

    A shallow embedding of [pkg/kubernetes/client.go], [pkg/logs/logs.go],
    the MCP handler, [pkg/mcp/protocol.go] and the HTTP server of
    [pkg/api], followed by the properties proved about them.

    Go strings are byte strings: they are [string]s here, one [ascii] per
    byte.  A Go [error] is its message.  Calls that leave the process (the
    dynamic client, the pod log stream, the wall clock) go through an
    explicit [World] that records them. *)

From Stdlib Require Import ZArith Lia Ascii String Bool.
From stdpp Require Import base option gmap strings list.
From Equations Require Import Equations.

Local Open Scope string_scope.
Local Open Scope Z_scope.

(** ** Results and errors *)

(** A Go pair [(T, error)]: either the value or the error's message. *)
Inductive result (A : Type) : Type :=
| Ok (a : A)
| Err (msg : string).
Arguments Ok {A} a.
Arguments Err {A} msg.

Definition is_Ok {A} (r : result A) : bool :=
  match r with Ok _ => true | Err _ => false end.

(** ** Bytes *)

Definition byte_val (c : ascii) : Z := Z.of_N (N_of_ascii c).
Definition byte_of (z : Z) : ascii := ascii_of_N (Z.to_N z).

(** [utf8.RuneSelf]: bytes below it are single-byte runes. *)
Definition RuneSelf : Z := 128.

Definition in_range (lo hi c : ascii) : bool :=
  (byte_val lo <=? byte_val c) && (byte_val c <=? byte_val hi).

Definition isDigit (c : ascii) : bool := in_range "0" "9" c.
Definition isUpperASCII (c : ascii) : bool := in_range "A" "Z" c.
Definition isLowerASCII (c : ascii) : bool := in_range "a" "z" c.

Fixpoint string_forallb (p : ascii -> bool) (s : string) : bool :=
  match s with
  | EmptyString => true
  | String c s' => p c && string_forallb p s'
  end.

Fixpoint string_existsb (p : ascii -> bool) (s : string) : bool :=
  match s with
  | EmptyString => false
  | String c s' => p c || string_existsb p s'
  end.

Fixpoint string_map (f : ascii -> ascii) (s : string) : string :=
  match s with
  | EmptyString => EmptyString
  | String c s' => String (f c) (string_map f s')
  end.

Definition isASCII (s : string) : bool :=
  string_forallb (fun c => byte_val c <? RuneSelf) s.

Definition nonempty (s : string) : bool :=
  match s with EmptyString => false | String _ _ => true end.

Fixpoint string_take (n : nat) (s : string) : string :=
  match n, s with
  | S n', String c s' => String c (string_take n' s')
  | _, _ => EmptyString
  end.

Fixpoint string_drop (n : nat) (s : string) : string :=
  match n, s with
  | S n', String _ s' => string_drop n' s'
  | _, _ => s
  end.

Lemma string_drop_length n s :
  (String.length (string_drop n s) <= String.length s)%nat.
Proof.
  revert s; induction n as [|n IH]; intros [|c s]; simpl; try lia.
  specialize (IH s); lia.
Qed.

(** The byte 0x22 and a text between two of them. *)
Definition dquote : ascii := Ascii false true false false false true false false.
Definition quoted (s : string) : string :=
  String dquote (s +:+ String dquote EmptyString).

Definition newline : ascii := Ascii false true false true false false false false.

(** ** [time.Time]

    A time is kept as the calendar reading in its own zone together with
    the zone's offset, which determines the instant.  The offset is in
    minutes east of UTC: RFC 3339 writes hours and minutes only.  The
    monotonic clock reading that [time.Now] attaches is not represented
    (no operation of this program observes it). *)
Record Time := mkTime {
  year : Z;
  month : Z;
  day : Z;
  hour : Z;
  minute : Z;
  second : Z;
  nanosecond : Z;
  zone : Z;
}.

(** ** The parts of Go's libraries that are taken as given

    The Unicode paths of package [strings], the regular expression engine
    for patterns supplied at run time, duration parsing, and the JSON codec
    of [unstructured.Unstructured] are parameters.  Everything the
    properties below depend on (the ASCII paths, the two fixed patterns of
    [parseLogEntry], RFC 3339 parsing and printing, the JSON encoding of a
    [LogEntry], the CSV writer) is modelled in full further down. *)
Class GoLibrary := {
  (** [strings.Map(unicode.ToUpper, s)] and [strings.Map(unicode.ToLower, s)] *)
  unicode_ToUpper : string -> string;
  unicode_ToLower : string -> string;
  (** the [hasUnicode] part of [strings.EqualFold] *)
  unicode_EqualFold : string -> string -> bool;
  (** [strings.TrimFunc(s, unicode.IsSpace)], [strings.TrimRightFunc(s, unicode.IsSpace)] *)
  unicode_TrimFunc_IsSpace : string -> string;
  unicode_TrimRightFunc_IsSpace : string -> string;
  (** package [regexp] *)
  Regexp : Type;
  regexp_Compile : string -> result Regexp;
  Regexp_MatchString : Regexp -> string -> bool;
  (** [time.ParseDuration], in nanoseconds, and [Time.Add] *)
  time_ParseDuration : string -> result Z;
  Time_Add : Time -> Z -> Time;
  (** [unstructured.Unstructured], [unstructured.UnstructuredList] and
      their JSON codec.  The documents are trees decoded from JSON, which
      [encoding/json] always encodes. *)
  Unstructured : Type;
  UnstructuredList : Type;
  json_Unmarshal_Object : string -> result Unstructured;
  json_Marshal_Unstructured : Unstructured -> string;
  json_Marshal_UnstructuredList : UnstructuredList -> string;
}.

(** ** Package [strings] *)

Module Strings.
Section WithLibrary.
Context `{GoLibrary}.

Definition upperByte (c : ascii) : ascii :=
if isLowerASCII c then byte_of (byte_val c - 32) else c.
Definition lowerByte (c : ascii) : ascii :=
if isUpperASCII c then byte_of (byte_val c + 32) else c.

(** [strings.ToUpper]: ASCII strings are mapped byte by byte, any other
  string goes through [unicode.ToUpper]. *)
Definition ToUpper (s : string) : string :=
if isASCII s then string_map upperByte s else unicode_ToUpper s.

Definition ToLower (s : string) : string :=
if isASCII s then string_map lowerByte s else unicode_ToLower s.

(** [strings.EqualFold]: the byte loop, leaving for the Unicode
  comparison of the two remainders at the first byte [>= RuneSelf]. *)
Fixpoint EqualFold (s t : string) : bool :=
match s, t with
| String sr s', String tr t' =>
    if RuneSelf <=? Z.lor (byte_val sr) (byte_val tr) then unicode_EqualFold s t
    else if byte_val tr =? byte_val sr then EqualFold s' t'
    else
      let '(sr, tr) := if byte_val tr <? byte_val sr then (tr, sr) else (sr, tr) in
      if isUpperASCII sr && (byte_val tr =? byte_val sr + 32)
      then EqualFold s' t'
      else false
| EmptyString, EmptyString => true
| _, _ => false
end.

(** [asciiSpace] *)
Definition asciiSpace (c : ascii) : bool :=
let b := byte_val c in
(b =? 9) || (b =? 10) || (b =? 11) || (b =? 12) || (b =? 13) || (b =? 32).

(** The first loop of [strings.TrimSpace]: skip ASCII space; the flag
  tells that a byte [>= RuneSelf] stopped the loop. *)
Fixpoint skipSpace (s : string) : bool * string :=
match s with
| EmptyString => (false, EmptyString)
| String c s' =>
    if RuneSelf <=? byte_val c then (true, s)
    else if asciiSpace c then skipSpace s'
    else (false, s)
end.

(** [strings.TrimSpace].  The second loop walks [s[start:]] from its
  end, which is the first loop on the reversed string. *)
Definition TrimSpace (s : string) : string :=
match skipSpace s with
| (true, rest) => unicode_TrimFunc_IsSpace rest
| (false, rest) =>
    match skipSpace (String.rev rest) with
    | (true, r) => unicode_TrimRightFunc_IsSpace (String.rev r)
    | (false, r) => String.rev r
    end
end.

End WithLibrary.
End Strings.

(** ** The two fixed patterns of [parseLogEntry]

    Both patterns are ASCII, so matching byte by byte agrees with the
    engine's rune by rune matching on every input: a byte [>= RuneSelf]
    is no digit, no letter and no word character. *)

Module Patterns.

Inductive class := Digit | Lit (c : ascii).

Definition class_ok (k : class) (c : ascii) : bool :=
  match k with
  | Digit => isDigit c
  | Lit l => byte_val l =? byte_val c
  end.

(** [\d{4}-\d{2}-\d{2}T\d{2}:\d{2}:\d{2}] *)
Definition timestampRegex : list class :=
  [Digit; Digit; Digit; Digit; Lit "-"; Digit; Digit; Lit "-"; Digit; Digit;
   Lit "T"; Digit; Digit; Lit ":"; Digit; Digit; Lit ":"; Digit; Digit].

(** The text matched by a sequence of classes at the start of [s]. *)
Fixpoint match_here (p : list class) (s : string) : option string :=
  match p with
  | [] => Some EmptyString
  | k :: p' =>
      match s with
      | String c s' =>
          if class_ok k c then String c <$> match_here p' s' else None
      | EmptyString => None
      end
  end.

(** [timestampRegex.FindString(line)]: the leftmost match, [""] when
    there is none. *)
Fixpoint timestampRegex_FindString (line : string) : string :=
  match match_here timestampRegex line with
  | Some m => m
  | None =>
      match line with
      | EmptyString => EmptyString
      | String _ rest => timestampRegex_FindString rest
      end
  end.

(** [\w] of the engine, which decides [\b]. *)
Definition isWordChar (c : ascii) : bool :=
  isDigit c || isUpperASCII c || isLowerASCII c || (byte_val c =? 95).

Definition levelWords : list string := ["info"; "error"; "warn"; "debug"; "fatal"].

(** A word matched under [(?i)] at the start of [s]: the text matched
    and what follows it.  None of the letters of [levelWords] folds
    with a rune outside ASCII. *)
Fixpoint match_fold (w s : string) : option (string * string) :=
  match w with
  | EmptyString => Some (EmptyString, s)
  | String a w' =>
      match s with
      | String c s' =>
          if byte_val (Strings.lowerByte c) =? byte_val a
          then (fun '(m, r) => (String c m, r)) <$> match_fold w' s'
          else None
      | EmptyString => None
      end
  end.

(** [\b] after a word: end of text, or no word character next. *)
Definition boundary_after (rest : string) : bool :=
  match rest with
  | EmptyString => true
  | String c _ => negb (isWordChar c)
  end.

(** The alternation [(info|error|warn|debug|fatal)\b] at the start of [s],
    alternatives tried in order. *)
Fixpoint match_level (ws : list string) (s : string) : option string :=
  match ws with
  | [] => None
  | w :: ws' =>
      match match_fold w s with
      | Some (m, rest) => if boundary_after rest then Some m else match_level ws' s
      | None => match_level ws' s
      end
  end.

(** The leftmost match of [(?i)\b(info|error|warn|debug|fatal)\b];
    [prevWord] tells whether the byte before [line] is a word character
    (a match starts with a letter, so [\b] holds there when it is not). *)
Fixpoint logLevelRegex_find (prevWord : bool) (line : string) : string :=
  match line with
  | EmptyString => EmptyString
  | String c rest =>
      match (if prevWord then None else match_level levelWords line) with
      | Some m => m
      | None => logLevelRegex_find (isWordChar c) rest
      end
  end.

Definition logLevelRegex_FindString (line : string) : string :=
  logLevelRegex_find false line.

End Patterns.

(** ** Package [time]: RFC 3339 *)

Module time.

(** [isLeap] and [daysIn] of package [time]. *)
Definition isLeap (y : Z) : bool :=
  (y mod 4 =? 0) && (negb (y mod 100 =? 0) || (y mod 400 =? 0)).

Definition daysIn (m y : Z) : Z :=
  if m =? 2 then (if isLeap y then 29 else 28)
  else 30 + Z.land (m + Z.shiftr m 3) 1.

Definition digit (d : Z) : ascii := byte_of (48 + d).

(** The decimal digits of [u], assembled from the last one as in
    [appendInt]; its buffer holds the twenty digits of a 64-bit number. *)
Fixpoint decimal_loop (buf : nat) (u : Z) (acc : string) : string :=
  match buf with
  | O => acc
  | S buf' =>
      if 10 <=? u
      then decimal_loop buf' (u / 10) (String (digit (u mod 10)) acc)
      else String (digit u) acc
  end.

Definition decimal (u : Z) : string := decimal_loop 20 u EmptyString.

Fixpoint zeros (n : nat) : string :=
  match n with O => EmptyString | S n' => String "0" (zeros n') end.

(** [appendInt(b, x, width)]: [x] in decimal, zero-padded to [width],
    with the library's two short cuts for two and four digits. *)
Definition appendInt (x : Z) (width : nat) : string :=
  let u := Z.abs x in
  (if x <? 0 then "-" else "") +:+
  (if (width =? 2)%nat && (u <? 100)
   then String (digit (u / 10)) (String (digit (u mod 10)) EmptyString)
   else if (width =? 4)%nat && (u <? 10000)
   then String (digit (u / 1000)) (String (digit (u / 100 mod 10))
          (String (digit (u / 10 mod 10)) (String (digit (u mod 10)) EmptyString)))
   else let d := decimal u in zeros (width - String.length d) +:+ d).

(** The zone of [Z07:00]. *)
Definition formatZone (z : Z) : string :=
  if z =? 0 then "Z"
  else (if z <? 0 then "-" else "+") +:+
       appendInt (Z.abs z / 60) 2 +:+ ":" +:+ appendInt (Z.abs z mod 60) 2.

(** [2006-01-02T15:04:05] *)
Definition formatDateTime (t : Time) : string :=
  appendInt (year t) 4 +:+ "-" +:+ appendInt (month t) 2 +:+ "-" +:+
  appendInt (day t) 2 +:+ "T" +:+ appendInt (hour t) 2 +:+ ":" +:+
  appendInt (minute t) 2 +:+ ":" +:+ appendInt (second t) 2.

(** [t.Format(time.RFC3339)] *)
Definition Format_RFC3339 (t : Time) : string :=
  formatDateTime t +:+ formatZone (zone t).

(** Drop the zeros at the end of a digit string. *)
Fixpoint trimZeros (s : string) : string :=
  match s with
  | EmptyString => EmptyString
  | String c s' =>
      match trimZeros s' with
      | EmptyString => if byte_val c =? 48 then EmptyString else String c EmptyString
      | r => String c r
      end
  end.

(** [appendNano] for [.999999999]: nothing for a whole second, else the
    nine digits without the zeros at their end. *)
Definition appendNano (nanosec : Z) : string :=
  if nanosec =? 0 then ""
  else "." +:+ trimZeros (appendInt nanosec 9).

(** [t.Format(time.RFC3339Nano)] *)
Definition Format_RFC3339Nano (t : Time) : string :=
  formatDateTime t +:+ appendNano (nanosecond t) +:+ formatZone (zone t).

(** [Time.MarshalJSON]: the quoted RFC3339Nano text; an error when the
    year does not have exactly four digits or the zone's hour is above 23. *)
Definition MarshalJSON (t : Time) : result string :=
  if (year t <? 0) || (9999 <? year t)
  then Err "Time.MarshalJSON: year outside of range [0,9999]"
  else if 24 <=? Z.abs (zone t) / 60
  then Err "Time.MarshalJSON: timezone hour outside of range [0,23]"
  else Ok (quoted (Format_RFC3339Nano t)).

(** *** Parsing *)

Definition slice (s : string) (i j : nat) : string := substring i (j - i) s.

Definition at_is (s : string) (i : nat) (c : ascii) : bool :=
  match String.get i s with
  | Some d => byte_val d =? byte_val c
  | None => false
  end.

(** The number written by a string of digits. *)
Fixpoint atoi (acc : Z) (s : string) : option Z :=
  match s with
  | EmptyString => Some acc
  | String c s' =>
      if isDigit c then atoi (acc * 10 + (byte_val c - 48)) s' else None
  end.

(** The [parseUint] closure of [parseRFC3339]. *)
Definition parseUint (s : string) (lo hi : Z) : option Z :=
  x ← atoi 0 s;
  if (x <? lo) || (hi <? x) then None else Some x.

(** The longest prefix of digits and what follows it. *)
Fixpoint spanDigits (s : string) : string * string :=
  match s with
  | String c s' =>
      if isDigit c then let '(d, r) := spanDigits s' in (String c d, r)
      else (EmptyString, s)
  | EmptyString => (EmptyString, EmptyString)
  end.

(** [parseNanoseconds]: the first nine digits after the point, scaled
    to nanoseconds; further digits are dropped. *)
Definition parseNanoseconds (digits : string) : Z :=
  let d := substring 0 9 digits in
  match atoi 0 (d +:+ zeros (9 - String.length d)) with
  | Some n => n
  | None => 0
  end.

(** The fractional second of [parseRFC3339], if there is one. *)
Definition parseFraction (s : string) : Z * string :=
  match s with
  | String "." (String c _ as s') =>
      if isDigit c
      then let '(d, r) := spanDigits s' in (parseNanoseconds d, r)
      else (0, s)
  | _ => (0, s)
  end.

(** [parseRFC3339] of package [time]. *)
Definition parseRFC3339 (s : string) : option Time :=
  if (String.length s <? 19)%nat then None else
  y ← parseUint (slice s 0 4) 0 9999;
  mo ← parseUint (slice s 5 7) 1 12;
  d ← parseUint (slice s 8 10) 1 (daysIn mo y);
  h ← parseUint (slice s 11 13) 0 23;
  mi ← parseUint (slice s 14 16) 0 59;
  se ← parseUint (slice s 17 19) 0 59;
  if negb (at_is s 4 "-" && at_is s 7 "-" && at_is s 10 "T" &&
           at_is s 13 ":" && at_is s 16 ":") then None else
  let '(nsec, s) := parseFraction (string_drop 19 s) in
  if String.eqb s "Z" then Some (mkTime y mo d h mi se nsec 0)
  else if negb (String.length s =? 6)%nat then None else
  hr ← parseUint (slice s 1 3) 0 24;
  mm ← parseUint (slice s 4 6) 0 60;
  if negb ((at_is s 0 "-" || at_is s 0 "+") && at_is s 3 ":") then None else
  let zoneOffset := hr * 60 + mm in
  Some (mkTime y mo d h mi se nsec (if at_is s 0 "-" then - zoneOffset else zoneOffset)).

(** *** The layout parser, on the layout [RFC3339] *)

Definition RFC3339 : string := "2006-01-02T15:04:05Z07:00".

Definition lowerhex (d : Z) : ascii :=
  if d <? 10 then byte_of (48 + d) else byte_of (87 + d).

(** [quote] of package [time]: a quote and a backslash are escaped, and
    every byte of a rune outside printable ASCII is written [\xhh]; each
    such rune is made of bytes [>= RuneSelf], or is one control byte. *)
Fixpoint quote_loop (s : string) : string :=
  match s with
  | EmptyString => EmptyString
  | String c s' =>
      let b := byte_val c in
      if (RuneSelf <=? b) || (b <? 32)
      then String (byte_of 92) (String "x" (String (lowerhex (Z.shiftr b 4))
             (String (lowerhex (Z.land b 15)) (quote_loop s'))))
      else if (b =? 34) || (b =? 92)
      then String (byte_of 92) (String c (quote_loop s'))
      else String c (quote_loop s')
  end.

Definition quote (s : string) : string :=
  String dquote (quote_loop s +:+ String dquote EmptyString).

(** [ParseError.Error] of an error made by [newParseError] for the
    layout [RFC3339]. *)
Definition ParseError (value layoutElem valueElem message : string) : string :=
  if nonempty message
  then "parsing time " +:+ quote value +:+ message
  else "parsing time " +:+ quote value +:+ " as " +:+ quote RFC3339 +:+
       ": cannot parse " +:+ quote valueElem +:+ " as " +:+ quote layoutElem.

(** [getnum]: one or two digits, two when [fixed]. *)
Definition getnum (s : string) (fixed : bool) : option (Z * string) :=
  match s with
  | String a rest =>
      if isDigit a then
        match rest with
        | String b rest' =>
            if isDigit b
            then Some ((byte_val a - 48) * 10 + (byte_val b - 48), rest')
            else if fixed then None else Some (byte_val a - 48, rest)
        | EmptyString => if fixed then None else Some (byte_val a - 48, rest)
        end
      else None
  | EmptyString => None
  end.

(** [skip] for a prefix of one byte that is no space. *)
Definition skip (value : string) (prefix : ascii) : option string :=
  match value with
  | String c rest => if byte_val c =? byte_val prefix then Some rest else None
  | EmptyString => None
  end.

Definition commaOrPeriod (c : ascii) : bool :=
  (byte_val c =? 46) || (byte_val c =? 44).

(** The fractional second that [parse] reads after the seconds when the
    layout has none. *)
Definition parseFractionalSecond (value : string) : Z * string :=
  match value with
  | String c (String d _ as value') =>
      if commaOrPeriod c && isDigit d
      then let '(digits, rest) := spanDigits value' in
           (parseNanoseconds digits, rest)
      else (0, value)
  | _ => (0, value)
  end.

(** The chunk [Z07:00]: the offset in minutes and the rest of the
    value, or the error of the chunk. *)
Definition parseZone (avalue value : string) : result (Z * string) :=
  match value with
  | String "Z" rest => Ok (0, rest)
  | _ =>
      if (String.length value <? 6)%nat then Err (ParseError avalue "Z07:00" value "")
      else if negb (at_is value 3 ":") then Err (ParseError avalue "Z07:00" value "")
      else
        let hr := fst <$> getnum (slice value 1 3) true in
        let mm := hr ≫= fun _ => fst <$> getnum (slice value 4 6) true in
        let hr' := default 0 hr in
        let mm' := default 0 mm in
        let zoneOffset := hr' * 60 + mm' in
        if 60 <? mm' then Err (ParseError avalue "Z07:00" (string_drop 6 value)
                                 ": time zone offset minute out of range")
        else if 24 <? hr' then Err (ParseError avalue "Z07:00" (string_drop 6 value)
                                      ": time zone offset hour out of range")
        else if negb (at_is value 0 "+" || at_is value 0 "-")
        then Err (ParseError avalue "Z07:00" value "")
        else match mm with
             | None => Err (ParseError avalue "Z07:00" value "")
             | Some _ =>
                 Ok (if at_is value 0 "-" then - zoneOffset else zoneOffset,
                     string_drop 6 value)
             end
  end.

(** [parse(RFC3339, value, UTC, Local)], chunk by chunk: [2006], [01],
    [02], [15], [04], [05] and [Z07:00], each after its prefix. *)
Definition parse (avalue : string) : result Time :=
  let cannot layoutElem valueElem := Err (ParseError avalue layoutElem valueElem "") in
  let range what := Err (ParseError avalue "" "" (": " +:+ what +:+ " out of range")) in
  let value := avalue in
  if (String.length value <? 4)%nat then cannot "2006" value else
  if negb (match value with String c _ => isDigit c | EmptyString => false end)
  then cannot "2006" value else
  match atoi 0 (string_take 4 value) with
  | None => cannot "2006" value
  | Some year =>
  let value := string_drop 4 value in
  match skip value "-" with
  | None => cannot "-" value
  | Some value =>
  match getnum value true with
  | None => cannot "01" value
  | Some (month, value) =>
  if (month <=? 0) || (12 <? month) then range "month" else
  match skip value "-" with
  | None => cannot "-" value
  | Some value =>
  match getnum value true with
  | None => cannot "02" value
  | Some (day, value) =>
  match skip value "T" with
  | None => cannot "T" value
  | Some value =>
  match getnum value false with
  | None => cannot "15" value
  | Some (hour, value) =>
  if 24 <=? hour then range "hour" else
  match skip value ":" with
  | None => cannot ":" value
  | Some value =>
  match getnum value true with
  | None => cannot "04" value
  | Some (min, value) =>
  if 60 <=? min then range "minute" else
  match skip value ":" with
  | None => cannot ":" value
  | Some value =>
  match getnum value true with
  | None => cannot "05" value
  | Some (sec, value) =>
  if 60 <=? sec then range "second" else
  let '(nsec, value) := parseFractionalSecond value in
  match parseZone avalue value with
  | Err err => Err err
  | Ok (zoneOffset, value) =>
  if nonempty value
  then Err (ParseError avalue "" value (": extra text: " +:+ quote value))
  else if (day <? 1) || (daysIn month year <? day)
  then Err (ParseError avalue "" value ": day out of range")
  else Ok (mkTime year month day hour min sec nsec zoneOffset)
  end end end end end end end end end end end end.

(** [time.Parse(time.RFC3339, value)]: [parseRFC3339] first, and the
    layout parser on what that one does not take. *)
Definition Parse_RFC3339 (value : string) : result Time :=
  match parseRFC3339 value with
  | Some t => Ok t
  | None => parse value
  end.

End time.

(** ** Package [unicode/utf8] *)

Module utf8.

Definition RuneError : Z := 65533.

(** An entry of the table [first] with its accept range:
    [as], [xx], or the size of the sequence and the bounds of its
    second byte. *)
Inductive info :=
| ascii_byte
| invalid
| lead (size : nat) (lo hi : Z).

Definition first (b : Z) : info :=
  if b <? 128 then ascii_byte
  else if b <? 194 then invalid
  else if b <? 224 then lead 2 128 191
  else if b =? 224 then lead 3 160 191
  else if b <? 237 then lead 3 128 191
  else if b =? 237 then lead 3 128 159
  else if b <? 240 then lead 3 128 191
  else if b =? 240 then lead 4 144 191
  else if b <? 244 then lead 4 128 191
  else if b =? 244 then lead 4 128 143
  else invalid.

(** A continuation byte, between [locb] and [hicb]. *)
Definition cont (b : Z) : bool := (128 <=? b) && (b <=? 191).

Definition maskx : Z := 63.

(** [utf8.DecodeRuneInString]: the rune and its width in bytes. *)
Definition DecodeRuneInString (s : string) : Z * nat :=
  match s with
  | EmptyString => (RuneError, 0%nat)
  | String c0 t0 =>
      let s0 := byte_val c0 in
      match first s0 with
      | ascii_byte => (s0, 1%nat)
      | invalid => (RuneError, 1%nat)
      | lead sz lo hi =>
          if (String.length s <? sz)%nat then (RuneError, 1%nat) else
          match t0 with
          | EmptyString => (RuneError, 1%nat)
          | String c1 t1 =>
              let s1 := byte_val c1 in
              if (s1 <? lo) || (hi <? s1) then (RuneError, 1%nat) else
              if (sz <=? 2)%nat
              then (Z.lor (Z.shiftl (Z.land s0 31) 6) (Z.land s1 maskx), 2%nat) else
              match t1 with
              | EmptyString => (RuneError, 1%nat)
              | String c2 t2 =>
                  let s2 := byte_val c2 in
                  if negb (cont s2) then (RuneError, 1%nat) else
                  if (sz <=? 3)%nat
                  then (Z.lor (Z.shiftl (Z.land s0 15) 12)
                          (Z.lor (Z.shiftl (Z.land s1 maskx) 6) (Z.land s2 maskx)),
                        3%nat) else
                  match t2 with
                  | EmptyString => (RuneError, 1%nat)
                  | String c3 _ =>
                      let s3 := byte_val c3 in
                      if negb (cont s3) then (RuneError, 1%nat) else
                      (Z.lor (Z.shiftl (Z.land s0 7) 18)
                         (Z.lor (Z.shiftl (Z.land s1 maskx) 12)
                            (Z.lor (Z.shiftl (Z.land s2 maskx) 6) (Z.land s3 maskx))),
                       4%nat)
                  end
              end
          end
      end
  end.

(** [unicode.IsSpace] *)
Definition IsSpace (r : Z) : bool :=
  if r <=? 255
  then (r =? 9) || (r =? 10) || (r =? 11) || (r =? 12) || (r =? 13) ||
       (r =? 32) || (r =? 133) || (r =? 160)
  else (r =? 5760) || ((8192 <=? r) && (r <=? 8202)) || (r =? 8232) ||
       (r =? 8233) || (r =? 8239) || (r =? 8287) || (r =? 12288).

End utf8.

(** ** Package [encoding/json]: strings *)

Module json.

Definition hex (d : Z) : ascii :=
  if d <? 10 then byte_of (48 + d) else byte_of (87 + d).

(** [htmlSafeSet]: the ASCII bytes written as they are. *)
Definition htmlSafe (b : Z) : bool :=
  (32 <=? b) && (b <? 128) &&
  negb ((b =? 34) || (b =? 92) || (b =? 60) || (b =? 62) || (b =? 38)).

Definition backslash : ascii := byte_of 92.

(** The escape of an ASCII byte outside [htmlSafeSet]. *)
Definition escapeByte (b : Z) : string :=
  if (b =? 92) || (b =? 34) then String backslash (String (byte_of b) EmptyString)
  else if b =? 8 then String backslash "b"
  else if b =? 12 then String backslash "f"
  else if b =? 10 then String backslash "n"
  else if b =? 13 then String backslash "r"
  else if b =? 9 then String backslash "t"
  else String backslash
         (String "u" (String "0" (String "0"
            (String (hex (Z.shiftr b 4)) (String (hex (Z.land b 15)) EmptyString))))).

(** The loop of [appendString] with [escapeHTML] set, which is the
    setting of [json.Marshal] and of a new [json.Encoder]. *)
Equations? appendString_loop (src : string) : string
  by wf (String.length src) lt :=
  appendString_loop EmptyString := EmptyString;
  appendString_loop (String c rest) :=
    let b := byte_val c in
    if b <? RuneSelf then
      (if htmlSafe b then String c EmptyString else escapeByte b)
      +:+ appendString_loop rest
    else
      let '(r, size) := utf8.DecodeRuneInString (String c rest) in
      if (r =? utf8.RuneError) && (size =? 1)%nat then
        String backslash "ufffd" +:+ appendString_loop rest
      else if (r =? 8232) || (r =? 8233) then
        String backslash (String "u" (String "2" (String "0" (String "2"
          (String (hex (Z.land r 15)) EmptyString)))))
        +:+ appendString_loop (string_drop (size - 1) rest)
      else
        string_take size (String c rest)
        +:+ appendString_loop (string_drop (size - 1) rest).
Proof.
  all: simpl; try lia.
  all: pose proof (string_drop_length (size - 1) rest); lia.
Qed.

(** [appendString]: a Go string as a JSON string. *)
Definition appendString (src : string) : string :=
  quoted (appendString_loop src).

End json.

(** ** Types of the Kubernetes client libraries *)

Module schema.
Record GroupVersionResource := mkGVR {
  Group : string;
  Version : string;
  Resource : string;
}.
End schema.

Module corev1.
Module PodLogOptions.
Record t := mk {
  Container : string;
  SinceTime : option Time;
  SinceSeconds : option Z;
  TailLines : option Z;
  Follow : bool;
}.
End PodLogOptions.
End corev1.

(** ** The world outside the process *)

(** What a pod log stream delivers: its bytes, then [io.EOF] ([None]) or a
    read error. *)
Record Stream := mkStream {
  pending : string;
  ending : option string;
}.

Section World.
Context `{GoLibrary}.

(** Calls that leave the process, in the order they are made. *)
Inductive Event :=
| Call_Get (gvr : schema.GroupVersionResource) (ns : option string) (name : string)
| Call_List (gvr : schema.GroupVersionResource) (ns : option string)
| Call_Create (gvr : schema.GroupVersionResource) (ns : option string) (obj : Unstructured)
| Call_Delete (gvr : schema.GroupVersionResource) (ns : option string) (name : string)
| Call_Stream (ns pod : string) (o : corev1.PodLogOptions.t)
| Call_ReadString
| Call_Close.

(** The calls made so far and the number of times the clock was read. *)
Record World := mkWorld {
  events : list Event;
  ticks : nat;
}.

(** The backend and the clock answer as functions of the request; [ns] is
    [None] for the client without [.Namespace(ns)]. *)
Class Backend := {
  wallclock : nat -> Time;
  dynamic_Get : schema.GroupVersionResource -> option string -> string -> result Unstructured;
  dynamic_List : schema.GroupVersionResource -> option string -> result UnstructuredList;
  dynamic_Create :
    schema.GroupVersionResource -> option string -> Unstructured -> result Unstructured;
  dynamic_Delete : schema.GroupVersionResource -> option string -> string -> option string;
  pods_GetLogs_Stream : string -> string -> corev1.PodLogOptions.t -> result Stream;
}.

(** Computations that call out. *)
Definition M (A : Type) : Type := World -> A * World.

Definition ret {A} (a : A) : M A := fun w => (a, w).

Definition bind {A B} (m : M A) (k : A -> M B) : M B :=
  fun w => let '(a, w') := m w in k a w'.

Definition emit (e : Event) : M unit :=
  fun w => (tt, mkWorld (events w ++ [e]) (ticks w)).

Context `{Backend}.

(** [time.Now()] *)
Definition time_Now : M Time :=
  fun w => (wallclock (ticks w), mkWorld (events w) (S (ticks w))).

End World.

Notation "x <- m ;; k" := (bind m (fun x => k))
  (at level 100, m at next level, right associativity).
Notation "m ;;; k" := (bind m (fun _ => k))
  (at level 100, right associativity).

(** ** Package [encoding/csv]: the writer *)

Module csv.

(** [fieldNeedsQuotes] with the comma as delimiter. *)
Definition fieldNeedsQuotes (field : string) : bool :=
  match field with
  | EmptyString => false
  | String c _ =>
      if String.eqb field (String json.backslash ".") then true
      else if string_existsb
                (fun c => let b := byte_val c in
                          (b =? 10) || (b =? 13) || (b =? 34) || (b =? 44)) field
      then true
      else utf8.IsSpace (fst (utf8.DecodeRuneInString field))
  end.

(** The body of a quoted field with [UseCRLF] unset: every byte as it
    is, a quote doubled. *)
Fixpoint quoteBody (field : string) : string :=
  match field with
  | EmptyString => EmptyString
  | String c rest =>
      if byte_val c =? 34 then String dquote (String dquote (quoteBody rest))
      else String c (quoteBody rest)
  end.

Definition writeField (field : string) : string :=
  if fieldNeedsQuotes field then quoted (quoteBody field) else field.

Fixpoint writeFields (n : nat) (record : list string) : string :=
  match record with
  | [] => EmptyString
  | field :: rest =>
      (if (0 <? n)%nat then "," else "") +:+ writeField field +:+ writeFields (S n) rest
  end.

(** [Writer.Write(record)]: the bytes added to the output. *)
Definition Write (record : list string) : string :=
  writeFields 0 record +:+ String newline EmptyString.

End csv.

(** ** Package [bufio]: reading a line *)

Module bufio.

(** The error of a read: [io.EOF] or any other. *)
Inductive error :=
| io_EOF
| failed (msg : string).

(** The bytes up to and including the first newline, and what follows. *)
Fixpoint cut (s : string) : option (string * string) :=
  match s with
  | EmptyString => None
  | String c s' =>
      if byte_val c =? 10 then Some (String c EmptyString, s')
      else (fun '(l, r) => (String c l, r)) <$> cut s'
  end.

(** [reader.ReadString('\n')]: a line that ends in the delimiter, or
    the bytes left together with the error that ended the stream. *)
Definition ReadString (reader : Stream) : string * option error * Stream :=
  match cut (pending reader) with
  | Some (line, rest) => (line, None, mkStream rest (ending reader))
  | None =>
      (pending reader,
       Some (match ending reader with None => io_EOF | Some msg => failed msg end),
       mkStream EmptyString (ending reader))
  end.

Lemma cut_shorter s line rest :
  cut s = Some (line, rest) -> (String.length rest < String.length s)%nat.
Proof.
  revert line rest; induction s as [|c s IH]; intros line rest; simpl; [done|].
  destruct (byte_val c =? 10).
  - intros [= <- <-]; lia.
  - destruct (cut s) as [[l r]|]; simpl; [|done].
    intros [= <- <-]. specialize (IH _ _ eq_refl). lia.
Qed.

Lemma ReadString_shorter reader line reader' :
  ReadString reader = (line, None, reader') ->
  (String.length (pending reader') < String.length (pending reader))%nat.
Proof.
  unfold ReadString. destruct (cut (pending reader)) as [[l r]|] eqn:E; [|done].
  intros [= <- <-]. simpl. eapply cut_shorter, E.
Qed.

End bufio.

Definition inspect {A} (a : A) : {b : A | a = b} := exist _ a eq_refl.

(** ** Package [logs] *)

Module logs.

Module LogEntry.
Record t := mk {
  Timestamp : Time;
  Message : string;
  Pod : string;
  Container : string;
  Namespace : string;
  LogLevel : string;
}.
End LogEntry.

Module LogOptions.
Record t := mk {
  Namespace : string;
  Pod : string;
  Container : string;
  SinceTime : option Time;
  SinceSeconds : option Z;
  Tail : option Z;
  Pattern : string;
  LogLevel : string;
}.
End LogOptions.

Section WithBackend.
Context `{GoLibrary} `{!Backend}.

(** [parseLogEntry] *)
Definition parseLogEntry (line pod container namespace : string) : M LogEntry.t :=
timestamp <- time_Now ;;
let timestamp :=
  let match_ := Patterns.timestampRegex_FindString line in
  if nonempty match_ then
    match time.Parse_RFC3339 match_ with
    | Ok t => t
    | Err _ => timestamp
    end
  else timestamp in
let logLevel := EmptyString in
let logLevel :=
  let match_ := Patterns.logLevelRegex_FindString line in
  if nonempty match_ then Strings.ToUpper match_ else logLevel in
ret (LogEntry.mk timestamp (Strings.TrimSpace line) pod container namespace logLevel).

(** The [for] loop of [GetLogs]. *)
Equations? readLoop (re : option Regexp) (opts : LogOptions.t) (reader : Stream)
  (logEntries : list LogEntry.t) (w : World) : result (list LogEntry.t) * World
by wf (String.length (pending reader)) lt :=
readLoop re opts reader logEntries w with inspect (bufio.ReadString reader) := {
  | exist _ (line, Some bufio.io_EOF, _) _ =>
      (Ok logEntries, snd (emit Call_ReadString w))
  | exist _ (line, Some (bufio.failed err), _) _ =>
      (Err ("error reading logs: " +:+ err), snd (emit Call_ReadString w))
  | exist _ (line, None, reader') _ =>
      let '(entry, w') :=
        (emit Call_ReadString ;;;
         parseLogEntry line (LogOptions.Pod opts) (LogOptions.Container opts)
           (LogOptions.Namespace opts)) w in
      if (match re with
          | Some re => negb (Regexp_MatchString re (LogEntry.Message entry))
          | None => false
          end)
      then readLoop re opts reader' logEntries w'
      else if nonempty (LogOptions.LogLevel opts) &&
              negb (Strings.EqualFold (LogEntry.LogLevel entry) (LogOptions.LogLevel opts))
      then readLoop re opts reader' logEntries w'
      else readLoop re opts reader' (logEntries ++ [entry]) w'
}.
Proof.
all: eapply bufio.ReadString_shorter; eauto.
Qed.

(** [GetLogs] *)
Definition GetLogs (opts : LogOptions.t) : M (result (list LogEntry.t)) :=
let podLogOpts :=
  corev1.PodLogOptions.mk (LogOptions.Container opts) None
    (LogOptions.SinceSeconds opts) (LogOptions.Tail opts) false in
let podLogOpts :=
  match LogOptions.SinceTime opts with
  | Some sinceTime =>
      corev1.PodLogOptions.mk (corev1.PodLogOptions.Container podLogOpts)
        (Some sinceTime) (corev1.PodLogOptions.SinceSeconds podLogOpts)
        (corev1.PodLogOptions.TailLines podLogOpts)
        (corev1.PodLogOptions.Follow podLogOpts)
  | None => podLogOpts
  end in
emit (Call_Stream (LogOptions.Namespace opts) (LogOptions.Pod opts) podLogOpts) ;;;
match pods_GetLogs_Stream (LogOptions.Namespace opts) (LogOptions.Pod opts) podLogOpts with
| Err err => ret (Err ("error opening log stream: " +:+ err))
| Ok podLogs =>
    (* [defer podLogs.Close()] runs at each return below *)
    let reader := podLogs in
    let re : result (option Regexp) :=
      if nonempty (LogOptions.Pattern opts) then
        match regexp_Compile (LogOptions.Pattern opts) with
        | Ok re => Ok (Some re)
        | Err err => Err err
        end
      else Ok None in
    match re with
    | Err err =>
        emit Call_Close ;;; ret (Err ("invalid regex pattern: " +:+ err))
    | Ok re =>
        r <- readLoop re opts reader [] ;;
        emit Call_Close ;;; ret r
    end
end.

(** *** Export

  The writer is the [bytes.Buffer] that the handler passes, whose
  writes do not fail.  An export yields the bytes written and the
  error, if any. *)

Definition field (name value : string) : string :=
quoted name +:+ ":" +:+ value.

(** [encoding/json] on a [LogEntry]: the fields in the order of the
  struct, under the names of their tags; [level] carries [omitempty]. *)
Definition json_Marshal_LogEntry (entry : LogEntry.t) : result string :=
match time.MarshalJSON (LogEntry.Timestamp entry) with
| Err err => Err ("json: error calling MarshalJSON for type time.Time: " +:+ err)
| Ok timestamp =>
    Ok ("{" +:+ field "timestamp" timestamp +:+
        "," +:+ field "message" (json.appendString (LogEntry.Message entry)) +:+
        "," +:+ field "pod" (json.appendString (LogEntry.Pod entry)) +:+
        "," +:+ field "container" (json.appendString (LogEntry.Container entry)) +:+
        "," +:+ field "namespace" (json.appendString (LogEntry.Namespace entry)) +:+
        (if nonempty (LogEntry.LogLevel entry)
         then "," +:+ field "level" (json.appendString (LogEntry.LogLevel entry))
         else "") +:+
        "}")
end.

(** The elements of an array, a comma before each but the first. *)
Fixpoint json_elements (n : nat) (entries : list LogEntry.t) : result string :=
match entries with
| [] => Ok EmptyString
| entry :: rest =>
    match json_Marshal_LogEntry entry with
    | Err err => Err err
    | Ok e =>
        match json_elements (S n) rest with
        | Err err => Err err
        | Ok es => Ok ((if (0 <? n)%nat then "," else "") +:+ e +:+ es)
        end
    end
end.

(** [encoding/json] on a [[]LogEntry].  The slice that [GetLogs] returns
  when it kept no entry is [nil], which is written [null]. *)
Definition json_Marshal_LogEntries (entries : list LogEntry.t) : result string :=
match entries with
| [] => Ok "null"
| _ =>
    match json_elements 0 entries with
    | Err err => Err err
    | Ok es => Ok ("[" +:+ es +:+ "]")
    end
end.

(** [json.NewEncoder(writer).Encode(v)] writes the encoding and a
  newline, and nothing when encoding fails. *)
Definition Encode (v : result string) : string * option string :=
match v with
| Ok b => (b +:+ String newline EmptyString, None)
| Err err => (EmptyString, Some err)
end.

(** [exportToCSV] *)
Fixpoint exportToCSV_rows (entries : list LogEntry.t) : string :=
match entries with
| [] => EmptyString
| entry :: rest =>
    csv.Write [time.Format_RFC3339 (LogEntry.Timestamp entry);
               LogEntry.Pod entry;
               LogEntry.Container entry;
               LogEntry.Namespace entry;
               LogEntry.LogLevel entry;
               LogEntry.Message entry]
    +:+ exportToCSV_rows rest
end.

Definition exportToCSV (entries : list LogEntry.t) : string * option string :=
(csv.Write ["Timestamp"; "Pod"; "Container"; "Namespace"; "Level"; "Message"]
 +:+ exportToCSV_rows entries, None).

(** [exportToNDJSON] *)
Fixpoint exportToNDJSON (entries : list LogEntry.t) : string * option string :=
match entries with
| [] => (EmptyString, None)
| entry :: rest =>
    match Encode (json_Marshal_LogEntry entry) with
    | (_, Some err) => (EmptyString, Some ("error writing NDJSON record: " +:+ err))
    | (line, None) =>
        let '(out, err) := exportToNDJSON rest in (line +:+ out, err)
    end
end.

(** [exportToPlaintext] *)
Fixpoint exportToPlaintext (entries : list LogEntry.t) : string * option string :=
match entries with
| [] => (EmptyString, None)
| entry :: rest =>
    let line :=
      "[" +:+ time.Format_RFC3339 (LogEntry.Timestamp entry) +:+ "] [" +:+
      LogEntry.Namespace entry +:+ "] [" +:+
      LogEntry.Pod entry +:+ "/" +:+ LogEntry.Container entry +:+ "] [" +:+
      LogEntry.LogLevel entry +:+ "] " +:+
      LogEntry.Message entry +:+ String newline EmptyString in
    let '(out, err) := exportToPlaintext rest in (line +:+ out, err)
end.

(** [ExportLogs] *)
Definition ExportLogs (entries : list LogEntry.t) (format : string)
: string * option string :=
let f := Strings.ToLower format in
if String.eqb f "json" then Encode (json_Marshal_LogEntries entries)
else if String.eqb f "csv" then exportToCSV entries
else if String.eqb f "ndjson" then exportToNDJSON entries
else if String.eqb f "plaintext" || String.eqb f "text" then exportToPlaintext entries
else (EmptyString, Some ("unsupported export format: " +:+ format)).

End WithBackend.
End logs.

(** ** Package [kubernetes] *)

Module kubernetes.

(** [resourceMap], the table built in [getGroupVersionResource]. *)
Definition resourceMap : gmap string schema.GroupVersionResource :=
  list_to_map [
    ("pods", schema.mkGVR "" "v1" "pods");
    ("services", schema.mkGVR "" "v1" "services");
    ("deployments", schema.mkGVR "apps" "v1" "deployments");
    ("namespaces", schema.mkGVR "" "v1" "namespaces");
    ("configmaps", schema.mkGVR "" "v1" "configmaps");
    ("secrets", schema.mkGVR "" "v1" "secrets");
    ("persistentvolumes", schema.mkGVR "" "v1" "persistentvolumes");
    ("persistentvolumeclaims", schema.mkGVR "" "v1" "persistentvolumeclaims");
    ("statefulsets", schema.mkGVR "apps" "v1" "statefulsets");
    ("daemonsets", schema.mkGVR "apps" "v1" "daemonsets");
    ("ingresses", schema.mkGVR "networking.k8s.io" "v1" "ingresses")
  ].

(** [getGroupVersionResource] *)
Definition getGroupVersionResource (resourceType : string)
  : result schema.GroupVersionResource :=
  match resourceMap !! resourceType with
  | Some gvr => Ok gvr
  | None => Err ("unsupported resource type: " +:+ resourceType)
  end.

Section WithBackend.
Context `{GoLibrary} `{!Backend}.

(** [c.dynamicClient.Resource(gvr).Namespace(namespace)] when the
  namespace is given, [c.dynamicClient.Resource(gvr)] otherwise. *)
Definition scope (namespace : string) : option string :=
if nonempty namespace then Some namespace else None.

(** [GetResource] *)
Definition GetResource (resourceType namespace name : string) : M (result Unstructured) :=
match getGroupVersionResource resourceType with
| Err err => ret (Err err)
| Ok gvr =>
    emit (Call_Get gvr (scope namespace) name) ;;;
    match dynamic_Get gvr (scope namespace) name with
    | Err err =>
        ret (Err ("failed to get " +:+ resourceType +:+ " '" +:+ name +:+ "': " +:+ err))
    | Ok resource => ret (Ok resource)
    end
end.

(** [ListResources] *)
Definition ListResources (resourceType namespace : string) : M (result UnstructuredList) :=
match getGroupVersionResource resourceType with
| Err err => ret (Err err)
| Ok gvr =>
    emit (Call_List gvr (scope namespace)) ;;;
    match dynamic_List gvr (scope namespace) with
    | Err err => ret (Err ("failed to list " +:+ resourceType +:+ ": " +:+ err))
    | Ok resources => ret (Ok resources)
    end
end.

(** [CreateResource] *)
Definition CreateResource (resourceType namespace : string) (object : Unstructured)
: M (result Unstructured) :=
match getGroupVersionResource resourceType with
| Err err => ret (Err err)
| Ok gvr =>
    emit (Call_Create gvr (scope namespace) object) ;;;
    match dynamic_Create gvr (scope namespace) object with
    | Err err => ret (Err ("failed to create " +:+ resourceType +:+ ": " +:+ err))
    | Ok created => ret (Ok created)
    end
end.

(** [DeleteResource]; [None] is the [nil] error. *)
Definition DeleteResource (resourceType namespace name : string) : M (option string) :=
match getGroupVersionResource resourceType with
| Err err => ret (Some err)
| Ok gvr =>
    emit (Call_Delete gvr (scope namespace) name) ;;;
    match dynamic_Delete gvr (scope namespace) name with
    | Some deleteErr =>
        ret (Some ("failed to delete " +:+ resourceType +:+ " '" +:+ name +:+ "': "
                   +:+ deleteErr))
    | None => ret None
    end
end.

End WithBackend.
End kubernetes.

(** ** Package [mcp] *)

Module mcp.

(** [CommandType] and its constants. *)
Definition CommandType := string.
Definition ListCommand : CommandType := "list".
Definition GetCommand : CommandType := "get".
Definition CreateCommand : CommandType := "create".
Definition DeleteCommand : CommandType := "delete".
Definition LogsCommand : CommandType := "logs".
Definition SearchLogsCommand : CommandType := "search_logs".
Definition ExportLogsCommand : CommandType := "export_logs".

Module LogOptions.
Record t := mk {
  Pod : string;
  Container : string;
  Since : string;
  Tail : Z;
  Pattern : string;
  LogLevel : string;
  Format : string;
}.
End LogOptions.

(** [Data] and [LogOptions] are [None] when [nil]. *)
Module Command.
Record t := mk {
  Type_ : CommandType;
  Resource : string;
  Name : string;
  Namespace : string;
  Data : option string;
  LogOptions : option LogOptions.t;
}.
End Command.

Module Response.
Record t := mk {
  Success : bool;
  Message : string;
  Data : option string;
  Error : string;
}.
End Response.

Section WithBackend.
Context `{GoLibrary} `{!Backend}.

(** The values passed as [data interface{}] to [NewSuccessResponse]. *)
Inductive data :=
| data_nil
| data_Unstructured (u : Unstructured)
| data_UnstructuredList (l : UnstructuredList)
| data_LogEntries (entries : list logs.LogEntry.t)
| data_exported (exported_logs : string).

(** [json.Marshal] on those values; the last is a
  [map[string]string] with the one key [exported_logs]. *)
Definition json_Marshal (d : data) : result string :=
match d with
| data_nil => Ok "null"
| data_Unstructured u => Ok (json_Marshal_Unstructured u)
| data_UnstructuredList l => Ok (json_Marshal_UnstructuredList l)
| data_LogEntries entries => logs.json_Marshal_LogEntries entries
| data_exported s =>
    Ok ("{" +:+ logs.field "exported_logs" (json.appendString s) +:+ "}")
end.

(** [NewSuccessResponse] *)
Definition NewSuccessResponse (message : string) (d : data) : result Response.t :=
let rawData : result (option string) :=
  match d with
  | data_nil => Ok None
  | _ =>
      match json_Marshal d with
      | Ok rawData => Ok (Some rawData)
      | Err err => Err ("failed to marshal response data: " +:+ err)
      end
  end in
match rawData with
| Err err => Err err
| Ok rawData => Ok (Response.mk true message rawData EmptyString)
end.

(** [NewErrorResponse] *)
Definition NewErrorResponse (err : string) : result Response.t :=
Ok (Response.mk false EmptyString None err).

(** *** The handler *)

(** The block that [handleLogsCommand], [handleSearchLogsCommand] and
  [handleExportLogsCommand] each repeat to fill [SinceTime]:
  a duration before now, else an RFC 3339 time, else an error. *)
Definition parseSince (since : string) : M (result (option Time)) :=
if nonempty since then
  match time_ParseDuration since with
  | Ok since => now <- time_Now ;; ret (Ok (Some (Time_Add now (- since))))
  | Err _ =>
      match time.Parse_RFC3339 since with
      | Ok sinceTime => ret (Ok (Some sinceTime))
      | Err err => ret (Err ("invalid 'since' parameter: " +:+ err))
      end
  end
else ret (Ok None).

(** ... and to fill [Tail]. *)
Definition parseTail (tail : Z) : option Z :=
if 0 <? tail then Some tail else None.

(** [handleListCommand] *)
Definition handleListCommand (cmd : Command.t) : M (result Response.t) :=
if String.eqb (Command.Resource cmd) "" then
  ret (NewErrorResponse "resource type is required")
else
  r <- kubernetes.ListResources (Command.Resource cmd) (Command.Namespace cmd) ;;
  match r with
  | Err err => ret (NewErrorResponse err)
  | Ok resources =>
      ret (NewSuccessResponse ("Successfully listed " +:+ Command.Resource cmd)
             (data_UnstructuredList resources))
  end.

(** [handleGetCommand] *)
Definition handleGetCommand (cmd : Command.t) : M (result Response.t) :=
if String.eqb (Command.Resource cmd) "" || String.eqb (Command.Name cmd) "" then
  ret (NewErrorResponse "resource type and name are required")
else
  r <- kubernetes.GetResource (Command.Resource cmd) (Command.Namespace cmd)
         (Command.Name cmd) ;;
  match r with
  | Err err => ret (NewErrorResponse err)
  | Ok resource =>
      ret (NewSuccessResponse
             ("Successfully retrieved " +:+ Command.Resource cmd +:+ " '" +:+
              Command.Name cmd +:+ "'")
             (data_Unstructured resource))
  end.

(** [handleCreateCommand] *)
Definition handleCreateCommand (cmd : Command.t) : M (result Response.t) :=
match Command.Data cmd with
| None => ret (NewErrorResponse "resource type and data are required")
| Some data =>
    if String.eqb (Command.Resource cmd) "" then
      ret (NewErrorResponse "resource type and data are required")
    else
      match json_Unmarshal_Object data with
      | Err err => ret (NewErrorResponse ("invalid resource data: " +:+ err))
      | Ok obj =>
          r <- kubernetes.CreateResource (Command.Resource cmd) (Command.Namespace cmd)
                 obj ;;
          match r with
          | Err err => ret (NewErrorResponse err)
          | Ok created =>
              ret (NewSuccessResponse
                     ("Successfully created " +:+ Command.Resource cmd)
                     (data_Unstructured created))
          end
      end
end.

(** [handleDeleteCommand] *)
Definition handleDeleteCommand (cmd : Command.t) : M (result Response.t) :=
if String.eqb (Command.Resource cmd) "" || String.eqb (Command.Name cmd) "" then
  ret (NewErrorResponse "resource type and name are required")
else
  r <- kubernetes.DeleteResource (Command.Resource cmd) (Command.Namespace cmd)
         (Command.Name cmd) ;;
  match r with
  | Some err => ret (NewErrorResponse err)
  | None =>
      ret (NewSuccessResponse
             ("Successfully deleted " +:+ Command.Resource cmd +:+ " '" +:+
              Command.Name cmd +:+ "'")
             data_nil)
  end.

(** The test that opens the three log handlers: the pod's options when
  the namespace, the options and the pod are all there. *)
Definition podOptions (cmd : Command.t) : option LogOptions.t :=
if String.eqb (Command.Namespace cmd) "" then None
else
  match Command.LogOptions cmd with
  | None => None
  | Some lo => if String.eqb (LogOptions.Pod lo) "" then None else Some lo
  end.

(** [handleLogsCommand] *)
Definition handleLogsCommand (cmd : Command.t) : M (result Response.t) :=
match podOptions cmd with
| None => ret (NewErrorResponse "namespace and pod are required")
| Some lo =>
    since <- parseSince (LogOptions.Since lo) ;;
    match since with
    | Err err => ret (NewErrorResponse err)
    | Ok sinceTime =>
        let opts :=
          logs.LogOptions.mk (Command.Namespace cmd) (LogOptions.Pod lo)
            (LogOptions.Container lo) sinceTime None (parseTail (LogOptions.Tail lo))
            EmptyString EmptyString in
        r <- logs.GetLogs opts ;;
        match r with
        | Err err => ret (NewErrorResponse err)
        | Ok logEntries =>
            ret (NewSuccessResponse
                   ("Successfully retrieved logs from pod '" +:+ LogOptions.Pod lo +:+ "'")
                   (data_LogEntries logEntries))
        end
    end
end.

(** [handleSearchLogsCommand] *)
Definition handleSearchLogsCommand (cmd : Command.t) : M (result Response.t) :=
match podOptions cmd with
| None => ret (NewErrorResponse "namespace and pod are required")
| Some lo =>
    if String.eqb (LogOptions.Pattern lo) "" then
      ret (NewErrorResponse "search pattern is required")
    else
      since <- parseSince (LogOptions.Since lo) ;;
      match since with
      | Err err => ret (NewErrorResponse err)
      | Ok sinceTime =>
          let opts :=
            logs.LogOptions.mk (Command.Namespace cmd) (LogOptions.Pod lo)
              (LogOptions.Container lo) sinceTime None (parseTail (LogOptions.Tail lo))
              (LogOptions.Pattern lo) (LogOptions.LogLevel lo) in
          r <- logs.GetLogs opts ;;
          match r with
          | Err err => ret (NewErrorResponse err)
          | Ok logEntries =>
              ret (NewSuccessResponse
                     ("Successfully searched logs from pod '" +:+ LogOptions.Pod lo +:+ "'")
                     (data_LogEntries logEntries))
          end
      end
end.

(** [handleExportLogsCommand] *)
Definition handleExportLogsCommand (cmd : Command.t) : M (result Response.t) :=
match podOptions cmd with
| None => ret (NewErrorResponse "namespace and pod are required")
| Some lo =>
    if String.eqb (LogOptions.Format lo) "" then
      ret (NewErrorResponse "export format is required")
    else
      since <- parseSince (LogOptions.Since lo) ;;
      match since with
      | Err err => ret (NewErrorResponse err)
      | Ok sinceTime =>
          let opts :=
            logs.LogOptions.mk (Command.Namespace cmd) (LogOptions.Pod lo)
              (LogOptions.Container lo) sinceTime None (parseTail (LogOptions.Tail lo))
              (LogOptions.Pattern lo) (LogOptions.LogLevel lo) in
          r <- logs.GetLogs opts ;;
          match r with
          | Err err => ret (NewErrorResponse err)
          | Ok logEntries =>
              match logs.ExportLogs logEntries (LogOptions.Format lo) with
              | (_, Some err) => ret (NewErrorResponse err)
              | (buf, None) =>
                  ret (NewSuccessResponse
                         ("Successfully exported logs from pod '" +:+ LogOptions.Pod lo +:+
                          "' in " +:+ LogOptions.Format lo +:+ " format")
                         (data_exported buf))
              end
          end
      end
end.

(** [HandleCommand] *)
Definition HandleCommand (cmd : Command.t) : M (result Response.t) :=
let type := Command.Type_ cmd in
if String.eqb type ListCommand then handleListCommand cmd
else if String.eqb type GetCommand then handleGetCommand cmd
else if String.eqb type CreateCommand then handleCreateCommand cmd
else if String.eqb type DeleteCommand then handleDeleteCommand cmd
else if String.eqb type LogsCommand then handleLogsCommand cmd
else if String.eqb type SearchLogsCommand then handleSearchLogsCommand cmd
else if String.eqb type ExportLogsCommand then handleExportLogsCommand cmd
else ret (NewErrorResponse ("unsupported command type: " +:+ type)).

End WithBackend.
End mcp.

(** ** The libraries behind the HTTP server

    The parts of [strconv], [encoding/json] and [net/http] that
    [pkg/api/server.go] goes through.  Quoting of a text in an error
    message, decoding of a [Command] and the compaction of a raw JSON
    value are taken as given. *)
Class ServerLibrary := {
  (** [strconv.Quote] *)
  strconv_Quote : string -> string;
  (** [json.Unmarshal(data, &cmd)] on a zero [Command] *)
  json_Unmarshal_Command : string -> result mcp.Command.t;
  (** [compact] of [encoding/json], with HTML escaping: what the encoder
      applies to a [json.RawMessage] *)
  json_compact : string -> result string;
}.

(** [strings.Split(s, sep)] for a separator of one byte: the texts between
    the separators, one more than there are separators. *)
Fixpoint strings_Split (s : string) (sep : ascii) : list string :=
  match s with
  | EmptyString => [EmptyString]
  | String c s' =>
      if byte_val c =? byte_val sep then EmptyString :: strings_Split s' sep
      else
        match strings_Split s' sep with
        | part :: parts => String c part :: parts
        | [] => [String c EmptyString]
        end
  end.

Module strconv.
Section WithLibrary.
Context `{ServerLibrary}.

(** [NumError.Error] with [ErrSyntax] and with [ErrRange]. *)
Definition syntaxError (fn str : string) : string :=
"strconv." +:+ fn +:+ ": parsing " +:+ strconv_Quote str +:+ ": invalid syntax".

Definition rangeError (fn str : string) : string :=
"strconv." +:+ fn +:+ ": parsing " +:+ strconv_Quote str +:+ ": value out of range".

(** The digit loop of the fast path of [Atoi]. *)
Fixpoint digits (n : Z) (s : string) : option Z :=
match s with
| EmptyString => Some n
| String ch s' =>
    let ch := (byte_val ch - 48) mod 256 in
    if 9 <? ch then None else digits (n * 10 + ch) s'
end.

(** The two ways [ParseUint] fails. *)
Inductive failure := ErrSyntax | ErrRange.

Definition maxUint64 : Z := 2 ^ 64 - 1.

(** The loop of [ParseUint(s, 10, 0)]: with base ten given, a byte that
    is no digit is a syntax error; [cutoff] is [maxUint64/10 + 1]. *)
Fixpoint ParseUint_loop (n : Z) (s : string) : Z + failure :=
match s with
| EmptyString => inl n
| String c s' =>
    if isDigit c then
      let d := byte_val c - 48 in
      if maxUint64 / 10 + 1 <=? n then inr ErrRange
      else
        let n1 := n * 10 + d in
        if maxUint64 <? n1 then inr ErrRange else ParseUint_loop n1 s'
    else inr ErrSyntax
end.

Definition ParseUint (s : string) : Z + failure :=
match s with
| EmptyString => inr ErrSyntax
| _ => ParseUint_loop 0 s
end.

Definition isSign (c : ascii) : bool := (byte_val c =? 45) || (byte_val c =? 43).

(** [ParseInt(s, 10, 0)] as [Atoi] uses it, the error's [Func] already
    set to [Atoi]; [int] has 64 bits. *)
Definition ParseInt (s : string) : result Z :=
match s with
| EmptyString => Err (syntaxError "Atoi" s)
| String c s' =>
    let s0 := s in
    let neg := byte_val c =? 45 in
    let s := if isSign c then s' else s in
    match ParseUint s with
    | inr ErrSyntax => Err (syntaxError "Atoi" s0)
    | r =>
        let un := match r with inl un => un | inr _ => maxUint64 end in
        let cutoff := 2 ^ 63 in
        if negb neg && (cutoff <=? un) then Err (rangeError "Atoi" s0)
        else if neg && (cutoff <? un) then Err (rangeError "Atoi" s0)
        else Ok (if neg then - un else un)
    end
end.

(** [strconv.Atoi] *)
Definition Atoi (s : string) : result Z :=
let sLen := String.length s in
match s with
| String c s' =>
    if (sLen <? 19)%nat then
      let s0 := s in
      let s := if isSign c then s' else s in
      if isSign c && (String.length s <? 1)%nat then Err (syntaxError "Atoi" s0)
      else
        match digits 0 s with
        | None => Err (syntaxError "Atoi" s0)
        | Some n => Ok (if byte_val c =? 45 then - n else n)
        end
    else ParseInt s
| EmptyString => ParseInt s
end.

End WithLibrary.
End strconv.

(** ** Package [net/url]: query values *)

Module url.

(** [url.Values] *)
Definition Values := gmap string (list string).

(** [Values.Get]: the first value of the key, [""] without one. *)
Definition Get (v : Values) (key : string) : string :=
  match v !! key with
  | Some (first :: _) => first
  | _ => EmptyString
  end.

End url.

(** ** Package [net/http]: requests and response writers *)

Module http.

Definition MethodGet : string := "GET".
Definition MethodPost : string := "POST".
Definition MethodDelete : string := "DELETE".

Definition StatusBadRequest : Z := 400.
Definition StatusMethodNotAllowed : Z := 405.
Definition StatusInternalServerError : Z := 500.

(** What a handler looks at in a request: the method, [r.URL.Path],
    [r.URL.Query()] and what [io.ReadAll(r.Body)] returns. *)
Record Request := mkRequest {
  Method : string;
  URL_Path : string;
  URL_Query : url.Values;
  Body : result string;
}.

(** What a handler has done to its [ResponseWriter]: the header map, the
    status code once one is written, and the bytes of the body. *)
Record ResponseWriter := mkResponseWriter {
  header : gmap string string;
  status : option Z;
  body : string;
}.

(** The writer a handler is called with. *)
Definition fresh : ResponseWriter := mkResponseWriter ∅ None EmptyString.

Definition Header_Set (key value : string) (w : ResponseWriter) : ResponseWriter :=
  mkResponseWriter (<[key := value]> (header w)) (status w) (body w).

Definition Header_Del (key : string) (w : ResponseWriter) : ResponseWriter :=
  mkResponseWriter (delete key (header w)) (status w) (body w).

(** [WriteHeader]: the first status code stands. *)
Definition WriteHeader (code : Z) (w : ResponseWriter) : ResponseWriter :=
  match status w with
  | Some _ => w
  | None => mkResponseWriter (header w) (Some code) (body w)
  end.

(** [Write]: the status is 200 when none was written before. *)
Definition Write (data : string) (w : ResponseWriter) : ResponseWriter :=
  let w := WriteHeader 200 w in
  mkResponseWriter (header w) (status w) (body w +:+ data).

(** [http.Error] *)
Definition Error (w : ResponseWriter) (error : string) (code : Z) : ResponseWriter :=
  let w := Header_Del "Content-Length" w in
  let w := Header_Set "Content-Type" "text/plain; charset=utf-8" w in
  let w := Header_Set "X-Content-Type-Options" "nosniff" w in
  let w := WriteHeader code w in
  Write (error +:+ String newline EmptyString) w.

(** The status code of the response as sent: 200 when the handler
    returns without writing one. *)
Definition statusCode (w : ResponseWriter) : Z := default 200 (status w).

End http.

(** ** Package [api]: the HTTP server *)

Module api.
Section WithBackend.
Context `{GoLibrary} `{!Backend} `{!ServerLibrary}.

(** [mcp.ParseCommand] *)
Definition ParseCommand (data : string) : result mcp.Command.t :=
match json_Unmarshal_Command data with
| Err err => Err ("failed to parse command: " +:+ err)
| Ok cmd => Ok cmd
end.

(** [encoding/json] on a [Response]: [message], [data] and [error]
  carry [omitempty]; the raw [data] is compacted. *)
Definition json_Marshal_Response (resp : mcp.Response.t) : result string :=
let data : result string :=
  match mcp.Response.Data resp with
  | Some raw =>
      if nonempty raw then
        match json_compact raw with
        | Ok raw => Ok ("," +:+ logs.field "data" raw)
        | Err err =>
            Err ("json: error calling MarshalJSON for type json.RawMessage: " +:+ err)
        end
      else Ok EmptyString
  | None => Ok EmptyString
  end in
match data with
| Err err => Err err
| Ok data =>
    Ok ("{" +:+
        logs.field "success" (if mcp.Response.Success resp then "true" else "false") +:+
        (if nonempty (mcp.Response.Message resp)
         then "," +:+ logs.field "message" (json.appendString (mcp.Response.Message resp))
         else "") +:+
        data +:+
        (if nonempty (mcp.Response.Error resp)
         then "," +:+ logs.field "error" (json.appendString (mcp.Response.Error resp))
         else "") +:+
        "}")
end.

(** [json.NewEncoder(w).Encode(v)], its error dropped as the handlers
  do: the encoding and a newline, nothing when encoding fails. *)
Definition json_Encode (w : http.ResponseWriter) (v : result string) : http.ResponseWriter :=
match v with
| Ok b => http.Write (b +:+ String newline EmptyString) w
| Err _ => w
end.

(** The block that ends [handleMCPRequest], [handleResourceRequest] and
  [handleLogRequest]: handle the command and send the response. *)
Definition handleAndSend (w : http.ResponseWriter) (cmd : mcp.Command.t)
: M http.ResponseWriter :=
r <- mcp.HandleCommand cmd ;;
match r with
| Err err =>
    ret (http.Error w ("Failed to handle command: " +:+ err)
           http.StatusInternalServerError)
| Ok resp =>
    let w := http.Header_Set "Content-Type" "application/json" w in
    let w := if negb (mcp.Response.Success resp)
             then http.WriteHeader http.StatusBadRequest w else w in
    ret (json_Encode w (json_Marshal_Response resp))
end.

(** [handleMCPRequest] *)
Definition handleMCPRequest (w : http.ResponseWriter) (r : http.Request)
: M http.ResponseWriter :=
if negb (String.eqb (http.Method r) http.MethodPost) then
  ret (http.Error w "Method not allowed" http.StatusMethodNotAllowed)
else
  match http.Body r with
  | Err err =>
      ret (http.Error w ("Failed to read request body: " +:+ err) http.StatusBadRequest)
  | Ok body =>
      match ParseCommand body with
      | Err err =>
          ret (http.Error w ("Failed to parse command: " +:+ err) http.StatusBadRequest)
      | Ok cmd => handleAndSend w cmd
      end
  end.

(** [handleResourceRequest] *)
Definition handleResourceRequest (w : http.ResponseWriter) (r : http.Request)
: M http.ResponseWriter :=
let parts := strings_Split (http.URL_Path r) "/" in
match parts with
| _ :: _ :: _ :: resourceType :: rest =>
    let name := match rest with name :: _ => name | [] => EmptyString end in
    let namespace := url.Get (http.URL_Query r) "namespace" in
    if String.eqb (http.Method r) http.MethodGet then
      if String.eqb name "" then
        handleAndSend w (mcp.Command.mk mcp.ListCommand resourceType "" namespace None None)
      else
        handleAndSend w (mcp.Command.mk mcp.GetCommand resourceType name namespace None None)
    else if String.eqb (http.Method r) http.MethodPost then
      match http.Body r with
      | Err err =>
          ret (http.Error w ("Failed to read request body: " +:+ err)
                 http.StatusBadRequest)
      | Ok body =>
          handleAndSend w
            (mcp.Command.mk mcp.CreateCommand resourceType "" namespace (Some body) None)
      end
    else if String.eqb (http.Method r) http.MethodDelete then
      if String.eqb name "" then
        ret (http.Error w "Resource name is required for DELETE" http.StatusBadRequest)
      else
        handleAndSend w
          (mcp.Command.mk mcp.DeleteCommand resourceType name namespace None None)
    else ret (http.Error w "Method not allowed" http.StatusMethodNotAllowed)
| _ => ret (http.Error w "Invalid path" http.StatusBadRequest)
end.

(** [handleLogRequest] *)
Definition handleLogRequest (w : http.ResponseWriter) (r : http.Request)
: M http.ResponseWriter :=
if negb (String.eqb (http.Method r) http.MethodGet) then
  ret (http.Error w "Method not allowed" http.StatusMethodNotAllowed)
else
  let parts := strings_Split (http.URL_Path r) "/" in
  match parts with
  | _ :: _ :: _ :: parts3 :: rest =>
      let query := url.Get (http.URL_Query r) in
      let container := query "container" in
      let since := query "since" in
      let tailStr := query "tail" in
      let pattern := query "pattern" in
      let logLevel := query "level" in
      let format := query "format" in
      match (if nonempty tailStr then strconv.Atoi tailStr else Ok 0) with
      | Err err =>
          ret (http.Error w ("Invalid tail parameter: " +:+ err) http.StatusBadRequest)
      | Ok tail =>
          let logOptions (pod : string) :=
            mcp.LogOptions.mk pod container since tail pattern logLevel format in
          if String.eqb parts3 "search" then
            let namespace := query "namespace" in
            let pod := query "pod" in
            if String.eqb namespace "" || String.eqb pod "" then
              ret (http.Error w "Namespace and pod are required for log search"
                     http.StatusBadRequest)
            else
              handleAndSend w
                (mcp.Command.mk mcp.SearchLogsCommand "" "" namespace None
                   (Some (logOptions pod)))
          else if String.eqb parts3 "export" then
            let namespace := query "namespace" in
            let pod := query "pod" in
            if String.eqb namespace "" || String.eqb pod "" then
              ret (http.Error w "Namespace and pod are required for log export"
                     http.StatusBadRequest)
            else if String.eqb format "" then
              ret (http.Error w "Format is required for log export" http.StatusBadRequest)
            else
              handleAndSend w
                (mcp.Command.mk mcp.ExportLogsCommand "" "" namespace None
                   (Some (logOptions pod)))
          else
            let namespace := parts3 in
            match rest with
            | [] => ret (http.Error w "Pod name is required" http.StatusBadRequest)
            | pod :: _ =>
                handleAndSend w
                  (mcp.Command.mk mcp.LogsCommand "" "" namespace None
                     (Some (logOptions pod)))
            end
      end
  | _ => ret (http.Error w "Invalid path" http.StatusBadRequest)
  end.

(** [handleHealthCheck]; the value encoded is a [map[string]string]
  with the one key [status]. *)
Definition handleHealthCheck (w : http.ResponseWriter) (r : http.Request)
: M http.ResponseWriter :=
let w := http.Header_Set "Content-Type" "application/json" w in
ret (json_Encode w (Ok ("{" +:+ logs.field "status" (json.appendString "ok") +:+ "}"))).

End WithBackend.
End api.

(** ** A sample environment

    A small instance of the library parameters and of the backend, used to
    run the model: patterns are literal texts (with balanced parentheses),
    documents are empty objects, and the one pod log holds the two lines of
    the specification followed by a line without its newline. *)

Module Sample.

Fixpoint balanced (depth : nat) (p : string) : bool :=
  match p with
  | EmptyString => (depth =? 0)%nat
  | String c p' =>
      if byte_val c =? 40 then balanced (S depth) p'
      else if byte_val c =? 41 then
        match depth with
        | O => false
        | S d => balanced d p'
        end
      else balanced depth p'
  end.

Fixpoint contains (p s : string) : bool :=
  String.prefix p s ||
  match s with
  | EmptyString => false
  | String _ s' => contains p s'
  end.

#[local] Instance library : GoLibrary := {|
  unicode_ToUpper := id;
  unicode_ToLower := id;
  unicode_EqualFold := String.eqb;
  unicode_TrimFunc_IsSpace := id;
  unicode_TrimRightFunc_IsSpace := id;
  Regexp := string;
  regexp_Compile := fun p =>
    if balanced 0 p then Ok p else Err "error parsing regexp: missing closing )";
  Regexp_MatchString := contains;
  time_ParseDuration := fun _ => Err "time: invalid duration";
  Time_Add := fun t _ => t;
  Unstructured := unit;
  UnstructuredList := unit;
  json_Unmarshal_Object := fun _ => Ok tt;
  json_Marshal_Unstructured := fun _ => "{}";
  json_Marshal_UnstructuredList := fun _ => "{}";
|}.

Definition line1 : string := "2024-01-01T10:00:00 INFO starting" +:+ String newline "".
Definition line2 : string := "no timestamp here ERROR failed" +:+ String newline "".
Definition lines : string := line1 +:+ line2 +:+ "cut off".

(** Options for the pod [web] of namespace [default]. *)
Definition search (pattern level : string) : logs.LogOptions.t :=
  logs.LogOptions.mk "default" "web" "" None None None pattern level.

#[local] Instance backend : Backend := {|
  wallclock := fun n => mkTime 2025 3 14 9 26 (Z.of_nat (n mod 60)) 0 0;
  dynamic_Get := fun _ _ _ => Ok tt;
  dynamic_List := fun _ _ => Ok tt;
  dynamic_Create := fun _ _ obj => Ok obj;
  dynamic_Delete := fun _ _ _ => None;
  pods_GetLogs_Stream := fun _ _ _ => Ok (mkStream lines None);
|}.

Definition world : World := mkWorld [] 0.

Definition delete_web : mcp.Command.t :=
  mcp.Command.mk "delete" "pods" "web" "default" None None.

Definition search_without_pattern : mcp.Command.t :=
  mcp.Command.mk "search_logs" "" "" "default" None
    (Some (mcp.LogOptions.mk "web" "" "" 0 "" "" "")).

Definition restart_web : mcp.Command.t :=
  mcp.Command.mk "restart" "pods" "web" "default" None None.

End Sample.

(** * Properties *)

(** ** Timestamps of parsed lines *)

Lemma match_here_length p s m :
  Patterns.match_here p s = Some m -> String.length m = List.length p.
Proof.
  revert s m; induction p as [|k p IH]; intros s m; simpl.
  - intros [= <-]; reflexivity.
  - destruct s as [|c s]; [done|].
    destruct (Patterns.class_ok k c); [|done].
    destruct (Patterns.match_here p s) as [m'|] eqn:E; simpl; [|done].
    intros [= <-]; simpl. f_equal. eapply IH, E.
Qed.

Lemma timestampRegex_FindString_length line :
  nonempty (Patterns.timestampRegex_FindString line) = true ->
  String.length (Patterns.timestampRegex_FindString line) = 19%nat.
Proof.
  induction line as [|c line IH]; [done|].
  intros Hne. cbn [Patterns.timestampRegex_FindString] in *.
  destruct (Patterns.match_here Patterns.timestampRegex (String c line)) as [m|] eqn:E.
  - apply match_here_length in E. exact E.
  - auto.
Qed.

(** The text that a sequence of classes matches is matched by it whole. *)
Lemma match_here_idem p : forall s m,
  Patterns.match_here p s = Some m -> Patterns.match_here p m = Some m.
Proof.
  induction p as [|k p IH]; intros s m; simpl.
  - intros [= <-]; reflexivity.
  - destruct s as [|c s]; [done|].
    destruct (Patterns.class_ok k c) eqn:Hk; [|done].
    destruct (Patterns.match_here p s) as [m'|] eqn:E; simpl; [|done].
    intros [= <-]. rewrite Hk, (IH _ _ E). reflexivity.
Qed.

Lemma timestampRegex_FindString_match line :
  nonempty (Patterns.timestampRegex_FindString line) = true ->
  Patterns.match_here Patterns.timestampRegex (Patterns.timestampRegex_FindString line)
  = Some (Patterns.timestampRegex_FindString line).
Proof.
  induction line as [|c line IH]; [done|].
  intros Hne. cbn [Patterns.timestampRegex_FindString] in *.
  destruct (Patterns.match_here Patterns.timestampRegex (String c line)) as [m|] eqn:E.
  - eapply match_here_idem, E.
  - auto.
Qed.

Lemma match_here_cons k p c s :
  Patterns.match_here (k :: p) (String c s) = Some (String c s) ->
  Patterns.class_ok k c = true /\ Patterns.match_here p s = Some s.
Proof.
  cbn [Patterns.match_here]. destruct (Patterns.class_ok k c); [|done].
  destruct (Patterns.match_here p s); simpl; [|done]. intros [= ->]. done.
Qed.

Lemma Lit_ok l c : Patterns.class_ok (Patterns.Lit l) c = true -> c = l.
Proof.
  unfold Patterns.class_ok. intros E%Z.eqb_eq. unfold byte_val in E.
  apply N2Z.inj in E. apply (f_equal ascii_of_N) in E.
  now rewrite !ascii_N_embedding in E.
Qed.

(** A text of nineteen bytes has no room for a zone: [parseRFC3339]
    does not take it. *)
Lemma parseRFC3339_no_zone value :
  String.length value = 19%nat -> time.parseRFC3339 value = None.
Proof.
  intros Hlen.
  do 19 (destruct value as [|? value]; [discriminate Hlen|]).
  destruct value; [|discriminate Hlen].
  unfold time.parseRFC3339.
  cbn [String.length Nat.ltb Nat.leb].
  repeat match goal with
  | |- context [time.parseUint ?s ?lo ?hi] =>
      destruct (time.parseUint s lo hi); cbn [mbind option_bind]; [|reflexivity]
  end.
  match goal with |- (if ?b then _ else _) = _ => destruct b; [reflexivity|] end.
  reflexivity.
Qed.

(** A text that [timestampRegex] matches whole has two digits in every
    field and ends with the seconds: the layout parser reads all of it
    before the zone, finds nothing left for [Z07:00] and fails; a field
    out of range fails earlier. *)
Lemma Parse_RFC3339_no_zone value :
  Patterns.match_here Patterns.timestampRegex value = Some value ->
  is_Ok (time.Parse_RFC3339 value) = false.
Proof.
  intros Hm. pose proof (match_here_length _ _ _ Hm) as Hlen.
  unfold time.Parse_RFC3339. rewrite (parseRFC3339_no_zone _ Hlen).
  cbn [List.length Patterns.timestampRegex] in Hlen.
  do 19 (destruct value as [|? value]; [discriminate Hlen|]).
  destruct value; [|discriminate Hlen]. clear Hlen.
  unfold Patterns.timestampRegex in Hm.
  repeat (apply match_here_cons in Hm; destruct Hm as [? Hm]). clear Hm.
  repeat match goal with
  | E : Patterns.class_ok (Patterns.Lit _) _ = true |- _ => apply Lit_ok in E; subst
  end.
  cbn [Patterns.class_ok] in *.
  unfold time.parse.
  cbn [String.length Nat.ltb Nat.leb negb string_take string_drop].
  repeat first
    [ match goal with |- is_Ok (Err _) = false => reflexivity end
    | match goal with E : isDigit ?c = true |- context [isDigit ?c] => rewrite E end
    | match goal with |- context [byte_val ?x =? byte_val ?x] => rewrite Z.eqb_refl end
    | progress cbn [time.getnum time.skip negb time.parseFractionalSecond time.parseZone
                    String.length Nat.ltb Nat.leb]
    | match goal with |- is_Ok (match ?x with _ => _ end) = false => destruct x end ].
Qed.

Section ParseLogEntry.
Context `{GoLibrary} `{!Backend}.

(** Whatever the line, the text that [timestampRegex] finds has no zone,
    [time.Parse] rejects it, and the entry keeps the time of parsing. *)
Lemma parseLogEntry_Timestamp line pod container namespace w :
  logs.LogEntry.Timestamp (fst (logs.parseLogEntry line pod container namespace w))
  = wallclock (ticks w).
Proof.
  unfold logs.parseLogEntry, bind, ret, time_Now; simpl.
  destruct (nonempty (Patterns.timestampRegex_FindString line)) eqn:Hne; [|reflexivity].
  apply timestampRegex_FindString_match in Hne.
  apply Parse_RFC3339_no_zone in Hne.
  destruct (time.Parse_RFC3339 _); [discriminate Hne | reflexivity].
Qed.

Lemma parseLogEntry_world line pod container namespace w :
  snd (logs.parseLogEntry line pod container namespace w)
  = mkWorld (events w) (S (ticks w)).
Proof. reflexivity. Qed.

(** C1, on the code: [parseLogEntry] finds the level of both lines of
    the specification, [INFO] and [ERROR], but the first line's
    [2024-01-01T10:00:00] is rejected by [time.Parse] for want of a zone,
    so that entry too is stamped with the clock's reading at parse time
    instead of 2024-01-01T10:00:00Z. *)
Theorem parseLogEntry_spec_lines pod container namespace w :
  Patterns.timestampRegex_FindString "2024-01-01T10:00:00 INFO starting"
    = "2024-01-01T10:00:00" /\
  is_Ok (time.Parse_RFC3339 "2024-01-01T10:00:00") = false /\
  fst (logs.parseLogEntry "2024-01-01T10:00:00 INFO starting" pod container namespace w)
    = logs.LogEntry.mk (wallclock (ticks w)) "2024-01-01T10:00:00 INFO starting"
        pod container namespace "INFO" /\
  fst (logs.parseLogEntry "no timestamp here ERROR failed" pod container namespace w)
    = logs.LogEntry.mk (wallclock (ticks w)) "no timestamp here ERROR failed"
        pod container namespace "ERROR".
Proof. repeat split; vm_compute; reflexivity. Qed.

End ParseLogEntry.

(** ** Resource kinds *)

(** The kinds of the table. *)
Definition kinds : list string :=
  ["pods"; "services"; "deployments"; "namespaces"; "configmaps"; "secrets";
   "persistentvolumes"; "persistentvolumeclaims"; "statefulsets"; "daemonsets";
   "ingresses"].

Lemma resourceMap_dom : dom kubernetes.resourceMap = list_to_set kinds.
Proof. unfold kubernetes.resourceMap. rewrite dom_list_to_map_L. reflexivity. Qed.

Lemma resourceMap_None kind :
  kind ∉ kinds -> kubernetes.resourceMap !! kind = None.
Proof.
  intros Hk. apply not_elem_of_dom. rewrite resourceMap_dom.
  rewrite elem_of_list_to_set. exact Hk.
Qed.

Lemma resourceMap_Some kind :
  kind ∈ kinds -> is_Some (kubernetes.resourceMap !! kind).
Proof.
  intros Hk. apply elem_of_dom. rewrite resourceMap_dom.
  rewrite elem_of_list_to_set. exact Hk.
Qed.

Section ResourceKinds.
Context `{GoLibrary} `{!Backend}.

(** C7: [getGroupVersionResource] looks the kind up in the fixed table
    by exact match: [pods] gives the triple (empty group, v1, pods), and a
    kind that is not one of the eleven names of the table (so also a name
    in another case) fails with the unsupported-resource-type error, which
    [GetResource], [ListResources], [CreateResource] and [DeleteResource]
    return as it is, without calling the backend. *)
Theorem getGroupVersionResource_table :
  (kubernetes.getGroupVersionResource "pods" = Ok (schema.mkGVR "" "v1" "pods")) /\
  (forall kind, kind ∈ kinds -> is_Ok (kubernetes.getGroupVersionResource kind) = true) /\
  (forall kind, kind ∉ kinds ->
     let err := "unsupported resource type: " +:+ kind in
     (kubernetes.getGroupVersionResource kind = Err err) /\
     (forall namespace name object w,
        (kubernetes.GetResource kind namespace name w = (Err err, w)) /\
        (kubernetes.ListResources kind namespace w = (Err err, w)) /\
        (kubernetes.CreateResource kind namespace object w = (Err err, w)) /\
        (kubernetes.DeleteResource kind namespace name w = (Some err, w)))).
Proof.
  split; [vm_compute; reflexivity|]. split.
  - intros kind Hk. unfold kubernetes.getGroupVersionResource.
    destruct (resourceMap_Some kind Hk) as [gvr ->]. reflexivity.
  - intros kind Hk err.
    assert (Hr : kubernetes.getGroupVersionResource kind = Err err).
    { unfold kubernetes.getGroupVersionResource. now rewrite resourceMap_None. }
    split; [exact Hr|]. intros namespace name object w.
    unfold kubernetes.GetResource, kubernetes.ListResources,
      kubernetes.CreateResource, kubernetes.DeleteResource.
    rewrite Hr. repeat split.
Qed.

End ResourceKinds.

(** The kind [not-a-kind] and the differently cased [Pods] are not in the
    table; each resource operation hands the error back. *)
Lemma getGroupVersionResource_table_witness :
  ("not-a-kind" ∉ kinds) /\ ("Pods" ∉ kinds) /\
  (kubernetes.getGroupVersionResource "not-a-kind"
     = Err "unsupported resource type: not-a-kind") /\
  (kubernetes.getGroupVersionResource "Pods" = Err "unsupported resource type: Pods") /\
  (@kubernetes.GetResource Sample.library Sample.backend
     "not-a-kind" "default" "web" Sample.world
     = (Err "unsupported resource type: not-a-kind", Sample.world)).
Proof.
  assert (H1 : "not-a-kind" ∉ kinds) by (apply (bool_decide_unpack _); vm_compute; exact I).
  assert (H2 : "Pods" ∉ kinds) by (apply (bool_decide_unpack _); vm_compute; exact I).
  pose proof (@getGroupVersionResource_table Sample.library Sample.backend) as (_ & _ & T).
  split; [exact H1|]. split; [exact H2|].
  split; [exact (proj1 (T "not-a-kind" H1))|].
  split; [exact (proj1 (T "Pods" H2))|].
  exact (proj1 (proj2 (T "not-a-kind" H1) "default" "web" tt Sample.world)).
Defined.

(** ** Log retrieval *)

(** A line as [ReadString] delivers it: it ends in its only newline. *)
Definition is_line (l : string) : Prop := bufio.cut l = Some (l, EmptyString).

Definition no_newline (s : string) : bool :=
  negb (string_existsb (fun c => byte_val c =? 10) s).

Definition unlines (lines : list string) : string :=
  fold_right String.append EmptyString lines.

Lemma append_assoc (a b c : string) : (a +:+ b) +:+ c = a +:+ (b +:+ c).
Proof.
  induction a as [|x a IH]; [reflexivity|].
  change (String x ((a +:+ b) +:+ c) = String x (a +:+ (b +:+ c))).
  now rewrite IH.
Qed.

Lemma append_cons c (a b : string) : String c a +:+ b = String c (a +:+ b).
Proof. reflexivity. Qed.

Lemma append_nil (b : string) : EmptyString +:+ b = b.
Proof. reflexivity. Qed.

Lemma append_empty_r (a : string) : a +:+ EmptyString = a.
Proof.
  induction a as [|x a IH]; [reflexivity|].
  change (String x (a +:+ EmptyString) = String x a).
  now rewrite IH.
Qed.

Lemma cut_no_newline s : no_newline s = true -> bufio.cut s = None.
Proof.
  unfold no_newline. induction s as [|c s IH]; simpl; [reflexivity|].
  destruct (byte_val c =? 10); simpl; [discriminate|].
  intros Hs. now rewrite IH.
Qed.

Lemma cut_line_app l s : is_line l -> bufio.cut (l +:+ s) = Some (l, s).
Proof.
  unfold is_line. induction l as [|c l IH]; simpl; [discriminate|].
  destruct (byte_val c =? 10).
  - intros [= <-]. reflexivity.
  - destruct (bufio.cut l) as [[l1 r1]|] eqn:E; simpl; [|discriminate].
    intros [= -> ->]. now rewrite IH.
Qed.

(** Every stream content is some complete lines followed by a rest
    without newline. *)
Lemma content_lines s :
  exists lines tail,
    s = unlines lines +:+ tail /\ Forall is_line lines /\ no_newline tail = true.
Proof.
  induction s as [|c s (lines & tail & -> & Hl & Ht)].
  - exists [], EmptyString. repeat split; constructor.
  - destruct (byte_val c =? 10) eqn:Ec.
    + exists (String c EmptyString :: lines), tail. repeat split; [|exact Ht].
      constructor; [|exact Hl]. unfold is_line; simpl. now rewrite Ec.
    + destruct Hl as [|l lines Hl Hls].
      * exists [], (String c tail). repeat split; [constructor|].
        unfold no_newline in *; simpl. now rewrite Ec.
      * exists (String c l :: lines), tail. repeat split; [|exact Ht].
        constructor; [|exact Hls]. unfold is_line in *; simpl. rewrite Ec, Hl.
        reflexivity.
Qed.

Section Retrieval.
Context `{GoLibrary} `{!Backend}.

(** The loop of [GetLogs], one round unfolded. *)
Lemma readLoop_unfold re opts reader logEntries w :
  logs.readLoop re opts reader logEntries w =
  match bufio.ReadString reader with
  | (_, Some bufio.io_EOF, _) => (Ok logEntries, snd (emit Call_ReadString w))
  | (_, Some (bufio.failed err), _) =>
      (Err ("error reading logs: " +:+ err), snd (emit Call_ReadString w))
  | (line, None, reader') =>
      let '(entry, w') :=
        (emit Call_ReadString ;;;
         logs.parseLogEntry line (logs.LogOptions.Pod opts) (logs.LogOptions.Container opts)
           (logs.LogOptions.Namespace opts)) w in
      if (match re with
          | Some re => negb (Regexp_MatchString re (logs.LogEntry.Message entry))
          | None => false
          end)
      then logs.readLoop re opts reader' logEntries w'
      else if nonempty (logs.LogOptions.LogLevel opts) &&
              negb (Strings.EqualFold (logs.LogEntry.LogLevel entry)
                      (logs.LogOptions.LogLevel opts))
      then logs.readLoop re opts reader' logEntries w'
      else logs.readLoop re opts reader' (logEntries ++ [entry]) w'
  end.
Proof.
  rewrite logs.readLoop_equation_1.
  destruct (inspect (bufio.ReadString reader)) as [[[l e] r] Heq].
  destruct e as [[|err]|]; simp readLoop.
  all: match goal with
       | |- _ = ?R =>
           assert (Hr : R = R) by reflexivity; rewrite Heq in Hr at 1;
           rewrite <- Hr; clear Hr
       end.
  all: reflexivity.
Qed.

(** The entry that a line yields when the clock has been read [tick]
    times before. *)
Definition entry_at (opts : logs.LogOptions.t) (tick : nat) (line : string)
  : logs.LogEntry.t :=
  fst (logs.parseLogEntry line (logs.LogOptions.Pod opts) (logs.LogOptions.Container opts)
         (logs.LogOptions.Namespace opts) (mkWorld [] tick)).

Fixpoint entries_from (opts : logs.LogOptions.t) (tick : nat) (lines : list string)
  : list logs.LogEntry.t :=
  match lines with
  | [] => []
  | line :: rest => entry_at opts tick line :: entries_from opts (S tick) rest
  end.

(** The test of the loop in the words of the specification: the compiled
    pattern is absent or matches the message, and the level filter is unset
    or equals the entry's level under case folding. *)
Definition passes_loop (re : option Regexp) (opts : logs.LogOptions.t)
    (entry : logs.LogEntry.t) : bool :=
  (match re with
   | None => true
   | Some re => Regexp_MatchString re (logs.LogEntry.Message entry)
   end) &&
  (negb (nonempty (logs.LogOptions.LogLevel opts)) ||
   Strings.EqualFold (logs.LogEntry.LogLevel entry) (logs.LogOptions.LogLevel opts)).

(** The same test from the options alone. *)
Definition passes (opts : logs.LogOptions.t) (entry : logs.LogEntry.t) : bool :=
  (negb (nonempty (logs.LogOptions.Pattern opts)) ||
   match regexp_Compile (logs.LogOptions.Pattern opts) with
   | Ok re => Regexp_MatchString re (logs.LogEntry.Message entry)
   | Err _ => false
   end) &&
  (negb (nonempty (logs.LogOptions.LogLevel opts)) ||
   Strings.EqualFold (logs.LogEntry.LogLevel entry) (logs.LogOptions.LogLevel opts)).

Lemma parseLogEntry_entry_at opts line w :
  logs.parseLogEntry line (logs.LogOptions.Pod opts) (logs.LogOptions.Container opts)
    (logs.LogOptions.Namespace opts) w
  = (entry_at opts (ticks w) line, mkWorld (events w) (S (ticks w))).
Proof. reflexivity. Qed.

Lemma ReadString_line l s fin :
  is_line l ->
  bufio.ReadString (mkStream (l +:+ s) fin) = (l, None, mkStream s fin).
Proof. intros Hl. unfold bufio.ReadString; cbn [pending ending]. now rewrite cut_line_app. Qed.

Lemma ReadString_rest tail fin :
  no_newline tail = true ->
  bufio.ReadString (mkStream tail fin)
  = (tail, Some (match fin with None => bufio.io_EOF | Some msg => bufio.failed msg end),
     mkStream EmptyString fin).
Proof.
  intros Ht. unfold bufio.ReadString; cbn [pending ending]. now rewrite cut_no_newline.
Qed.

(** What the loop returns on a stream of complete lines followed by a
    rest without newline: the entries of the complete lines that pass,
    in order, when the stream ends in [io.EOF]; the read error and no
    entry otherwise. *)
Lemma readLoop_lines re opts lines tail fin logEntries w :
  Forall is_line lines -> no_newline tail = true ->
  logs.readLoop re opts (mkStream (unlines lines +:+ tail) fin) logEntries w
  = (match fin with
     | None =>
         Ok (logEntries ++
             List.filter (passes_loop re opts) (entries_from opts (ticks w) lines))%list
     | Some err => Err ("error reading logs: " +:+ err)
     end,
     mkWorld (events w ++ repeat Call_ReadString (S (List.length lines)))%list
       (ticks w + List.length lines)).
Proof.
  intros Hl Ht. revert logEntries w.
  induction Hl as [|line lines Hline Hl IH]; intros logEntries w.
  - rewrite readLoop_unfold.
    change (unlines [] +:+ tail) with tail. rewrite (ReadString_rest _ _ Ht).
    destruct w as [ev tk]; cbn [events ticks List.length entries_from List.filter].
    rewrite Nat.add_0_r, app_nil_r.
    destruct fin; reflexivity.
  - rewrite readLoop_unfold.
    change (unlines (line :: lines)) with (line +:+ unlines lines).
    rewrite append_assoc, (ReadString_line _ _ _ Hline).
    unfold bind at 1. unfold emit at 1. rewrite parseLogEntry_entry_at.
    cbn [events ticks entries_from List.filter List.length].
    set (entry := entry_at opts (ticks w) line).
    assert (Hev : forall ev : list Event,
              ((ev ++ [Call_ReadString]) ++ repeat Call_ReadString (S (List.length lines))
               = ev ++ repeat Call_ReadString (S (S (List.length lines))))%list).
    { intros ev. rewrite <- app_assoc. reflexivity. }
    assert (Htk : (S (ticks w) + List.length lines = ticks w + S (List.length lines))%nat)
      by lia.
    unfold passes_loop at 1.
    destruct re as [r|].
    + destruct (Regexp_MatchString r (logs.LogEntry.Message entry)); cbn [negb andb].
      * destruct (nonempty (logs.LogOptions.LogLevel opts)); cbn [negb andb orb].
        -- destruct (Strings.EqualFold _ _); cbn [negb];
             rewrite IH; cbn [events ticks]; rewrite Hev, Htk;
             destruct fin; try reflexivity.
           rewrite <- app_assoc. reflexivity.
        -- rewrite IH; cbn [events ticks]. rewrite Hev, Htk.
           destruct fin; try reflexivity. rewrite <- app_assoc. reflexivity.
      * rewrite IH; cbn [events ticks]. rewrite Hev, Htk. reflexivity.
    + cbn [andb]. destruct (nonempty (logs.LogOptions.LogLevel opts)); cbn [negb andb orb].
      * destruct (Strings.EqualFold _ _); cbn [negb];
          rewrite IH; cbn [events ticks]; rewrite Hev, Htk;
          destruct fin; try reflexivity.
        rewrite <- app_assoc. reflexivity.
      * rewrite IH; cbn [events ticks]. rewrite Hev, Htk.
        destruct fin; try reflexivity. rewrite <- app_assoc. reflexivity.
Qed.

(** [GetLogs] on a stream that opens: the entries of the complete lines
    that pass the two filters, or the read error. *)
Lemma GetLogs_lines opts lines tail fin w :
  (forall o, pods_GetLogs_Stream (logs.LogOptions.Namespace opts) (logs.LogOptions.Pod opts) o
             = Ok (mkStream (unlines lines +:+ tail) fin)) ->
  Forall is_line lines -> no_newline tail = true ->
  (nonempty (logs.LogOptions.Pattern opts) = true ->
   is_Ok (regexp_Compile (logs.LogOptions.Pattern opts)) = true) ->
  fst (logs.GetLogs opts w)
  = match fin with
    | None => Ok (List.filter (passes opts) (entries_from opts (ticks w) lines))
    | Some err => Err ("error reading logs: " +:+ err)
    end.
Proof.
  intros Hs Hl Ht Hp. unfold logs.GetLogs.
  unfold bind at 1. unfold emit at 1. rewrite Hs.
  destruct (nonempty (logs.LogOptions.Pattern opts)) eqn:Hne.
  - specialize (Hp eq_refl).
    destruct (regexp_Compile (logs.LogOptions.Pattern opts)) as [re|] eqn:Hc; [|discriminate].
    unfold bind, ret, emit. rewrite (readLoop_lines _ _ _ _ _ _ _ Hl Ht).
    cbn [fst events ticks app].
    destruct fin; [reflexivity|]. f_equal. apply List.filter_ext.
    intros e. unfold passes_loop, passes. now rewrite Hne, Hc.
  - unfold bind, ret, emit. rewrite (readLoop_lines _ _ _ _ _ _ _ Hl Ht).
    cbn [fst events ticks app].
    destruct fin; [reflexivity|]. f_equal. apply List.filter_ext.
    intros e. unfold passes_loop, passes. now rewrite Hne.
Qed.

(** C8: when the stream opens and ends in [io.EOF], [GetLogs] returns,
    in stream order, exactly the entries of the newline-terminated lines
    for which the pattern is unset or matches the message and the level
    filter is unset or equals the entry's level under case folding; every
    other entry is dropped. *)
Theorem GetLogs_keeps_exactly_passing opts lines tail w :
  (forall o, pods_GetLogs_Stream (logs.LogOptions.Namespace opts) (logs.LogOptions.Pod opts) o
             = Ok (mkStream (unlines lines +:+ tail) None)) ->
  Forall is_line lines -> no_newline tail = true ->
  (nonempty (logs.LogOptions.Pattern opts) = true ->
   is_Ok (regexp_Compile (logs.LogOptions.Pattern opts)) = true) ->
  fst (logs.GetLogs opts w)
  = Ok (List.filter (passes opts) (entries_from opts (ticks w) lines)).
Proof. intros Hs Hl Ht Hp. exact (GetLogs_lines opts lines tail None w Hs Hl Ht Hp). Qed.

(** C10: a last line without newline is read by the final [ReadString]
    together with [io.EOF] and dropped: the loop returns what it returns
    on the stream without that line, the entries of the newline-terminated
    lines only. *)
Theorem readLoop_drops_unterminated_line re opts lines tail logEntries w :
  Forall is_line lines -> no_newline tail = true -> nonempty tail = true ->
  logs.readLoop re opts (mkStream (unlines lines +:+ tail) None) logEntries w
  = logs.readLoop re opts (mkStream (unlines lines) None) logEntries w /\
  fst (logs.readLoop re opts (mkStream (unlines lines +:+ tail) None) logEntries w)
  = Ok (logEntries ++
        List.filter (passes_loop re opts) (entries_from opts (ticks w) lines))%list.
Proof.
  intros Hl Ht _.
  rewrite (readLoop_lines re opts lines tail None logEntries w Hl Ht).
  split; [|reflexivity].
  rewrite <- (append_empty_r (unlines lines)).
  now rewrite (readLoop_lines re opts lines EmptyString None logEntries w Hl eq_refl).
Qed.

(** The options [GetLogs] opens the stream with. *)
Definition podLogOptions (opts : logs.LogOptions.t) : corev1.PodLogOptions.t :=
  corev1.PodLogOptions.mk (logs.LogOptions.Container opts) (logs.LogOptions.SinceTime opts)
    (logs.LogOptions.SinceSeconds opts) (logs.LogOptions.Tail opts) false.

Definition open (opts : logs.LogOptions.t) : Event :=
  Call_Stream (logs.LogOptions.Namespace opts) (logs.LogOptions.Pod opts) (podLogOptions opts).

(** The pattern of the options, compiled when there is one. *)
Definition compiled (opts : logs.LogOptions.t) : result (option Regexp) :=
  if nonempty (logs.LogOptions.Pattern opts) then
    match regexp_Compile (logs.LogOptions.Pattern opts) with
    | Ok re => Ok (Some re)
    | Err err => Err err
    end
  else Ok None.

(** [GetLogs], step by step. *)
Lemma GetLogs_run opts w :
  logs.GetLogs opts w =
  match pods_GetLogs_Stream (logs.LogOptions.Namespace opts) (logs.LogOptions.Pod opts)
          (podLogOptions opts) with
  | Err err =>
      (Err ("error opening log stream: " +:+ err), mkWorld (events w ++ [open opts]) (ticks w))
  | Ok stream =>
      match compiled opts with
      | Err err =>
          (Err ("invalid regex pattern: " +:+ err),
           mkWorld (events w ++ [open opts; Call_Close]) (ticks w))
      | Ok re =>
          let '(r, w') :=
            logs.readLoop re opts stream [] (mkWorld (events w ++ [open opts]) (ticks w)) in
          (r, mkWorld (events w' ++ [Call_Close]) (ticks w'))
      end
  end.
Proof.
  unfold logs.GetLogs, open, podLogOptions, compiled.
  destruct opts as [ns pod container sinceTime sinceSeconds tail pattern level].
  cbn [logs.LogOptions.Namespace logs.LogOptions.Pod logs.LogOptions.Container
       logs.LogOptions.SinceTime logs.LogOptions.SinceSeconds logs.LogOptions.Tail
       logs.LogOptions.Pattern logs.LogOptions.LogLevel
       corev1.PodLogOptions.Container corev1.PodLogOptions.SinceSeconds
       corev1.PodLogOptions.TailLines corev1.PodLogOptions.Follow].
  assert (Ho : match sinceTime with
               | Some t => corev1.PodLogOptions.mk container (Some t) sinceSeconds tail false
               | None => corev1.PodLogOptions.mk container None sinceSeconds tail false
               end = corev1.PodLogOptions.mk container sinceTime sinceSeconds tail false)
    by (destruct sinceTime; reflexivity).
  rewrite Ho. unfold bind at 1. unfold emit at 1.
  destruct (pods_GetLogs_Stream ns pod _) as [stream|err]; [|reflexivity].
  destruct (nonempty pattern).
  - destruct (regexp_Compile pattern) as [re|err].
    + unfold bind, ret, emit.
      destruct (logs.readLoop _ _ _ _ _) as [r w']. reflexivity.
    + unfold bind, ret, emit. cbn [events ticks]. now rewrite <- app_assoc.
  - unfold bind, ret, emit.
    destruct (logs.readLoop _ _ _ _ _) as [r w']. reflexivity.
Qed.

(** C4, as the code has it: with a pattern that does not compile,
    [GetLogs] returns an error and no entries and reads neither the clock
    nor the stream.  The stream is opened before the pattern is compiled:
    when it opens, the error is the one of the invalid pattern and the
    stream is closed unread; when the backend refuses it, the error is the
    one of the opening, and the pattern is not looked at. *)
Theorem GetLogs_invalid_pattern opts err w :
  nonempty (logs.LogOptions.Pattern opts) = true ->
  regexp_Compile (logs.LogOptions.Pattern opts) = Err err ->
  is_Ok (fst (logs.GetLogs opts w)) = false /\
  ticks (snd (logs.GetLogs opts w)) = ticks w /\
  (exists calls, events (snd (logs.GetLogs opts w)) = (events w ++ calls)%list /\
                 Forall (fun e => e <> Call_ReadString) calls) /\
  logs.GetLogs opts w
  = match pods_GetLogs_Stream (logs.LogOptions.Namespace opts) (logs.LogOptions.Pod opts)
            (podLogOptions opts) with
    | Ok _ =>
        (Err ("invalid regex pattern: " +:+ err),
         mkWorld (events w ++ [open opts; Call_Close]) (ticks w))
    | Err serr =>
        (Err ("error opening log stream: " +:+ serr),
         mkWorld (events w ++ [open opts]) (ticks w))
    end.
Proof.
  intros Hne Hc. rewrite GetLogs_run. unfold compiled. rewrite Hne, Hc.
  destruct (pods_GetLogs_Stream _ _ _) as [stream|serr]; cbn [fst snd events ticks is_Ok].
  - split; [reflexivity|]. split; [reflexivity|]. split; [|reflexivity].
    eexists. split; [reflexivity|]. unfold open. repeat constructor; discriminate.
  - split; [reflexivity|]. split; [reflexivity|]. split; [|reflexivity].
    eexists. split; [reflexivity|]. unfold open. repeat constructor; discriminate.
Qed.

End Retrieval.

(** The pattern [fail] keeps the second line of the sample log only; the
    rest after the last newline yields no entry. *)
Lemma GetLogs_keeps_exactly_passing_witness :
  (forall o, @pods_GetLogs_Stream Sample.library Sample.backend "default" "web" o
             = Ok (mkStream (unlines [Sample.line1; Sample.line2] +:+ "cut off") None)) /\
  Forall is_line [Sample.line1; Sample.line2] /\
  no_newline "cut off" = true /\
  (nonempty "fail" = true -> is_Ok (@regexp_Compile Sample.library "fail") = true) /\
  fst (@logs.GetLogs Sample.library Sample.backend (Sample.search "fail" "") Sample.world)
  = Ok [logs.LogEntry.mk (mkTime 2025 3 14 9 26 1 0 0) "no timestamp here ERROR failed"
          "web" "" "default" "ERROR"].
Proof.
  assert (H1 : forall o, @pods_GetLogs_Stream Sample.library Sample.backend "default" "web" o
             = Ok (mkStream (unlines [Sample.line1; Sample.line2] +:+ "cut off") None))
    by (intros o; reflexivity).
  assert (H2 : Forall is_line [Sample.line1; Sample.line2])
    by (repeat constructor).
  assert (H3 : no_newline "cut off" = true) by reflexivity.
  assert (H4 : nonempty "fail" = true -> is_Ok (@regexp_Compile Sample.library "fail") = true)
    by (intros _; reflexivity).
  split; [exact H1|]. split; [exact H2|]. split; [exact H3|]. split; [exact H4|].
  exact (@GetLogs_keeps_exactly_passing Sample.library Sample.backend
           (Sample.search "fail" "") [Sample.line1; Sample.line2] "cut off" Sample.world
           H1 H2 H3 H4).
Defined.

(** The sample log ends in the unterminated [cut off]: the loop returns
    the entries of the two lines before it. *)
Lemma readLoop_drops_unterminated_line_witness :
  Forall is_line [Sample.line1; Sample.line2] /\
  no_newline "cut off" = true /\ nonempty "cut off" = true /\
  fst (@logs.readLoop Sample.library Sample.backend None (Sample.search "" "")
         (mkStream (unlines [Sample.line1; Sample.line2] +:+ "cut off") None) []
         Sample.world)
  = Ok [logs.LogEntry.mk (mkTime 2025 3 14 9 26 0 0 0) "2024-01-01T10:00:00 INFO starting"
          "web" "" "default" "INFO";
        logs.LogEntry.mk (mkTime 2025 3 14 9 26 1 0 0) "no timestamp here ERROR failed"
          "web" "" "default" "ERROR"].
Proof.
  assert (H2 : Forall is_line [Sample.line1; Sample.line2])
    by (repeat constructor).
  split; [exact H2|]. split; [reflexivity|]. split; [reflexivity|].
  exact (proj2 (@readLoop_drops_unterminated_line Sample.library Sample.backend None
                  (Sample.search "" "") [Sample.line1; Sample.line2] "cut off" []
                  Sample.world H2 eq_refl eq_refl)).
Defined.

(** The unbalanced pattern [(] does not compile in the sample library:
    retrieval fails on it, the stream opened and closed unread. *)
Lemma GetLogs_invalid_pattern_witness :
  nonempty "(" = true /\
  @regexp_Compile Sample.library "(" = Err "error parsing regexp: missing closing )" /\
  @logs.GetLogs Sample.library Sample.backend (Sample.search "(" "") Sample.world
  = (Err "invalid regex pattern: error parsing regexp: missing closing )",
     mkWorld [Call_Stream "default" "web" (corev1.PodLogOptions.mk "" None None None false);
              Call_Close] 0).
Proof.
  split; [reflexivity|]. split; [reflexivity|].
  exact (proj2 (proj2 (proj2
           (@GetLogs_invalid_pattern Sample.library Sample.backend (Sample.search "(" "")
              "error parsing regexp: missing closing )" Sample.world eq_refl eq_refl)))).
Defined.

(** ** The dispatcher *)

(** The fields of a command envelope that the table of required fields
    names. *)
Inductive field :=
| resourceType
| name
| payload
| namespace
| logOptions_pod
| logOptions_pattern
| logOptions_format.

(** The table of required fields per command kind. *)
Definition required (kind : string) : list field :=
  if String.eqb kind "list" then [resourceType]
  else if String.eqb kind "get" then [resourceType; name]
  else if String.eqb kind "create" then [resourceType; payload]
  else if String.eqb kind "delete" then [resourceType; name]
  else if String.eqb kind "logs" then [namespace; logOptions_pod]
  else if String.eqb kind "search_logs" then [namespace; logOptions_pod; logOptions_pattern]
  else if String.eqb kind "export_logs" then [namespace; logOptions_pod; logOptions_format]
  else [].

Definition supported (kind : string) : bool :=
  match required kind with [] => false | _ => true end.

Definition logOption (get : mcp.LogOptions.t -> string) (cmd : mcp.Command.t) : string :=
  match mcp.Command.LogOptions cmd with
  | Some lo => get lo
  | None => EmptyString
  end.

(** A field is present when it is set to something other than the zero
    value of its type. *)
Definition present (cmd : mcp.Command.t) (f : field) : bool :=
  match f with
  | resourceType => nonempty (mcp.Command.Resource cmd)
  | name => nonempty (mcp.Command.Name cmd)
  | payload => match mcp.Command.Data cmd with Some _ => true | None => false end
  | namespace => nonempty (mcp.Command.Namespace cmd)
  | logOptions_pod => nonempty (logOption mcp.LogOptions.Pod cmd)
  | logOptions_pattern => nonempty (logOption mcp.LogOptions.Pattern cmd)
  | logOptions_format => nonempty (logOption mcp.LogOptions.Format cmd)
  end.

(** The messages of the validation errors. *)
Definition invalidArgument : list string :=
  ["resource type is required";
   "resource type and name are required";
   "resource type and data are required";
   "namespace and pod are required";
   "search pattern is required";
   "export format is required"].

(** A time that [Time.MarshalJSON] can write: a year of four digits and
    a zone within a day. *)
Definition representable (t : Time) : bool :=
  (0 <=? year t) && (year t <=? 9999) && (Z.abs (zone t) / 60 <? 24).

(** A JSON text says something when it is not empty and is not the text
    [null]. *)
Definition meaningful (raw : string) : bool :=
  nonempty raw && negb (String.eqb raw "null").

(** A response field is meaningfully populated when it is present and
    says something: data that is neither empty nor [null], an error text
    that is not empty. *)
Definition populated_data (resp : mcp.Response.t) : bool :=
  match mcp.Response.Data resp with
  | Some raw => meaningful raw
  | None => false
  end.

Definition populated_error (resp : mcp.Response.t) : bool :=
  nonempty (mcp.Response.Error resp).

Definition exactly_one (resp : mcp.Response.t) : Prop :=
  xorb (populated_data resp) (populated_error resp) = true.

Lemma eqb_empty s : String.eqb s EmptyString = negb (nonempty s).
Proof. destruct s; reflexivity. Qed.

(** The options a log command retrieves with; the [logs] command passes
    neither pattern nor level. *)
Definition retrieval (cmd : mcp.Command.t) (lo : mcp.LogOptions.t) (sinceTime : option Time)
  : logs.LogOptions.t :=
  let filtered := negb (String.eqb (mcp.Command.Type_ cmd) mcp.LogsCommand) in
  logs.LogOptions.mk (mcp.Command.Namespace cmd) (mcp.LogOptions.Pod lo)
    (mcp.LogOptions.Container lo) sinceTime None
    (if 0 <? mcp.LogOptions.Tail lo then Some (mcp.LogOptions.Tail lo) else None)
    (if filtered then mcp.LogOptions.Pattern lo else EmptyString)
    (if filtered then mcp.LogOptions.LogLevel lo else EmptyString).

Section Dispatcher.
Context `{GoLibrary} `{!Backend}.

(** C3: a command of a supported kind that lacks one of the fields the
    table requires for its kind is answered with a validation error, and
    the world is as before: neither the resource client nor the log
    pipeline was called. *)
Theorem HandleCommand_missing_field cmd f w :
  In f (required (mcp.Command.Type_ cmd)) ->
  present cmd f = false ->
  exists msg,
    In msg invalidArgument /\
    mcp.HandleCommand cmd w = (Ok (mcp.Response.mk false EmptyString None msg), w).
Proof.
  intros Hf Hp. unfold mcp.HandleCommand, required in *.
  unfold mcp.ListCommand, mcp.GetCommand, mcp.CreateCommand, mcp.DeleteCommand,
    mcp.LogsCommand, mcp.SearchLogsCommand, mcp.ExportLogsCommand.
  cbv zeta.
  repeat match goal with
  | Hf : In _ (if String.eqb ?a ?b then _ else _) |- _ => destruct (String.eqb a b)
  end.
  all: cbn [In] in Hf.
  all: repeat match goal with
       | Hf : _ \/ _ |- _ => destruct Hf as [Hf|Hf]
       | Hf : False |- _ => destruct Hf
       end.
  all: subst f; cbn [present] in Hp.
  all: unfold mcp.handleListCommand, mcp.handleGetCommand, mcp.handleCreateCommand,
         mcp.handleDeleteCommand, mcp.handleLogsCommand, mcp.handleSearchLogsCommand,
         mcp.handleExportLogsCommand, mcp.podOptions, logOption in *.
  all: repeat rewrite eqb_empty.
  all: repeat match goal with
       | Hp : match ?d with Some _ => _ | None => _ end = _ |- _ =>
           destruct d; try discriminate Hp
       end.
  all: try rewrite Hp.
  all: cbn [negb orb andb]; rewrite ?orb_true_r.
  all: repeat match goal with
       | |- context [if negb (nonempty ?s) then _ else _] =>
           destruct (nonempty s); try discriminate Hp; cbn [negb orb andb]
       | |- context [mcp.Command.LogOptions ?c] =>
           destruct (mcp.Command.LogOptions c); try discriminate Hp
       | |- context [mcp.Command.Data ?c] =>
           destruct (mcp.Command.Data c); try discriminate Hp
       | |- context [String.eqb ?s EmptyString] =>
           rewrite (eqb_empty s); try rewrite Hp; cbn [negb orb andb]
       end.
  all: cbn [negb orb andb].
  all: eexists; split; [|reflexivity]; cbn; tauto.
Qed.

(** *** What a handler can answer *)

(** Entries stamped by the clock. *)
Definition stamped (entries : list logs.LogEntry.t) : Prop :=
  Forall (fun e => exists k, logs.LogEntry.Timestamp e = wallclock k) entries.

Lemma entries_from_stamped opts tick lines : stamped (entries_from opts tick lines).
Proof.
  revert tick; induction lines as [|line lines IH]; intros tick; constructor; [|apply IH].
  exists tick. unfold entry_at. now rewrite parseLogEntry_Timestamp.
Qed.

Lemma stamped_filter p entries : stamped entries -> stamped (List.filter p entries).
Proof.
  unfold stamped. rewrite !List.Forall_forall. intros Hs e He.
  apply List.filter_In in He. apply Hs, He.
Qed.

(** [GetLogs] returns entries stamped by the clock, or an error with a
    message. *)
Lemma GetLogs_outcome opts w :
  match fst (logs.GetLogs opts w) with
  | Ok entries => stamped entries
  | Err err => nonempty err = true
  end.
Proof.
  unfold logs.GetLogs. unfold bind at 1. unfold emit at 1.
  match goal with
  | |- context [pods_GetLogs_Stream ?n ?p ?o] =>
      destruct (pods_GetLogs_Stream n p o) as [[content fin]|serr]
  end; [|reflexivity].
  destruct (content_lines content) as (lines & tail & -> & Hl & Ht).
  destruct (nonempty (logs.LogOptions.Pattern opts)).
  - destruct (regexp_Compile (logs.LogOptions.Pattern opts)) as [re|cerr]; [|reflexivity].
    unfold bind, ret, emit. rewrite (readLoop_lines _ _ _ _ _ _ _ Hl Ht).
    cbn [fst]. destruct fin; [reflexivity|].
    apply stamped_filter, entries_from_stamped.
  - unfold bind, ret, emit. rewrite (readLoop_lines _ _ _ _ _ _ _ Hl Ht).
    cbn [fst]. destruct fin; [reflexivity|].
    apply stamped_filter, entries_from_stamped.
Qed.

Lemma json_Marshal_LogEntry_error entry err :
  logs.json_Marshal_LogEntry entry = Err err -> nonempty err = true.
Proof.
  unfold logs.json_Marshal_LogEntry.
  destruct (time.MarshalJSON _); [discriminate|]. intros [= <-]. reflexivity.
Qed.

Lemma json_elements_error n entries err :
  logs.json_elements n entries = Err err -> nonempty err = true.
Proof.
  revert n; induction entries as [|e entries IH]; intros n; cbn [logs.json_elements];
    [discriminate|].
  destruct (logs.json_Marshal_LogEntry e) eqn:E.
  - destruct (logs.json_elements (S n) entries) eqn:E2; [discriminate|].
    intros [= <-]. eapply IH, E2.
  - intros [= <-]. eapply json_Marshal_LogEntry_error, E.
Qed.

Lemma json_Marshal_LogEntries_error entries err :
  logs.json_Marshal_LogEntries entries = Err err -> nonempty err = true.
Proof.
  unfold logs.json_Marshal_LogEntries. destruct entries as [|e entries]; [discriminate|].
  destruct (logs.json_elements 0 (e :: entries)) eqn:E; [discriminate|].
  intros [= <-]. eapply json_elements_error, E.
Qed.

Lemma exportToNDJSON_error entries err :
  snd (logs.exportToNDJSON entries) = Some err -> nonempty err = true.
Proof.
  induction entries as [|e entries IH]; cbn [logs.exportToNDJSON]; [discriminate|].
  unfold logs.Encode. destruct (logs.json_Marshal_LogEntry e).
  - destruct (logs.exportToNDJSON entries) as [out oerr]. exact IH.
  - intros [= <-]. reflexivity.
Qed.

Lemma exportToPlaintext_no_error entries : snd (logs.exportToPlaintext entries) = None.
Proof.
  induction entries as [|e entries IH]; cbn [logs.exportToPlaintext]; [reflexivity|].
  destruct (logs.exportToPlaintext entries) as [out oerr]. exact IH.
Qed.

(** An export that fails says why. *)
Lemma ExportLogs_error entries format err :
  snd (logs.ExportLogs entries format) = Some err -> nonempty err = true.
Proof.
  unfold logs.ExportLogs.
  destruct (String.eqb _ "json").
  { unfold logs.Encode. destruct (logs.json_Marshal_LogEntries entries) eqn:E;
      [discriminate|]. intros [= <-]. eapply json_Marshal_LogEntries_error, E. }
  destruct (String.eqb _ "csv"); [discriminate|].
  destruct (String.eqb _ "ndjson"); [apply exportToNDJSON_error|].
  destruct (_ || _).
  { rewrite exportToPlaintext_no_error. discriminate. }
  intros [= <-]. reflexivity.
Qed.

Lemma getGroupVersionResource_error resourceType err :
  kubernetes.getGroupVersionResource resourceType = Err err -> nonempty err = true.
Proof.
  unfold kubernetes.getGroupVersionResource.
  destruct (kubernetes.resourceMap !! resourceType); [discriminate|].
  intros [= <-]. reflexivity.
Qed.

Lemma GetResource_error resourceType ns nm w err :
  fst (kubernetes.GetResource resourceType ns nm w) = Err err -> nonempty err = true.
Proof.
  unfold kubernetes.GetResource.
  destruct (kubernetes.getGroupVersionResource resourceType) as [gvr|gerr] eqn:E.
  - unfold bind, emit, ret. destruct (dynamic_Get _ _ _); [discriminate|].
    intros [= <-]. reflexivity.
  - intros [= <-]. eapply getGroupVersionResource_error, E.
Qed.

Lemma ListResources_error resourceType ns w err :
  fst (kubernetes.ListResources resourceType ns w) = Err err -> nonempty err = true.
Proof.
  unfold kubernetes.ListResources.
  destruct (kubernetes.getGroupVersionResource resourceType) as [gvr|gerr] eqn:E.
  - unfold bind, emit, ret. destruct (dynamic_List _ _); [discriminate|].
    intros [= <-]. reflexivity.
  - intros [= <-]. eapply getGroupVersionResource_error, E.
Qed.

Lemma CreateResource_error resourceType ns obj w err :
  fst (kubernetes.CreateResource resourceType ns obj w) = Err err -> nonempty err = true.
Proof.
  unfold kubernetes.CreateResource.
  destruct (kubernetes.getGroupVersionResource resourceType) as [gvr|gerr] eqn:E.
  - unfold bind, emit, ret. destruct (dynamic_Create _ _ _); [discriminate|].
    intros [= <-]. reflexivity.
  - intros [= <-]. eapply getGroupVersionResource_error, E.
Qed.

Lemma DeleteResource_error resourceType ns nm w err :
  fst (kubernetes.DeleteResource resourceType ns nm w) = Some err -> nonempty err = true.
Proof.
  unfold kubernetes.DeleteResource.
  destruct (kubernetes.getGroupVersionResource resourceType) as [gvr|gerr] eqn:E.
  - unfold bind, emit, ret. destruct (dynamic_Delete _ _ _); [|discriminate].
    intros [= <-]. reflexivity.
  - intros [= <-]. eapply getGroupVersionResource_error, E.
Qed.

Lemma parseSince_error since w err :
  fst (mcp.parseSince since w) = Err err -> nonempty err = true.
Proof.
  unfold mcp.parseSince. destruct (nonempty since); [|discriminate].
  destruct (time_ParseDuration since); [discriminate|].
  destruct (time.Parse_RFC3339 since); [discriminate|].
  intros [= <-]. reflexivity.
Qed.

(** The answers of a handler for a command of kind [kind]: an error
    response with a message, or [NewSuccessResponse] of a value that is [nil]
    for a delete and only then, and that is a slice of log entries, stamped
    by the clock, for [logs] and [search_logs] only. *)
Inductive outcome (kind : string) : result mcp.Response.t -> Prop :=
| outcome_error err :
    nonempty err = true -> outcome kind (mcp.NewErrorResponse err)
| outcome_success message d :
    (d = mcp.data_nil <-> kind = mcp.DeleteCommand) ->
    (forall entries, d = mcp.data_LogEntries entries -> stamped entries) ->
    (forall entries, d = mcp.data_LogEntries entries ->
       kind = mcp.LogsCommand \/ kind = mcp.SearchLogsCommand) ->
    outcome kind (mcp.NewSuccessResponse message d).

Ltac outcome_error := apply outcome_error; first [reflexivity | eassumption | eauto].

Ltac outcome_success kind_eq :=
  apply outcome_success;
  [ let K := fresh "K" in
    split; [discriminate
           | intros K; rewrite K in kind_eq; vm_compute in kind_eq; discriminate kind_eq]
  | try (intros ? [= <-]; assumption); try discriminate
  | first [ discriminate
          | intros ? _; left; now apply String.eqb_eq
          | intros ? _; right; now apply String.eqb_eq ] ].

Lemma handleListCommand_outcome cmd w :
  String.eqb (mcp.Command.Type_ cmd) mcp.ListCommand = true ->
  outcome (mcp.Command.Type_ cmd) (fst (mcp.handleListCommand cmd w)).
Proof.
  intros Hk. unfold mcp.handleListCommand.
  destruct (String.eqb _ ""); [outcome_error|].
  unfold bind.
  destruct (kubernetes.ListResources _ _ w) as [[l|err] w'] eqn:E; unfold ret; cbn [fst].
  - outcome_success Hk.
  - outcome_error. eapply ListResources_error. rewrite E. reflexivity.
Qed.

Lemma handleGetCommand_outcome cmd w :
  String.eqb (mcp.Command.Type_ cmd) mcp.GetCommand = true ->
  outcome (mcp.Command.Type_ cmd) (fst (mcp.handleGetCommand cmd w)).
Proof.
  intros Hk. unfold mcp.handleGetCommand.
  destruct (_ || _); [outcome_error|].
  unfold bind.
  destruct (kubernetes.GetResource _ _ _ w) as [[l|err] w'] eqn:E; unfold ret; cbn [fst].
  - outcome_success Hk.
  - outcome_error. eapply GetResource_error. rewrite E. reflexivity.
Qed.

Lemma handleCreateCommand_outcome cmd w :
  String.eqb (mcp.Command.Type_ cmd) mcp.CreateCommand = true ->
  outcome (mcp.Command.Type_ cmd) (fst (mcp.handleCreateCommand cmd w)).
Proof.
  intros Hk. unfold mcp.handleCreateCommand.
  destruct (mcp.Command.Data cmd) as [data|]; [|outcome_error].
  destruct (String.eqb _ ""); [outcome_error|].
  destruct (json_Unmarshal_Object data) as [obj|uerr]; [|outcome_error].
  unfold bind.
  destruct (kubernetes.CreateResource _ _ _ w) as [[l|err] w'] eqn:E; unfold ret; cbn [fst].
  - outcome_success Hk.
  - outcome_error. eapply CreateResource_error. rewrite E. reflexivity.
Qed.

Lemma handleDeleteCommand_outcome cmd w :
  String.eqb (mcp.Command.Type_ cmd) mcp.DeleteCommand = true ->
  outcome (mcp.Command.Type_ cmd) (fst (mcp.handleDeleteCommand cmd w)).
Proof.
  intros Hk. unfold mcp.handleDeleteCommand.
  destruct (_ || _); [outcome_error|].
  unfold bind.
  destruct (kubernetes.DeleteResource _ _ _ w) as [[err|] w'] eqn:E; unfold ret; cbn [fst].
  - outcome_error. eapply DeleteResource_error. rewrite E. reflexivity.
  - apply outcome_success; [|discriminate|discriminate].
    split; [intros _; now apply String.eqb_eq | reflexivity].
Qed.

Ltac run_parseSince w1 :=
  unfold bind at 1;
  match goal with
  | |- context [mcp.parseSince ?s ?w] =>
      let E := fresh "E" in
      let err := fresh "err" in
      destruct (mcp.parseSince s w) as [[?sinceTime|err] w1] eqn:E;
      [| outcome_error; eapply parseSince_error; rewrite E; reflexivity ]
  end.

Ltac run_GetLogs es :=
  unfold bind at 1;
  match goal with
  | |- context [logs.GetLogs ?o ?w] =>
      let E := fresh "E" in
      let err := fresh "err" in
      let Hs := fresh "Hs" in
      pose proof (GetLogs_outcome o w) as Hs;
      destruct (logs.GetLogs o w) as [[es|err] ?w] eqn:E; cbn [fst] in Hs;
      [| unfold ret; cbn [fst]; outcome_error ]
  end.

Lemma handleLogsCommand_outcome cmd w :
  String.eqb (mcp.Command.Type_ cmd) mcp.LogsCommand = true ->
  outcome (mcp.Command.Type_ cmd) (fst (mcp.handleLogsCommand cmd w)).
Proof.
  intros Hk. unfold mcp.handleLogsCommand.
  destruct (mcp.podOptions cmd) as [lo|]; [|outcome_error].
  run_parseSince w1. run_GetLogs es.
  unfold ret; cbn [fst]. outcome_success Hk.
Qed.

Lemma handleSearchLogsCommand_outcome cmd w :
  String.eqb (mcp.Command.Type_ cmd) mcp.SearchLogsCommand = true ->
  outcome (mcp.Command.Type_ cmd) (fst (mcp.handleSearchLogsCommand cmd w)).
Proof.
  intros Hk. unfold mcp.handleSearchLogsCommand.
  destruct (mcp.podOptions cmd) as [lo|]; [|outcome_error].
  destruct (String.eqb _ ""); [outcome_error|].
  run_parseSince w1. run_GetLogs es.
  unfold ret; cbn [fst]. outcome_success Hk.
Qed.

Lemma handleExportLogsCommand_outcome cmd w :
  String.eqb (mcp.Command.Type_ cmd) mcp.ExportLogsCommand = true ->
  outcome (mcp.Command.Type_ cmd) (fst (mcp.handleExportLogsCommand cmd w)).
Proof.
  intros Hk. unfold mcp.handleExportLogsCommand.
  destruct (mcp.podOptions cmd) as [lo|]; [|outcome_error].
  destruct (String.eqb _ ""); [outcome_error|].
  run_parseSince w1. run_GetLogs es.
  destruct (logs.ExportLogs es (mcp.LogOptions.Format lo)) as [buf [xerr|]] eqn:Ex;
    unfold ret; cbn [fst].
  - outcome_error. eapply ExportLogs_error. rewrite Ex. reflexivity.
  - outcome_success Hk.
Qed.

(** Every answer of the dispatcher is of one of these two forms. *)
Lemma HandleCommand_outcome cmd w :
  outcome (mcp.Command.Type_ cmd) (fst (mcp.HandleCommand cmd w)).
Proof.
  unfold mcp.HandleCommand. cbv zeta.
  destruct (String.eqb _ mcp.ListCommand) eqn:E1; [now apply handleListCommand_outcome|].
  destruct (String.eqb _ mcp.GetCommand) eqn:E2; [now apply handleGetCommand_outcome|].
  destruct (String.eqb _ mcp.CreateCommand) eqn:E3; [now apply handleCreateCommand_outcome|].
  destruct (String.eqb _ mcp.DeleteCommand) eqn:E4; [now apply handleDeleteCommand_outcome|].
  destruct (String.eqb _ mcp.LogsCommand) eqn:E5; [now apply handleLogsCommand_outcome|].
  destruct (String.eqb _ mcp.SearchLogsCommand) eqn:E6;
    [now apply handleSearchLogsCommand_outcome|].
  destruct (String.eqb _ mcp.ExportLogsCommand) eqn:E7;
    [now apply handleExportLogsCommand_outcome|].
  outcome_error.
Qed.

Lemma MarshalJSON_representable t :
  representable t = true -> is_Ok (time.MarshalJSON t) = true.
Proof.
  unfold representable, time.MarshalJSON. intros Hr.
  apply andb_prop in Hr as [Hr Hz]. apply andb_prop in Hr as [Hy0 Hy1].
  replace (year t <? 0) with false by lia.
  replace (9999 <? year t) with false by lia.
  replace (24 <=? Z.abs (zone t) / 60) with false by lia.
  reflexivity.
Qed.

Lemma json_Marshal_LogEntries_ok entries :
  (forall k, representable (wallclock k) = true) -> stamped entries ->
  is_Ok (logs.json_Marshal_LogEntries entries) = true.
Proof.
  intros Hclock Hs.
  assert (He : forall n, is_Ok (logs.json_elements n entries) = true).
  { induction Hs as [|e entries (k & Hk) Hs IH]; intros n; [reflexivity|].
    cbn [logs.json_elements]. unfold logs.json_Marshal_LogEntry.
    pose proof (MarshalJSON_representable _ (Hclock k)) as Hm. rewrite <- Hk in Hm.
    destruct (time.MarshalJSON (logs.LogEntry.Timestamp e)); [|discriminate Hm].
    specialize (IH (S n)). destruct (logs.json_elements (S n) entries); [|discriminate IH].
    reflexivity. }
  unfold logs.json_Marshal_LogEntries. destruct entries as [|e entries]; [reflexivity|].
  specialize (He 0%nat). destruct (logs.json_elements 0 (e :: entries)); [|discriminate He].
  reflexivity.
Qed.

Lemma json_Marshal_LogEntries_nonempty entries raw :
  logs.json_Marshal_LogEntries entries = Ok raw -> nonempty raw = true.
Proof.
  unfold logs.json_Marshal_LogEntries. destruct entries as [|e entries].
  - intros [= <-]. reflexivity.
  - destruct (logs.json_elements 0 (e :: entries)); [|discriminate].
    intros [= <-]. reflexivity.
Qed.

Lemma present_podOptions cmd lo :
  mcp.Command.LogOptions cmd = Some lo ->
  present cmd namespace = true -> present cmd logOptions_pod = true ->
  mcp.podOptions cmd = Some lo.
Proof.
  unfold present, logOption, mcp.podOptions. intros -> Hn Hp.
  rewrite !eqb_empty, Hn, Hp. reflexivity.
Qed.

(** *** The operation behind a command

    The dispatcher of the specification routes a command that has passed
    the validation table to one operation of the resource store or of the
    log pipeline: [list], [get], [create] of the decoded payload and
    [delete] for the resource commands; for the log commands the
    retrieval with the options of the command, the pattern and the level
    left out for [logs], followed by the export in the asked format for
    [export_logs].  A [since] or a payload that cannot be read fails the
    operation; a command without payload or without log options does not
    pass the validation, and is refused here as well. *)
Definition operation (cmd : mcp.Command.t) : M (result mcp.data) :=
  let kind := mcp.Command.Type_ cmd in
  if String.eqb kind mcp.ListCommand then
    r <- kubernetes.ListResources (mcp.Command.Resource cmd) (mcp.Command.Namespace cmd) ;;
    ret (match r with
         | Ok resources => Ok (mcp.data_UnstructuredList resources)
         | Err err => Err err
         end)
  else if String.eqb kind mcp.GetCommand then
    r <- kubernetes.GetResource (mcp.Command.Resource cmd) (mcp.Command.Namespace cmd)
           (mcp.Command.Name cmd) ;;
    ret (match r with
         | Ok resource => Ok (mcp.data_Unstructured resource)
         | Err err => Err err
         end)
  else if String.eqb kind mcp.CreateCommand then
    match mcp.Command.Data cmd with
    | None => ret (Err "resource type and data are required")
    | Some document =>
        match json_Unmarshal_Object document with
        | Err err => ret (Err ("invalid resource data: " +:+ err))
        | Ok obj =>
            r <- kubernetes.CreateResource (mcp.Command.Resource cmd)
                   (mcp.Command.Namespace cmd) obj ;;
            ret (match r with
                 | Ok created => Ok (mcp.data_Unstructured created)
                 | Err err => Err err
                 end)
        end
    end
  else if String.eqb kind mcp.DeleteCommand then
    r <- kubernetes.DeleteResource (mcp.Command.Resource cmd) (mcp.Command.Namespace cmd)
           (mcp.Command.Name cmd) ;;
    ret (match r with
         | Some err => Err err
         | None => Ok mcp.data_nil
         end)
  else
    match mcp.Command.LogOptions cmd with
    | None => ret (Err "namespace and pod are required")
    | Some lo =>
        since <- mcp.parseSince (mcp.LogOptions.Since lo) ;;
        match since with
        | Err err => ret (Err err)
        | Ok sinceTime =>
            r <- logs.GetLogs (retrieval cmd lo sinceTime) ;;
            match r with
            | Err err => ret (Err err)
            | Ok logEntries =>
                if String.eqb kind mcp.ExportLogsCommand then
                  match logs.ExportLogs logEntries (mcp.LogOptions.Format lo) with
                  | (_, Some err) => ret (Err err)
                  | (buf, None) => ret (Ok (mcp.data_exported buf))
                  end
                else ret (Ok (mcp.data_LogEntries logEntries))
            end
        end
    end.

(** The response that wraps what an operation returned: for a result,
    a success without error text whose data is the JSON text of the
    result, and no data when the operation returns nothing; for a failure,
    the response that has the message as its error text and nothing
    else. *)
Definition wraps (resp : mcp.Response.t) (r : result mcp.data) : Prop :=
  match r with
  | Ok d =>
      mcp.Response.Success resp = true /\ mcp.Response.Error resp = EmptyString /\
      match d with
      | mcp.data_nil => mcp.Response.Data resp = None
      | _ => exists text, mcp.json_Marshal d = Ok text /\ mcp.Response.Data resp = Some text
      end
  | Err err => resp = mcp.Response.mk false EmptyString None err
  end.

Lemma wraps_failure err : wraps (mcp.Response.mk false EmptyString None err) (Err err).
Proof. reflexivity. Qed.

Lemma wraps_LogEntries message entries :
  (forall k, representable (wallclock k) = true) -> stamped entries ->
  exists resp,
    mcp.NewSuccessResponse message (mcp.data_LogEntries entries) = Ok resp /\
    wraps resp (Ok (mcp.data_LogEntries entries)).
Proof.
  intros Hclock Hs. unfold mcp.NewSuccessResponse. cbn [mcp.json_Marshal].
  pose proof (json_Marshal_LogEntries_ok entries Hclock Hs) as Hok.
  destruct (logs.json_Marshal_LogEntries entries) as [text|] eqn:E; [|discriminate Hok].
  eexists. split; [reflexivity|]. cbn. repeat split.
  exists text. now rewrite E.
Qed.

(** A command that has the fields of its kind is routed to its
    operation, and answered with the response that wraps what the
    operation returned. *)
Lemma HandleCommand_operation cmd w :
  (forall k, representable (wallclock k) = true) ->
  supported (mcp.Command.Type_ cmd) = true ->
  (forall f, In f (required (mcp.Command.Type_ cmd)) -> present cmd f = true) ->
  exists resp,
    mcp.HandleCommand cmd w = (Ok resp, snd (operation cmd w)) /\
    wraps resp (fst (operation cmd w)).
Proof.
  intros Hclock Hsup Hreq.
  unfold supported, required in Hsup, Hreq.
  unfold operation, mcp.HandleCommand. cbv zeta.
  unfold mcp.ListCommand, mcp.GetCommand, mcp.CreateCommand, mcp.DeleteCommand,
    mcp.SearchLogsCommand, mcp.ExportLogsCommand.
  destruct (String.eqb (mcp.Command.Type_ cmd) "list") eqn:E1.
  { pose proof (Hreq resourceType ltac:(cbn; tauto)) as Hr. cbn [present] in Hr.
    unfold mcp.handleListCommand. rewrite eqb_empty, Hr. cbn [negb].
    unfold bind, ret.
    destruct (kubernetes.ListResources _ _ w) as [[l|err] w']; cbn [fst snd].
    - eexists. split; [reflexivity|]. cbn. repeat split. now eexists.
    - eexists. split; [reflexivity | apply wraps_failure]. }
  destruct (String.eqb (mcp.Command.Type_ cmd) "get") eqn:E2.
  { pose proof (Hreq resourceType ltac:(cbn; tauto)) as Hr. cbn [present] in Hr.
    pose proof (Hreq name ltac:(cbn; tauto)) as Hn. cbn [present] in Hn.
    unfold mcp.handleGetCommand. rewrite !eqb_empty, Hr, Hn. cbn [negb orb].
    unfold bind, ret.
    destruct (kubernetes.GetResource _ _ _ w) as [[u|err] w']; cbn [fst snd].
    - eexists. split; [reflexivity|]. cbn. repeat split. now eexists.
    - eexists. split; [reflexivity | apply wraps_failure]. }
  destruct (String.eqb (mcp.Command.Type_ cmd) "create") eqn:E3.
  { pose proof (Hreq resourceType ltac:(cbn; tauto)) as Hr. cbn [present] in Hr.
    pose proof (Hreq payload ltac:(cbn; tauto)) as Hp. cbn [present] in Hp.
    unfold mcp.handleCreateCommand.
    destruct (mcp.Command.Data cmd) as [data|]; [|discriminate Hp].
    rewrite eqb_empty, Hr. cbn [negb].
    destruct (json_Unmarshal_Object data) as [obj|uerr].
    2: { eexists. split; [reflexivity | apply wraps_failure]. }
    unfold bind, ret.
    destruct (kubernetes.CreateResource _ _ _ w) as [[u|err] w']; cbn [fst snd].
    - eexists. split; [reflexivity|]. cbn. repeat split. now eexists.
    - eexists. split; [reflexivity | apply wraps_failure]. }
  destruct (String.eqb (mcp.Command.Type_ cmd) "delete") eqn:E4.
  { pose proof (Hreq resourceType ltac:(cbn; tauto)) as Hr. cbn [present] in Hr.
    pose proof (Hreq name ltac:(cbn; tauto)) as Hn. cbn [present] in Hn.
    unfold mcp.handleDeleteCommand. rewrite !eqb_empty, Hr, Hn. cbn [negb orb].
    unfold bind, ret.
    destruct (kubernetes.DeleteResource _ _ _ w) as [[err|] w']; cbn [fst snd].
    - eexists. split; [reflexivity | apply wraps_failure].
    - eexists. split; [reflexivity|]. cbn. now repeat split. }
  assert (Hpod : present cmd namespace = true /\ present cmd logOptions_pod = true).
  { destruct (String.eqb _ "logs"); [split; apply Hreq; cbn; tauto|].
    destruct (String.eqb _ "search_logs"); [split; apply Hreq; cbn; tauto|].
    destruct (String.eqb _ "export_logs"); [split; apply Hreq; cbn; tauto|].
    discriminate Hsup. }
  destruct Hpod as [Hns Hpod].
  destruct (mcp.Command.LogOptions cmd) as [lo|] eqn:Hlo.
  2: { unfold present, logOption in Hpod. rewrite Hlo in Hpod. discriminate Hpod. }
  pose proof (present_podOptions cmd lo Hlo Hns Hpod) as Hopts.
  unfold retrieval, mcp.LogsCommand.
  destruct (String.eqb (mcp.Command.Type_ cmd) "logs") eqn:E5.
  { assert (E7 : String.eqb (mcp.Command.Type_ cmd) "export_logs" = false).
    { apply String.eqb_eq in E5. now rewrite E5. }
    rewrite E7. cbn [negb].
    unfold mcp.handleLogsCommand. rewrite Hopts.
    unfold mcp.parseTail, bind, ret.
    destruct (mcp.parseSince _ w) as [[sinceTime|serr] w1].
    2: { eexists. split; [reflexivity | apply wraps_failure]. }
    pose proof (GetLogs_outcome
                  (logs.LogOptions.mk (mcp.Command.Namespace cmd) (mcp.LogOptions.Pod lo)
                     (mcp.LogOptions.Container lo) sinceTime None
                     (if 0 <? mcp.LogOptions.Tail lo then Some (mcp.LogOptions.Tail lo)
                      else None) EmptyString EmptyString) w1) as Hs.
    destruct (logs.GetLogs _ w1) as [[es|err] w2]; cbn [fst snd] in *.
    2: { eexists. split; [reflexivity | apply wraps_failure]. }
    destruct (wraps_LogEntries
                ("Successfully retrieved logs from pod '" +:+ mcp.LogOptions.Pod lo +:+ "'")
                es Hclock Hs) as (resp & -> & Hw).
    now exists resp. }
  cbn [negb].
  destruct (String.eqb (mcp.Command.Type_ cmd) "search_logs") eqn:E6.
  { assert (E7 : String.eqb (mcp.Command.Type_ cmd) "export_logs" = false).
    { apply String.eqb_eq in E6. now rewrite E6. }
    rewrite E7.
    pose proof (Hreq logOptions_pattern ltac:(cbn; tauto)) as Hpat.
    unfold present, logOption in Hpat. rewrite Hlo in Hpat.
    unfold mcp.handleSearchLogsCommand. rewrite Hopts, eqb_empty, Hpat. cbn [negb].
    unfold mcp.parseTail, bind, ret.
    destruct (mcp.parseSince _ w) as [[sinceTime|serr] w1].
    2: { eexists. split; [reflexivity | apply wraps_failure]. }
    pose proof (GetLogs_outcome
                  (logs.LogOptions.mk (mcp.Command.Namespace cmd) (mcp.LogOptions.Pod lo)
                     (mcp.LogOptions.Container lo) sinceTime None
                     (if 0 <? mcp.LogOptions.Tail lo then Some (mcp.LogOptions.Tail lo)
                      else None) (mcp.LogOptions.Pattern lo) (mcp.LogOptions.LogLevel lo))
                  w1) as Hs.
    destruct (logs.GetLogs _ w1) as [[es|err] w2]; cbn [fst snd] in *.
    2: { eexists. split; [reflexivity | apply wraps_failure]. }
    destruct (wraps_LogEntries
                ("Successfully searched logs from pod '" +:+ mcp.LogOptions.Pod lo +:+ "'")
                es Hclock Hs) as (resp & -> & Hw).
    now exists resp. }
  destruct (String.eqb (mcp.Command.Type_ cmd) "export_logs") eqn:E7; [|discriminate Hsup].
  pose proof (Hreq logOptions_format ltac:(cbn; tauto)) as Hfmt.
  unfold present, logOption in Hfmt. rewrite Hlo in Hfmt.
  unfold mcp.handleExportLogsCommand. rewrite Hopts, eqb_empty, Hfmt. cbn [negb].
  unfold mcp.parseTail, bind, ret.
  destruct (mcp.parseSince _ w) as [[sinceTime|serr] w1].
  2: { eexists. split; [reflexivity | apply wraps_failure]. }
  destruct (logs.GetLogs _ w1) as [[es|err] w2]; cbn [fst snd] in *.
  2: { eexists. split; [reflexivity | apply wraps_failure]. }
  destruct (logs.ExportLogs es (mcp.LogOptions.Format lo)) as [buf [xerr|]]; cbn [fst snd].
  - eexists. split; [reflexivity | apply wraps_failure].
  - eexists. split; [reflexivity|]. cbn. repeat split. now eexists.
Qed.

(** C9: the dispatcher answers every command with a response envelope
    (the clock showing times that JSON can carry): a success has no error
    text, a failure has one and no data.  A kind that is none of the seven
    is answered, without any call, by the failure that names it.  A command
    of one of the seven kinds that has the fields of its kind is answered
    with what its operation returned, wrapped: a result as the data of a
    success, a failure as the error text of a failure; and the calls made
    are those of the operation. *)
Theorem HandleCommand_always_responds cmd w :
  (forall k, representable (wallclock k) = true) ->
  (exists resp,
     fst (mcp.HandleCommand cmd w) = Ok resp /\
     (mcp.Response.Success resp = true -> mcp.Response.Error resp = EmptyString) /\
     (mcp.Response.Success resp = false ->
      nonempty (mcp.Response.Error resp) = true /\ mcp.Response.Data resp = None)) /\
  (supported (mcp.Command.Type_ cmd) = false ->
   mcp.HandleCommand cmd w
   = (Ok (mcp.Response.mk false EmptyString None
            ("unsupported command type: " +:+ mcp.Command.Type_ cmd)), w)) /\
  (supported (mcp.Command.Type_ cmd) = true ->
   (forall f, In f (required (mcp.Command.Type_ cmd)) -> present cmd f = true) ->
   exists resp,
     mcp.HandleCommand cmd w = (Ok resp, snd (operation cmd w)) /\
     wraps resp (fst (operation cmd w))).
Proof.
  intros Hclock. split; [|split].
  - destruct (HandleCommand_outcome cmd w) as [err Herr | message d Hnil Hentries Hkind].
    + eexists. split; [reflexivity|]. cbn. split; [discriminate|]. intros _; now split.
    + unfold mcp.NewSuccessResponse.
      destruct d as [|u|l|entries|exported]; cbn [mcp.json_Marshal].
      1-3, 5: eexists; (split; [reflexivity|]); cbn; split; [reflexivity | discriminate].
      pose proof (json_Marshal_LogEntries_ok entries Hclock (Hentries _ eq_refl)) as Hok.
      destruct (logs.json_Marshal_LogEntries entries); [|discriminate Hok].
      eexists; (split; [reflexivity|]); cbn; split; [reflexivity | discriminate].
  - unfold supported, required, mcp.HandleCommand. cbv zeta.
    unfold mcp.ListCommand, mcp.GetCommand, mcp.CreateCommand, mcp.DeleteCommand,
      mcp.LogsCommand, mcp.SearchLogsCommand, mcp.ExportLogsCommand.
    repeat match goal with
    | |- context [String.eqb ?a ?b] => destruct (String.eqb a b); try discriminate
    end.
    reflexivity.
  - now apply HandleCommand_operation.
Qed.

Lemma json_Marshal_LogEntries_meaningful e entries raw :
  logs.json_Marshal_LogEntries (e :: entries) = Ok raw -> meaningful raw = true.
Proof.
  unfold logs.json_Marshal_LogEntries.
  destruct (logs.json_elements 0 (e :: entries)); [|discriminate].
  intros [= <-]. rewrite append_cons. reflexivity.
Qed.

(** C2, as the code has it: in every response of the dispatcher a
    failure carries an error text and no data, and a success carries no
    error text and carries data that says something, with two exceptions:
    the success of a delete carries no data, and the success of [logs] or
    [search_logs] can carry the JSON text [null], which is how the slice of
    a retrieval that kept no entry is written (the documents of the backend
    encoding to something other than [null], as JSON objects do). *)
Theorem Response_invariant cmd w resp :
  (forall u, meaningful (json_Marshal_Unstructured u) = true) ->
  (forall l, meaningful (json_Marshal_UnstructuredList l) = true) ->
  fst (mcp.HandleCommand cmd w) = Ok resp ->
  (mcp.Response.Success resp = false ->
   populated_error resp = true /\ mcp.Response.Data resp = None) /\
  (mcp.Response.Success resp = true ->
   populated_error resp = false /\
   (mcp.Command.Type_ cmd = mcp.DeleteCommand -> mcp.Response.Data resp = None) /\
   (populated_data resp = true \/
    (mcp.Command.Type_ cmd = mcp.DeleteCommand /\ mcp.Response.Data resp = None) \/
    ((mcp.Command.Type_ cmd = mcp.LogsCommand \/
      mcp.Command.Type_ cmd = mcp.SearchLogsCommand) /\
     mcp.Response.Data resp = Some "null"))) /\
  (exactly_one resp \/
   (mcp.Response.Success resp = true /\ populated_error resp = false /\
    populated_data resp = false /\
    ((mcp.Command.Type_ cmd = mcp.DeleteCommand /\ mcp.Response.Data resp = None) \/
     ((mcp.Command.Type_ cmd = mcp.LogsCommand \/
       mcp.Command.Type_ cmd = mcp.SearchLogsCommand) /\
      mcp.Response.Data resp = Some "null")))).
Proof.
  intros Hu Hl Hresp.
  destruct (HandleCommand_outcome cmd w) as [err Herr | message d Hnil Hentries Hkind].
  - injection Hresp as <-. unfold exactly_one, populated_error, populated_data; cbn.
    rewrite Herr. split; [now split|]. split; [discriminate|]. now left.
  - unfold mcp.NewSuccessResponse in Hresp.
    assert (Hd : match d with
                 | mcp.data_nil => mcp.Command.Type_ cmd = mcp.DeleteCommand
                 | _ => mcp.Command.Type_ cmd <> mcp.DeleteCommand
                 end).
    { destruct d; try (intros Hk; apply Hnil in Hk; discriminate Hk).
      now apply Hnil. }
    destruct d as [|u|l|entries|exported]; cbn [mcp.json_Marshal] in Hresp.
    + injection Hresp as <-. unfold exactly_one, populated_error, populated_data; cbn.
      split; [discriminate|]. split.
      * intros _. split; [reflexivity|]. split; [reflexivity|]. right. left. now split.
      * right. repeat split. left. now split.
    + injection Hresp as <-. unfold exactly_one, populated_error, populated_data; cbn.
      rewrite Hu. split; [discriminate|]. split.
      * intros _. split; [reflexivity|]. split; [intros Hk; now apply Hd in Hk|]. now left.
      * now left.
    + injection Hresp as <-. unfold exactly_one, populated_error, populated_data; cbn.
      rewrite Hl. split; [discriminate|]. split.
      * intros _. split; [reflexivity|]. split; [intros Hk; now apply Hd in Hk|]. now left.
      * now left.
    + specialize (Hkind entries eq_refl).
      destruct (logs.json_Marshal_LogEntries entries) as [raw|] eqn:E; [|discriminate].
      injection Hresp as <-. unfold exactly_one, populated_error, populated_data; cbn.
      split; [discriminate|].
      destruct entries as [|e entries].
      * injection E as <-. split.
        { intros _. split; [reflexivity|]. split; [intros Hk; now apply Hd in Hk|].
          right. right. now split. }
        right. repeat split. right. now split.
      * apply json_Marshal_LogEntries_meaningful in E. rewrite E. split.
        { intros _. split; [reflexivity|]. split; [intros Hk; now apply Hd in Hk|].
          now left. }
        now left.
    + injection Hresp as <-. unfold exactly_one, populated_error, populated_data; cbn.
      unfold logs.field. rewrite !append_cons.
      split; [discriminate|]. split.
      * intros _. split; [reflexivity|]. split; [intros Hk; now apply Hd in Hk|]. now left.
      * now left.
Qed.

End Dispatcher.

(** A search without pattern is refused before anything is called. *)
Lemma HandleCommand_missing_field_witness :
  In logOptions_pattern (required "search_logs") /\
  present Sample.search_without_pattern logOptions_pattern = false /\
  exists msg,
    In msg invalidArgument /\
    @mcp.HandleCommand Sample.library Sample.backend Sample.search_without_pattern
      Sample.world
    = (Ok (mcp.Response.mk false EmptyString None msg), Sample.world).
Proof.
  assert (H1 : In logOptions_pattern (required "search_logs")) by (cbn; tauto).
  split; [exact H1|]. split; [reflexivity|].
  exact (@HandleCommand_missing_field Sample.library Sample.backend
           Sample.search_without_pattern logOptions_pattern Sample.world H1 eq_refl).
Defined.

(** The sample clock shows the year 2025.  [restart] is no command
    kind; the get of the pod [web] is answered, after the one call of the
    resource client, with the success whose data is the document. *)
Lemma HandleCommand_always_responds_witness :
  (forall k, representable (@wallclock Sample.library Sample.backend k) = true) /\
  supported "restart" = false /\
  @mcp.HandleCommand Sample.library Sample.backend Sample.restart_web Sample.world
  = (Ok (mcp.Response.mk false EmptyString None "unsupported command type: restart"),
     Sample.world) /\
  supported "get" = true /\
  (forall f, In f (required "get") ->
             present (mcp.Command.mk "get" "pods" "web" "default" None None) f = true) /\
  @operation Sample.library Sample.backend
    (mcp.Command.mk "get" "pods" "web" "default" None None) Sample.world
  = (Ok (@mcp.data_Unstructured Sample.library tt),
     mkWorld [Call_Get (schema.mkGVR "" "v1" "pods") (Some "default") "web"] 0) /\
  exists resp,
    @mcp.HandleCommand Sample.library Sample.backend
      (mcp.Command.mk "get" "pods" "web" "default" None None) Sample.world
    = (Ok resp, mkWorld [Call_Get (schema.mkGVR "" "v1" "pods") (Some "default") "web"] 0) /\
    mcp.Response.Success resp = true /\ mcp.Response.Error resp = EmptyString /\
    mcp.Response.Data resp = Some "{}".
Proof.
  assert (H1 : forall k, representable (@wallclock Sample.library Sample.backend k) = true)
    by (intros k; reflexivity).
  assert (H2 : forall f, In f (required "get") ->
            present (mcp.Command.mk "get" "pods" "web" "default" None None) f = true).
  { intros f [<-|[<-|[]]]; reflexivity. }
  split; [exact H1|]. split; [reflexivity|].
  split.
  { exact (proj1 (proj2 (@HandleCommand_always_responds Sample.library Sample.backend
                           Sample.restart_web Sample.world H1)) eq_refl). }
  split; [reflexivity|]. split; [exact H2|]. split; [reflexivity|].
  destruct (proj2 (proj2 (@HandleCommand_always_responds Sample.library Sample.backend
                            (mcp.Command.mk "get" "pods" "web" "default" None None)
                            Sample.world H1)) eq_refl H2)
    as (resp & Hrun & Hs & He & text & Ht & Hd).
  exists resp. split; [exact Hrun|]. split; [exact Hs|]. split; [exact He|].
  injection Ht as <-. exact Hd.
Defined.

(** C2 as stated fails on a delete that succeeds: its response has
    neither data nor an error text. *)
Lemma Response_exactly_one_counterexample :
  fst (@mcp.HandleCommand Sample.library Sample.backend Sample.delete_web Sample.world)
  = Ok (mcp.Response.mk true "Successfully deleted pods 'web'" None EmptyString) /\
  ~ exactly_one (mcp.Response.mk true "Successfully deleted pods 'web'" None EmptyString).
Proof. split; [reflexivity|]. unfold exactly_one; cbn. discriminate. Qed.

(** ** CSV export *)

(** The reader that the specification reads the export back with is not
    part of the repository.  This one reads the format of RFC 4180: records
    end at a line feed (a carriage return before it is dropped), fields are
    separated by commas, a field that starts with a quote runs to its
    closing quote with doubled quotes standing for one, and empty lines are
    skipped. *)
Module rfc4180.

Inductive state :=
| FieldStart
| Unquoted
| Quoted
| QuoteSeen
| QuoteCR.

Definition snoc (s : string) (c : ascii) : string := s +:+ String c EmptyString.

(** A field without the carriage return that ends its line. *)
Fixpoint chomp (s : string) : string :=
  match s with
  | EmptyString => EmptyString
  | String c EmptyString => if byte_val c =? 13 then EmptyString else s
  | String c s' => String c (chomp s')
  end.

(** [fld] is the field being read, [rec] the fields of the record before
    it and [recs] the records before that, both latest first. *)
Fixpoint read (st : state) (fld : string) (rec : list string) (recs : list (list string))
    (s : string) : option (list (list string)) :=
  match s with
  | EmptyString =>
      match st with
      | Quoted => None
      | FieldStart =>
          match rec with
          | [] => Some (rev recs)
          | _ => Some (rev (rev (fld :: rec) :: recs))
          end
      | _ => Some (rev (rev (fld :: rec) :: recs))
      end
  | String c s' =>
      let b := byte_val c in
      match st with
      | FieldStart =>
          if b =? 34 then read Quoted EmptyString rec recs s'
          else if b =? 44 then read FieldStart EmptyString (EmptyString :: rec) recs s'
          else if b =? 10 then
            match rec with
            | [] => read FieldStart EmptyString [] recs s'
            | _ => read FieldStart EmptyString [] (rev (EmptyString :: rec) :: recs) s'
            end
          else read Unquoted (String c EmptyString) rec recs s'
      | Unquoted =>
          if b =? 34 then None
          else if b =? 44 then read FieldStart EmptyString (fld :: rec) recs s'
          else if b =? 10 then
            match chomp fld, rec with
            | EmptyString, [] => read FieldStart EmptyString [] recs s'
            | f, _ => read FieldStart EmptyString [] (rev (f :: rec) :: recs) s'
            end
          else read Unquoted (snoc fld c) rec recs s'
      | Quoted =>
          if b =? 34 then read QuoteSeen fld rec recs s'
          else read Quoted (snoc fld c) rec recs s'
      | QuoteSeen =>
          if b =? 34 then read Quoted (snoc fld c) rec recs s'
          else if b =? 44 then read FieldStart EmptyString (fld :: rec) recs s'
          else if b =? 10 then read FieldStart EmptyString [] (rev (fld :: rec) :: recs) s'
          else if b =? 13 then read QuoteCR fld rec recs s'
          else None
      | QuoteCR =>
          if b =? 10 then read FieldStart EmptyString [] (rev (fld :: rec) :: recs) s'
          else None
      end
  end.

Definition ReadAll (s : string) : option (list (list string)) :=
  read FieldStart EmptyString [] [] s.

End rfc4180.

(** The record that [exportToCSV] writes for an entry. *)
Definition csv_record (entry : logs.LogEntry.t) : list string :=
  [time.Format_RFC3339 (logs.LogEntry.Timestamp entry);
   logs.LogEntry.Pod entry;
   logs.LogEntry.Container entry;
   logs.LogEntry.Namespace entry;
   logs.LogEntry.LogLevel entry;
   logs.LogEntry.Message entry].

Definition csv_header : list string :=
  ["Timestamp"; "Pod"; "Container"; "Namespace"; "Level"; "Message"].

Lemma byte_val_inj c d : byte_val c = byte_val d -> c = d.
Proof.
  unfold byte_val. intros Hcd. apply N2Z.inj in Hcd.
  rewrite <- (ascii_N_embedding c), <- (ascii_N_embedding d). now rewrite Hcd.
Qed.

Lemma byte_val_eqb c d : (byte_val c =? byte_val d) = true -> c = d.
Proof. intros Hcd. apply byte_val_inj. lia. Qed.

Section ReadBack.
Import rfc4180.

Lemma read_quoted_body f : forall fld rec recs k,
  read Quoted fld rec recs (csv.quoteBody f +:+ String dquote k)
  = read QuoteSeen (fld +:+ f) rec recs k.
Proof.
  induction f as [|c f IH]; intros fld rec recs k.
  - rewrite append_empty_r. reflexivity.
  - cbn [csv.quoteBody]. destruct (byte_val c =? 34) eqn:Ec.
    + apply (byte_val_eqb c dquote) in Ec. subst c.
      change (read Quoted (snoc fld dquote) rec recs
                (csv.quoteBody f +:+ String dquote k)
              = read QuoteSeen (fld +:+ String dquote f) rec recs k).
      rewrite IH. unfold snoc. rewrite append_assoc. reflexivity.
    + rewrite append_cons. cbn [read]. rewrite Ec. rewrite IH.
      unfold snoc. rewrite append_assoc. reflexivity.
Qed.

(** A byte that an unquoted field may hold. *)
Definition plain (c : ascii) : bool :=
  let b := byte_val c in
  negb ((b =? 10) || (b =? 13) || (b =? 34) || (b =? 44)).

Lemma read_unquoted_run f : forall fld rec recs k,
  string_forallb plain f = true ->
  read Unquoted fld rec recs (f +:+ k) = read Unquoted (fld +:+ f) rec recs k.
Proof.
  induction f as [|c f IH]; intros fld rec recs k Hf.
  - rewrite append_empty_r. reflexivity.
  - cbn [string_forallb] in Hf. apply andb_prop in Hf as [Hc Hf].
    unfold plain in Hc. rewrite append_cons. cbn [read].
    destruct (byte_val c =? 34); [rewrite !orb_true_r in Hc; discriminate|].
    destruct (byte_val c =? 44); [rewrite !orb_true_r in Hc; discriminate|].
    destruct (byte_val c =? 10); [discriminate|].
    rewrite (IH _ _ _ _ Hf). unfold snoc. rewrite append_assoc. reflexivity.
Qed.

Lemma chomp_plain f : string_forallb plain f = true -> chomp f = f.
Proof.
  induction f as [|c f IH]; [reflexivity|].
  cbn [string_forallb]. intros Hf. apply andb_prop in Hf as [Hc Hf].
  cbn [chomp]. destruct f as [|d f].
  - unfold plain in Hc. destruct (byte_val c =? 13); [|reflexivity].
    rewrite orb_true_r in Hc. discriminate.
  - now rewrite (IH Hf).
Qed.

(** A field that the writer leaves bare holds plain bytes only. *)
Lemma bare_field_plain f :
  csv.fieldNeedsQuotes f = false -> string_forallb plain f = true.
Proof.
  unfold csv.fieldNeedsQuotes. destruct f as [|c f]; [reflexivity|].
  destruct (String.eqb _ _); [discriminate|].
  destruct (string_existsb _ (String c f)) eqn:E; [discriminate|]. intros _.
  revert E. generalize (String c f). clear. intros s.
  induction s as [|c s IH]; [reflexivity|].
  cbn [string_existsb string_forallb]. intros E.
  apply orb_false_elim in E as [Ec Es]. rewrite (IH Es), andb_true_r.
  unfold plain. cbv zeta in Ec.
  destruct (byte_val c =? 10), (byte_val c =? 13), (byte_val c =? 34), (byte_val c =? 44);
    try discriminate Ec; reflexivity.
Qed.

(** What the reader has after a field that the writer wrote, at the
    comma and at the end of the line. *)
Lemma read_field f rec recs k :
  read FieldStart EmptyString rec recs (csv.writeField f +:+ String "," k)
  = read FieldStart EmptyString (f :: rec) recs k /\
  (rec <> [] \/ f <> EmptyString ->
   read FieldStart EmptyString rec recs (csv.writeField f +:+ String newline k)
   = read FieldStart EmptyString [] (rev (f :: rec) :: recs) k).
Proof.
  unfold csv.writeField. destruct (csv.fieldNeedsQuotes f) eqn:Eq.
  - unfold quoted.
    assert (Hq : forall k',
              read FieldStart EmptyString rec recs
                (String dquote (csv.quoteBody f +:+ String dquote EmptyString) +:+ k')
              = read QuoteSeen f rec recs k').
    { intros k'. rewrite append_cons, append_assoc.
      change (read Quoted EmptyString rec recs
                (csv.quoteBody f +:+ String dquote k') = read QuoteSeen f rec recs k').
      now rewrite read_quoted_body. }
    rewrite !Hq. split; [reflexivity|]. intros _. reflexivity.
  - pose proof (bare_field_plain f Eq) as Hp.
    destruct f as [|c f].
    + split; [reflexivity|]. intros [Hr|Hf]; [|congruence].
      destruct rec; [congruence|]. reflexivity.
    + cbn [string_forallb] in Hp. apply andb_prop in Hp as [Hc Hp].
      assert (Hu : forall k',
                read FieldStart EmptyString rec recs (String c f +:+ k')
                = read Unquoted (String c f) rec recs k').
      { intros k'. rewrite append_cons. cbn [read]. unfold plain in Hc.
        destruct (byte_val c =? 34); [rewrite !orb_true_r in Hc; discriminate|].
        destruct (byte_val c =? 44); [rewrite !orb_true_r in Hc; discriminate|].
        destruct (byte_val c =? 10); [discriminate|].
        now rewrite (read_unquoted_run f _ _ _ _ Hp). }
      rewrite !Hu. split; [reflexivity|]. intros _.
      cbn [read]. change (byte_val newline =? 34) with false.
      change (byte_val newline =? 44) with false.
      change (byte_val newline =? 10) with true. cbv iota.
      rewrite (chomp_plain (String c f)); [reflexivity|].
      cbn [string_forallb]. now rewrite Hc, Hp.
Qed.

Lemma read_fields fs : forall f rec recs n k,
  (rec <> [] \/ fs <> [] \/ f <> EmptyString) ->
  read FieldStart EmptyString rec recs
    (csv.writeField f +:+ csv.writeFields (S n) fs +:+ String newline k)
  = read FieldStart EmptyString [] (rev (rev fs ++ f :: rec) :: recs) k.
Proof.
  induction fs as [|g fs IH]; intros f rec recs n k Hne.
  - cbn [csv.writeFields rev app]. rewrite append_nil.
    apply (read_field f rec recs k). destruct Hne as [|[|]]; [now left | congruence | now right].
  - cbn [csv.writeFields]. change (0 <? S n)%nat with true. cbv iota.
    rewrite !append_assoc. change ("," +:+ ?x) with (String "," x).
    rewrite (proj1 (read_field f rec recs _)).
    rewrite (IH g (f :: rec) recs (S n) k) by (left; discriminate).
    cbn [rev]. rewrite <- app_assoc. reflexivity.
Qed.

Lemma read_record f g fs recs k :
  read FieldStart EmptyString [] recs (csv.Write (f :: g :: fs) +:+ k)
  = read FieldStart EmptyString [] ((f :: g :: fs) :: recs) k.
Proof.
  unfold csv.Write.
  change (csv.writeFields 0 (f :: g :: fs))
    with (EmptyString +:+ csv.writeField f +:+ csv.writeFields 1 (g :: fs)).
  rewrite append_nil, !append_assoc, append_cons, append_nil.
  rewrite (read_fields (g :: fs) f [] recs 0 k) by (right; left; discriminate).
  rewrite rev_app_distr, rev_involutive. reflexivity.
Qed.

Lemma read_rows entries : forall recs k,
  read FieldStart EmptyString [] recs (logs.exportToCSV_rows entries +:+ k)
  = read FieldStart EmptyString [] (rev (map csv_record entries) ++ recs) k.
Proof.
  induction entries as [|e entries IH]; intros recs k; [reflexivity|].
  cbn [logs.exportToCSV_rows]. rewrite append_assoc.
  change (csv.Write _) with (csv.Write (csv_record e)).
  unfold csv_record at 1. rewrite read_record. rewrite IH.
  cbn [map rev]. rewrite <- app_assoc. reflexivity.
Qed.

End ReadBack.

Lemma exportToCSV_rows_unlines entries :
  logs.exportToCSV_rows entries
  = unlines (map (fun entry => csv.Write (csv_record entry)) entries).
Proof.
  induction entries as [|e entries IH]; [reflexivity|].
  cbn [logs.exportToCSV_rows map unlines fold_right]. now rewrite IH.
Qed.

(** C6: [exportToCSV] writes the header line
    [Timestamp,Pod,Container,Namespace,Level,Message], then one line per
    entry in order, whose first field is the timestamp in RFC 3339 and
    whose fields are quoted where they hold a comma, a quote or a line
    break; a reader of RFC 4180 gets the header and every entry's fields
    back, whatever bytes they hold, so also a message with a comma and a
    quote. *)
Theorem exportToCSV_reads_back entries :
  logs.exportToCSV entries
  = (("Timestamp,Pod,Container,Namespace,Level,Message" +:+ String newline EmptyString)
     +:+ unlines (map (fun entry => csv.Write (csv_record entry)) entries), None) /\
  rfc4180.ReadAll (fst (logs.exportToCSV entries))
  = Some (csv_header :: map csv_record entries).
Proof.
  split.
  - unfold logs.exportToCSV. now rewrite exportToCSV_rows_unlines.
  - unfold logs.exportToCSV, rfc4180.ReadAll. cbn [fst].
    change (csv.Write _) with (csv.Write csv_header). unfold csv_header at 1.
    rewrite <- (append_empty_r (logs.exportToCSV_rows entries)).
    rewrite read_record, read_rows. cbn [rfc4180.read].
    rewrite rev_app_distr, rev_involutive. reflexivity.
Qed.

(** An entry whose message holds a comma and a quote: the line written
    for it, and the message read back. *)
Example exportToCSV_comma_and_quote :
  let message := "disk full, path=" +:+ String dquote ("/var" +:+ String dquote EmptyString) in
  let entry := logs.LogEntry.mk (mkTime 2024 1 1 10 0 0 0 0) message "web" "app" "default"
                 "ERROR" in
  csv.Write (csv_record entry)
  = "2024-01-01T10:00:00Z,web,app,default,ERROR," +:+
    String dquote ("disk full, path=" +:+
      String dquote (String dquote ("/var" +:+
        String dquote (String dquote (String dquote (String newline EmptyString)))))) /\
  rfc4180.ReadAll (fst (logs.exportToCSV [entry]))
  = Some [csv_header;
          ["2024-01-01T10:00:00Z"; "web"; "app"; "default"; "ERROR"; message]].
Proof. split; vm_compute; reflexivity. Qed.

(** ** JSON export *)

(** [utf8.ValidString]: no byte sequence of [s] decodes to [RuneError]
    of width one. *)
Equations? ValidString (s : string) : bool by wf (String.length s) lt :=
ValidString EmptyString := true;
ValidString (String c rest) :=
  if byte_val c <? RuneSelf then ValidString rest
  else
    let '(r, size) := utf8.DecodeRuneInString (String c rest) in
    if (size =? 1)%nat then false
    else ValidString (string_drop (size - 1) rest).
Proof.
  all: simpl; try lia.
  pose proof (string_drop_length (size - 1) rest); lia.
Qed.

(** The decoder that the specification re-parses the export with is not
    part of the repository.  This one reads the JSON that the export can
    hold: an array (or [null]) of objects whose members are strings, without
    white space between the tokens, the members taken by name in any order
    and the timestamp read as [Time.UnmarshalJSON] reads it. *)
Module reparse.

Definition hexval (c : ascii) : option Z :=
  let b := byte_val c in
  if isDigit c then Some (b - 48)
  else if in_range "a" "f" c then Some (b - 87)
  else if in_range "A" "F" c then Some (b - 55)
  else None.

(** [utf8.EncodeRune] for a rune of the basic plane; a surrogate half is
    written as [RuneError]. *)
Definition EncodeRune (r : Z) : string :=
  if r <? 128 then String (byte_of r) EmptyString
  else if r <? 2048 then
    String (byte_of (Z.lor 192 (Z.shiftr r 6)))
      (String (byte_of (Z.lor 128 (Z.land r 63))) EmptyString)
  else
    let r := if (55296 <=? r) && (r <=? 57343) then utf8.RuneError else r in
    String (byte_of (Z.lor 224 (Z.shiftr r 12)))
      (String (byte_of (Z.lor 128 (Z.land (Z.shiftr r 6) 63)))
         (String (byte_of (Z.lor 128 (Z.land r 63))) EmptyString)).

(** The byte that a two-character escape stands for. *)
Definition unescape (c : ascii) : option ascii :=
  let b := byte_val c in
  if (b =? 34) || (b =? 92) || (b =? 47) then Some c
  else if b =? 98 then Some (byte_of 8)
  else if b =? 102 then Some (byte_of 12)
  else if b =? 110 then Some (byte_of 10)
  else if b =? 114 then Some (byte_of 13)
  else if b =? 116 then Some (byte_of 9)
  else None.

(** A JSON string from after its opening quote: its value and what
    follows the closing quote. *)
Fixpoint unquote (s : string) : option (string * string) :=
  match s with
  | EmptyString => None
  | String c rest =>
      let b := byte_val c in
      if b =? 34 then Some (EmptyString, rest)
      else if b =? 92 then
        match rest with
        | EmptyString => None
        | String e rest' =>
            if byte_val e =? 117 then
              match rest' with
              | String h1 (String h2 (String h3 (String h4 rest''))) =>
                  d1 ← hexval h1; d2 ← hexval h2; d3 ← hexval h3; d4 ← hexval h4;
                  '(out, r) ← unquote rest'';
                  Some (EncodeRune (((d1 * 16 + d2) * 16 + d3) * 16 + d4) +:+ out, r)
              | _ => None
              end
            else
              ch ← unescape e;
              '(out, r) ← unquote rest';
              Some (String ch out, r)
        end
      else if b <? 32 then None
      else '(out, r) ← unquote rest; Some (String c out, r)
  end.

Definition parseString (s : string) : option (string * string) :=
  match s with
  | String c rest => if byte_val c =? 34 then unquote rest else None
  | EmptyString => None
  end.

(** The members of an object from after its opening brace, in order. *)
Fixpoint members (fuel : nat) (s : string) (acc : list (string * string))
  : option (list (string * string) * string) :=
  match fuel with
  | O => None
  | S fuel' =>
      '(key, s1) ← parseString s;
      match s1 with
      | String ":" s2 =>
          '(val, s3) ← parseString s2;
          match s3 with
          | String "," s4 => members fuel' s4 (acc ++ [(key, val)])%list
          | String "}" s4 => Some ((acc ++ [(key, val)])%list, s4)
          | _ => None
          end
      | _ => None
      end
  end.

Definition object (s : string) : option (list (string * string) * string) :=
  match s with
  | String "{" (String "}" rest) => Some ([], rest)
  | String "{" s' => members (String.length s') s' []
  | _ => None
  end.

(** The value of the member [key], the last one if there are several. *)
Fixpoint member (key : string) (ms : list (string * string)) : option string :=
  match ms with
  | [] => None
  | (k, v) :: rest =>
      match member key rest with
      | Some v' => Some v'
      | None => if String.eqb k key then Some v else None
      end
  end.

Definition text (key : string) (ms : list (string * string)) : string :=
  match member key ms with Some v => v | None => EmptyString end.

(** The zero [time.Time]. *)
Definition zeroTime : Time := mkTime 1 1 1 0 0 0 0 0.

Definition entry (ms : list (string * string)) : option logs.LogEntry.t :=
  timestamp ← match member "timestamp" ms with
              | Some v => time.parseRFC3339 v
              | None => Some zeroTime
              end;
  Some (logs.LogEntry.mk timestamp (text "message" ms) (text "pod" ms)
          (text "container" ms) (text "namespace" ms) (text "level" ms)).

(** An object read as an entry, and what follows it. *)
Definition element (s : string) : option (logs.LogEntry.t * string) :=
  '(ms, s1) ← object s;
  e ← entry ms;
  Some (e, s1).

(** The elements of an array from after its opening bracket. *)
Fixpoint elements (fuel : nat) (s : string) (acc : list logs.LogEntry.t)
  : option (list logs.LogEntry.t * string) :=
  match fuel with
  | O => None
  | S fuel' =>
      '(e, s1) ← element s;
      match s1 with
      | String "," s2 => elements fuel' s2 (acc ++ [e])%list
      | String "]" s2 => Some ((acc ++ [e])%list, s2)
      | _ => None
      end
  end.

Definition array (s : string) : option (list logs.LogEntry.t * string) :=
  match s with
  | String "n" (String "u" (String "l" (String "l" rest))) => Some ([], rest)
  | String "[" (String "]" rest) => Some ([], rest)
  | String "[" s' => elements (String.length s') s' []
  | _ => None
  end.

Definition at_end (s : string) : bool :=
  match s with
  | EmptyString => true
  | String c EmptyString => byte_val c =? 10
  | _ => false
  end.

(** A document in the [json] format: one array. *)
Definition json (s : string) : option (list logs.LogEntry.t) :=
  '(entries, rest) ← array s;
  if at_end rest then Some entries else None.

(** A document in the [ndjson] format: one object per line. *)
Fixpoint lines (fuel : nat) (s : string) (acc : list logs.LogEntry.t)
  : option (list logs.LogEntry.t) :=
  match s with
  | EmptyString => Some acc
  | _ =>
      match fuel with
      | O => None
      | S fuel' =>
          '(e, s1) ← element s;
          match s1 with
          | String c s2 => if byte_val c =? 10 then lines fuel' s2 (acc ++ [e])%list else None
          | EmptyString => None
          end
      end
  end.

Definition ndjson (s : string) : option (list logs.LogEntry.t) :=
  lines (String.length s) s [].

End reparse.

(** *** Bytes and runes *)

Lemma byte_val_range c : 0 <= byte_val c < 256.
Proof.
  unfold byte_val. pose proof (N_ascii_bounded c) as Hc. lia.
Qed.

Lemma lor_shiftl_add hi lo n :
  0 <= n -> 0 <= lo < 2 ^ n -> Z.lor (Z.shiftl hi n) lo = hi * 2 ^ n + lo.
Proof.
  intros Hn Hlo. rewrite <- Z.shiftl_mul_pow2 by exact Hn.
  assert (Hdisj : Z.land (Z.shiftl hi n) lo = 0).
  { apply Z.bits_inj'. intros i Hi. rewrite Z.land_spec, Z.bits_0.
    destruct (Z.lt_ge_cases i n) as [Hlt|Hge].
    - rewrite Z.shiftl_spec_low by exact Hlt. reflexivity.
    - rewrite <- (Z.mod_small lo (2 ^ n)) by exact Hlo.
      rewrite Z.mod_pow2_bits_high by lia. apply andb_false_r. }
  rewrite <- Z.lxor_lor by exact Hdisj. symmetry. now apply Z.add_nocarry_lxor.
Qed.

Lemma land_63 x : Z.land x 63 = x mod 64.
Proof. exact (Z.land_ones x 6 ltac:(lia)). Qed.
Lemma land_31 x : Z.land x 31 = x mod 32.
Proof. exact (Z.land_ones x 5 ltac:(lia)). Qed.
Lemma land_15 x : Z.land x 15 = x mod 16.
Proof. exact (Z.land_ones x 4 ltac:(lia)). Qed.
Lemma land_7 x : Z.land x 7 = x mod 8.
Proof. exact (Z.land_ones x 3 ltac:(lia)). Qed.

(** The runes of two, three and four bytes as sums. *)
Lemma rune2 s0 s1 :
  Z.lor (Z.shiftl (Z.land s0 31) 6) (Z.land s1 utf8.maskx) = s0 mod 32 * 64 + s1 mod 64.
Proof.
  unfold utf8.maskx. rewrite land_31, land_63.
  rewrite lor_shiftl_add; [reflexivity | lia |].
  pose proof (Z.mod_pos_bound s1 64); lia.
Qed.

Lemma rune3 s0 s1 s2 :
  Z.lor (Z.shiftl (Z.land s0 15) 12)
    (Z.lor (Z.shiftl (Z.land s1 utf8.maskx) 6) (Z.land s2 utf8.maskx))
  = s0 mod 16 * 4096 + (s1 mod 64 * 64 + s2 mod 64).
Proof.
  unfold utf8.maskx. rewrite land_15, !land_63.
  pose proof (Z.mod_pos_bound s1 64). pose proof (Z.mod_pos_bound s2 64).
  rewrite (lor_shiftl_add (s1 mod 64)) by lia.
  rewrite lor_shiftl_add; [reflexivity | lia | lia].
Qed.

Lemma rune4 s0 s1 s2 s3 :
  Z.lor (Z.shiftl (Z.land s0 7) 18)
    (Z.lor (Z.shiftl (Z.land s1 utf8.maskx) 12)
       (Z.lor (Z.shiftl (Z.land s2 utf8.maskx) 6) (Z.land s3 utf8.maskx)))
  = s0 mod 8 * 262144 + (s1 mod 64 * 4096 + (s2 mod 64 * 64 + s3 mod 64)).
Proof.
  unfold utf8.maskx. rewrite land_7, !land_63.
  pose proof (Z.mod_pos_bound s1 64). pose proof (Z.mod_pos_bound s2 64).
  pose proof (Z.mod_pos_bound s3 64).
  rewrite (lor_shiftl_add (s2 mod 64)) by lia.
  rewrite (lor_shiftl_add (s1 mod 64)) by lia.
  rewrite lor_shiftl_add; [reflexivity | lia | lia].
Qed.

Definition raw (c : ascii) : bool := 128 <=? byte_val c.

Lemma first_lead b sz lo hi :
  utf8.first b = utf8.lead sz lo hi ->
  128 <= lo /\ hi <= 191 /\
  ((sz = 2%nat /\ 194 <= b < 224) \/
   (sz = 3%nat /\ 224 <= b < 240) \/
   (sz = 4%nat /\ 240 <= b <= 244 /\ (b = 240 -> lo = 144))).
Proof.
  unfold utf8.first.
  repeat match goal with
  | |- context [if ?t then _ else _] => destruct t eqn:?
  end; intros [= <- <- <-] || discriminate; lia.
Qed.

Lemma byte_of_val c : byte_of (byte_val c) = c.
Proof. unfold byte_of, byte_val. rewrite N2Z.id. apply ascii_N_embedding. Qed.

Lemma byte_val_is c b : byte_val c = b -> c = byte_of b.
Proof. intros <-. now rewrite byte_of_val. Qed.

(** A rune of more than one byte: its bytes are all above [RuneSelf], and
    the two separators are the three bytes that [EncodeRune] writes. *)
Lemma DecodeRune_wide c rest r size :
  utf8.DecodeRuneInString (String c rest) = (r, size) ->
  size <> 1%nat ->
  string_forallb raw (string_take size (String c rest)) = true /\
  String c rest = string_take size (String c rest) +:+ string_drop (size - 1) rest /\
  (r = 8232 \/ r = 8233 -> string_take size (String c rest) = reparse.EncodeRune r).
Proof.
  unfold utf8.DecodeRuneInString.
  pose proof (byte_val_range c) as Hc.
  destruct (utf8.first (byte_val c)) as [| |sz lo hi] eqn:Ef;
    [intros [= <- <-]; congruence | intros [= <- <-]; congruence |].
  apply first_lead in Ef as (Hlo & Hhi & Hsz).
  destruct (String.length (String c rest) <? sz)%nat; [intros [= <- <-]; congruence|].
  destruct rest as [|c1 t1]; [intros [= <- <-]; congruence|].
  pose proof (byte_val_range c1) as Hc1.
  destruct ((byte_val c1 <? lo) || (hi <? byte_val c1)) eqn:E1;
    [intros [= <- <-]; congruence|].
  apply orb_false_elim in E1 as [E1a E1b].
  destruct (sz <=? 2)%nat eqn:E2.
  { rewrite rune2. intros [= <- <-] _. cbn [string_take string_drop Nat.sub string_forallb].
    unfold raw. split; [|split; [reflexivity|]].
    - replace (128 <=? byte_val c) with true by lia.
      replace (128 <=? byte_val c1) with true by lia. reflexivity.
    - intros Hr. exfalso.
      pose proof (Z.mod_pos_bound (byte_val c) 32). pose proof (Z.mod_pos_bound (byte_val c1) 64).
      lia. }
  destruct t1 as [|c2 t2]; [intros [= <- <-]; congruence|].
  pose proof (byte_val_range c2) as Hc2.
  unfold utf8.cont.
  destruct ((128 <=? byte_val c2) && (byte_val c2 <=? 191)) eqn:E3;
    [|intros [= <- <-]; congruence].
  apply andb_prop in E3 as [E3a E3b]. cbn [negb].
  destruct (sz <=? 3)%nat eqn:E4.
  { rewrite rune3. intros [= <- <-] _. cbn [string_take string_drop Nat.sub string_forallb].
    unfold raw. split; [|split; [reflexivity|]].
    - replace (128 <=? byte_val c) with true by lia.
      replace (128 <=? byte_val c1) with true by lia.
      rewrite E3a. reflexivity.
    - intros Hr.
      assert (Hb : byte_val c = 226 /\ byte_val c1 = 128 /\
                   (byte_val c2 = 168 \/ byte_val c2 = 169)).
      { assert (Hs0 : 224 <= byte_val c < 240)
          by (destruct Hsz as [[? _]|[[_ ?]|[? _]]]; subst; try discriminate; assumption).
        assert (Hs1 : 128 <= byte_val c1 <= 191) by lia.
        assert (Hs2 : 128 <= byte_val c2 <= 191) by lia.
        clear - Hr Hs0 Hs1 Hs2. Z.div_mod_to_equations. lia. }
      destruct Hb as (H0 & H1 & H2).
      apply byte_val_is in H0, H1. subst c c1.
      clear - H2. destruct H2 as [H2|H2]; apply byte_val_is in H2; subst c2;
        vm_compute; reflexivity. }
  destruct t2 as [|c3 t3]; [intros [= <- <-]; congruence|].
  pose proof (byte_val_range c3) as Hc3.
  destruct ((128 <=? byte_val c3) && (byte_val c3 <=? 191)) eqn:E5;
    [|intros [= <- <-]; congruence].
  apply andb_prop in E5 as [E5a E5b]. cbn [negb].
  rewrite rune4. intros [= <- <-] _. cbn [string_take string_drop Nat.sub string_forallb].
  unfold raw. split; [|split; [reflexivity|]].
  - replace (128 <=? byte_val c) with true by lia.
    replace (128 <=? byte_val c1) with true by lia.
    rewrite E3a, E5a. reflexivity.
  - intros Hr. exfalso.
    destruct Hsz as [[? _]|[[? _]|(_ & Hb & Hb240)]]; try (subst; discriminate).
    assert (Hs1 : lo <= byte_val c1 <= 191) by lia.
    clear - Hr Hb Hb240 Hs1 Hlo. Z.div_mod_to_equations. lia.
Qed.

(** *** Strings *)

(** After a decoded prefix. *)
Definition after (pre : string) (r : option (string * string)) : option (string * string) :=
  '(out, rest) ← r; Some (pre +:+ out, rest).

Lemma after_after p q r : after p (after q r) = after (p +:+ q) r.
Proof.
  unfold after. destruct r as [[out rest]|]; cbn; [|reflexivity].
  now rewrite append_assoc.
Qed.

Lemma unquote_raw pre : forall s,
  string_forallb raw pre = true ->
  reparse.unquote (pre +:+ s) = after pre (reparse.unquote s).
Proof.
  induction pre as [|c pre IH]; intros s Hp.
  - rewrite append_nil. unfold after. destruct (reparse.unquote s) as [[? ?]|]; reflexivity.
  - cbn [string_forallb] in Hp. apply andb_prop in Hp as [Hc Hp]. unfold raw in Hc.
    rewrite append_cons. cbn [reparse.unquote].
    replace (byte_val c =? 34) with false by lia.
    replace (byte_val c =? 92) with false by lia.
    replace (byte_val c <? 32) with false by lia.
    rewrite (IH s Hp). unfold after.
    destruct (reparse.unquote s) as [[out rest]|]; reflexivity.
Qed.

Lemma unquote_safe c s :
  json.htmlSafe (byte_val c) = true ->
  reparse.unquote (String c s) = after (String c EmptyString) (reparse.unquote s).
Proof.
  unfold json.htmlSafe. intros Hs. cbn [reparse.unquote].
  apply andb_prop in Hs as [Hs Hn]. apply andb_prop in Hs as [H32 H128].
  apply negb_true_iff in Hn. repeat (apply orb_false_elim in Hn as [Hn ?]).
  replace (byte_val c =? 34) with false by lia.
  replace (byte_val c =? 92) with false by lia.
  replace (byte_val c <? 32) with false by lia.
  unfold after. destruct (reparse.unquote s) as [[out rest]|]; reflexivity.
Qed.

Lemma unquote_escapeByte c s :
  (byte_val c <? RuneSelf) = true -> json.htmlSafe (byte_val c) = false ->
  reparse.unquote (json.escapeByte (byte_val c) +:+ s)
  = after (String c EmptyString) (reparse.unquote s).
Proof.
  destruct c as [[] [] [] [] [] [] [] []]; intros H128 Hsafe;
    try discriminate H128; try discriminate Hsafe;
    vm_compute json.escapeByte; rewrite !append_cons, append_nil;
    cbn [reparse.unquote]; unfold after;
    destruct (reparse.unquote s) as [[out rest]|]; reflexivity.
Qed.

Lemma unquote_separator r s :
  r = 8232 \/ r = 8233 ->
  reparse.unquote
    (String json.backslash (String "u" (String "2" (String "0" (String "2"
       (String (json.hex (Z.land r 15)) EmptyString))))) +:+ s)
  = after (reparse.EncodeRune r) (reparse.unquote s).
Proof.
  intros [-> | ->]; vm_compute json.hex; vm_compute json.backslash;
    rewrite !append_cons, append_nil; cbn [reparse.unquote]; unfold after;
    destruct (reparse.unquote s) as [[out rest]|]; reflexivity.
Qed.

Lemma unquote_replacement s :
  reparse.unquote (String json.backslash "ufffd" +:+ s)
  = after (reparse.EncodeRune utf8.RuneError) (reparse.unquote s).
Proof.
  vm_compute json.backslash. rewrite !append_cons, append_nil.
  cbn [reparse.unquote]; unfold after.
  destruct (reparse.unquote s) as [[out rest]|]; reflexivity.
Qed.

(** The text that [appendString] writes for valid UTF-8 reads back as
    the string. *)
Lemma unquote_appendString_loop n : forall src k,
  (String.length src <= n)%nat -> ValidString src = true ->
  reparse.unquote (json.appendString_loop src +:+ String dquote k) = Some (src, k).
Proof.
  induction n as [|n IH]; intros src k Hlen Hv.
  - destruct src; [|simpl in Hlen; lia]. reflexivity.
  - destruct src as [|c rest]; [reflexivity|].
    simpl in Hlen. rewrite json.appendString_loop_equation_2.
    rewrite ValidString_equation_2 in Hv. cbv zeta in *.
    destruct (byte_val c <? RuneSelf) eqn:Ec.
    + rewrite append_assoc.
      assert (Hc : reparse.unquote
                     ((if json.htmlSafe (byte_val c) then String c EmptyString
                       else json.escapeByte (byte_val c))
                      +:+ json.appendString_loop rest +:+ String dquote k)
                   = after (String c EmptyString)
                       (reparse.unquote (json.appendString_loop rest +:+ String dquote k))).
      { destruct (json.htmlSafe (byte_val c)) eqn:Es.
        - rewrite append_cons, append_nil. now apply unquote_safe.
        - now apply unquote_escapeByte. }
      rewrite Hc, (IH rest k) by (lia || assumption). reflexivity.
    + destruct (utf8.DecodeRuneInString (String c rest)) as [r size] eqn:Ed.
      destruct (size =? 1)%nat eqn:E1; [discriminate Hv|].
      apply Nat.eqb_neq in E1. rewrite andb_false_r.
      destruct (DecodeRune_wide c rest r size Ed E1) as (Hraw & Hsplit & Hsep).
      pose proof (string_drop_length (size - 1) rest) as Hdrop.
      destruct ((r =? 8232) || (r =? 8233)) eqn:Er.
      * assert (Hr : r = 8232 \/ r = 8233) by lia.
        rewrite append_assoc, (unquote_separator r _ Hr).
        rewrite (IH (string_drop (size - 1) rest) k) by (lia || assumption).
        unfold after; cbn. rewrite <- (Hsep Hr), <- Hsplit. reflexivity.
      * rewrite append_assoc, (unquote_raw _ _ Hraw).
        rewrite (IH (string_drop (size - 1) rest) k) by (lia || assumption).
        unfold after; cbn. rewrite <- Hsplit. reflexivity.
Qed.

Lemma parseString_appendString src k :
  ValidString src = true ->
  reparse.parseString (json.appendString src +:+ k) = Some (src, k).
Proof.
  intros Hv. unfold json.appendString, quoted. rewrite append_cons.
  cbn [reparse.parseString]. change (byte_val dquote =? 34) with true. cbv iota.
  rewrite append_assoc, append_cons, append_nil.
  now apply (unquote_appendString_loop (String.length src)).
Qed.

(** *** Times *)

(** A time of the calendar that JSON can carry. *)
Definition wellformed (t : Time) : bool :=
  (0 <=? year t) && (year t <=? 9999) &&
  (1 <=? month t) && (month t <=? 12) &&
  (1 <=? day t) && (day t <=? time.daysIn (month t) (year t)) &&
  (0 <=? hour t) && (hour t <=? 23) &&
  (0 <=? minute t) && (minute t <=? 59) &&
  (0 <=? second t) && (second t <=? 59) &&
  (0 <=? nanosecond t) && (nanosecond t <=? 999999999) &&
  (Z.abs (zone t) <? 1440).

Lemma byte_val_of z : 0 <= z < 256 -> byte_val (byte_of z) = z.
Proof.
  intros Hz. unfold byte_val, byte_of. rewrite N_ascii_embedding; [lia|].
  change 256%N with (Z.to_N 256). lia.
Qed.

Lemma digit_val d : 0 <= d <= 9 -> byte_val (time.digit d) = 48 + d.
Proof. intros Hd. unfold time.digit. apply byte_val_of. lia. Qed.

Lemma isDigit_digit d : 0 <= d <= 9 -> isDigit (time.digit d) = true.
Proof.
  intros Hd. unfold isDigit, in_range. rewrite (digit_val d Hd).
  change (byte_val "0") with 48. change (byte_val "9") with 57. lia.
Qed.

Lemma atoi_digit d acc s :
  0 <= d <= 9 -> time.atoi acc (String (time.digit d) s) = time.atoi (acc * 10 + d) s.
Proof.
  intros Hd. cbn [time.atoi]. rewrite (isDigit_digit d Hd), (digit_val d Hd).
  f_equal. lia.
Qed.

Lemma appendInt_2 x :
  0 <= x < 100 ->
  time.appendInt x 2
  = String (time.digit (x / 10)) (String (time.digit (x mod 10)) EmptyString).
Proof.
  intros Hx. unfold time.appendInt. replace (x <? 0) with false by lia.
  rewrite (Z.abs_eq x) by lia. cbn [Nat.eqb andb]. replace (x <? 100) with true by lia.
  reflexivity.
Qed.

Lemma appendInt_4 x :
  0 <= x < 10000 ->
  time.appendInt x 4
  = String (time.digit (x / 1000)) (String (time.digit (x / 100 mod 10))
      (String (time.digit (x / 10 mod 10)) (String (time.digit (x mod 10)) EmptyString))).
Proof.
  intros Hx. unfold time.appendInt. replace (x <? 0) with false by lia.
  rewrite (Z.abs_eq x) by lia. cbn [Nat.eqb andb]. replace (x <? 10000) with true by lia.
  reflexivity.
Qed.

Lemma parseUint_2 x lo hi :
  0 <= x < 100 -> lo <= x <= hi ->
  time.parseUint
    (String (time.digit (x / 10)) (String (time.digit (x mod 10)) EmptyString)) lo hi
  = Some x.
Proof.
  intros Hx Hr. unfold time.parseUint.
  rewrite !atoi_digit by (Z.div_mod_to_equations; lia). cbn [time.atoi mbind option_bind].
  replace (0 * 10 + x / 10) with (x / 10) by lia.
  replace (x / 10 * 10 + x mod 10) with x by (Z.div_mod_to_equations; lia).
  replace ((x <? lo) || (hi <? x)) with false by lia. reflexivity.
Qed.

Lemma parseUint_4 x lo hi :
  0 <= x < 10000 -> lo <= x <= hi ->
  time.parseUint
    (String (time.digit (x / 1000)) (String (time.digit (x / 100 mod 10))
       (String (time.digit (x / 10 mod 10)) (String (time.digit (x mod 10)) EmptyString))))
    lo hi
  = Some x.
Proof.
  intros Hx Hr. unfold time.parseUint.
  rewrite !atoi_digit by (Z.div_mod_to_equations; lia). cbn [time.atoi mbind option_bind].
  replace (((0 * 10 + x / 1000) * 10 + x / 100 mod 10) * 10 + x / 10 mod 10) with (x / 10)
    by (Z.div_mod_to_equations; lia).
  replace (x / 10 * 10 + x mod 10) with x by (Z.div_mod_to_equations; lia).
  replace ((x <? lo) || (hi <? x)) with false by lia. reflexivity.
Qed.

Lemma length_append (a b : string) :
  String.length (a +:+ b) = (String.length a + String.length b)%nat.
Proof.
  induction a as [|c a IH]; [reflexivity|].
  rewrite append_cons. cbn [String.length]. now rewrite IH.
Qed.

Lemma forallb_append p (a b : string) :
  string_forallb p (a +:+ b) = string_forallb p a && string_forallb p b.
Proof.
  induction a as [|c a IH]; [reflexivity|].
  rewrite append_cons. cbn [string_forallb]. now rewrite IH, andb_assoc.
Qed.

Lemma atoi_append s1 : forall a s2,
  time.atoi a (s1 +:+ s2) = x ← time.atoi a s1; time.atoi x s2.
Proof.
  induction s1 as [|c s1 IH]; intros a s2; [reflexivity|].
  rewrite append_cons. cbn [time.atoi]. destruct (isDigit c); [apply IH | reflexivity].
Qed.

Lemma decimal_loop_acc fuel : forall u acc,
  time.decimal_loop fuel u acc = time.decimal_loop fuel u EmptyString +:+ acc.
Proof.
  induction fuel as [|fuel IH]; intros u acc; [reflexivity|].
  cbn [time.decimal_loop]. destruct (10 <=? u); [|reflexivity].
  rewrite (IH _ (String _ acc)), (IH _ (String _ EmptyString)).
  now rewrite append_assoc.
Qed.

(** The digits that [appendInt] assembles: they are digits, they read
    back as the number, and there are no more of them than the number
    needs. *)
Lemma decimal_loop_spec fuel : forall u,
  0 <= u < 10 ^ Z.of_nat fuel ->
  let s := time.decimal_loop fuel u EmptyString in
  string_forallb isDigit s = true /\
  (forall a, time.atoi a s = Some (a * 10 ^ Z.of_nat (String.length s) + u)) /\
  (forall k, (1 <= k)%nat -> u < 10 ^ Z.of_nat k -> (String.length s <= k)%nat).
Proof.
  induction fuel as [|fuel IH]; intros u Hu; cbv zeta.
  - cbn in Hu. assert (u = 0) by lia. subst u. cbn [time.decimal_loop String.length].
    repeat split; [intros a; cbn; f_equal; lia | intros; lia].
  - rewrite Nat2Z.inj_succ, Z.pow_succ_r in Hu by lia.
    cbn [time.decimal_loop]. destruct (10 <=? u) eqn:E10.
    + rewrite decimal_loop_acc.
      assert (Hq : 0 <= u / 10 < 10 ^ Z.of_nat fuel) by (Z.div_mod_to_equations; lia).
      destruct (IH (u / 10) Hq) as (Hd & Ha & Hl).
      set (s := time.decimal_loop fuel (u / 10) EmptyString) in *.
      assert (Hm : 0 <= u mod 10 <= 9) by (Z.div_mod_to_equations; lia).
      repeat split.
      * rewrite forallb_append, Hd. cbn [string_forallb].
        now rewrite (isDigit_digit _ Hm).
      * intros a. rewrite atoi_append, Ha. cbn [mbind option_bind].
        rewrite (atoi_digit _ _ _ Hm). cbn [time.atoi]. apply f_equal.
        rewrite length_append. cbn [String.length].
        rewrite Nat2Z.inj_add, Z.pow_add_r by lia. change (10 ^ Z.of_nat 1) with 10.
        Z.div_mod_to_equations. nia.
      * intros k Hk Huk. rewrite length_append. cbn [String.length].
        destruct k as [|k]; [lia|]. destruct k as [|k]; [cbn in Huk; lia|].
        assert ((String.length s <= S k)%nat); [|lia].
        apply Hl; [lia|]. rewrite !Nat2Z.inj_succ, Z.pow_succ_r in Huk by lia.
        rewrite Nat2Z.inj_succ. Z.div_mod_to_equations. lia.
    + assert (Hm : 0 <= u <= 9) by lia. cbn [String.length].
      repeat split.
      * cbn [string_forallb]. now rewrite (isDigit_digit _ Hm).
      * intros a. rewrite (atoi_digit _ _ _ Hm). cbn [time.atoi]. apply f_equal.
        change (10 ^ Z.of_nat 1) with 10. lia.
      * intros; lia.
Qed.

Lemma atoi_zeros n s : time.atoi 0 (time.zeros n +:+ s) = time.atoi 0 s.
Proof.
  induction n as [|n IH]; [reflexivity|].
  cbn [time.zeros]. rewrite append_cons. cbn [time.atoi].
  change (isDigit "0") with true. cbv iota. exact IH.
Qed.

Lemma length_zeros n : String.length (time.zeros n) = n.
Proof. induction n as [|n IH]; [reflexivity|]. cbn. now rewrite IH. Qed.

Lemma forallb_zeros n : string_forallb isDigit (time.zeros n) = true.
Proof. induction n as [|n IH]; [reflexivity|]. cbn [time.zeros string_forallb]. now rewrite IH. Qed.

(** The nine digits of the nanoseconds. *)
Lemma appendInt_9 ns :
  0 <= ns <= 999999999 ->
  string_forallb isDigit (time.appendInt ns 9) = true /\
  time.atoi 0 (time.appendInt ns 9) = Some ns /\
  String.length (time.appendInt ns 9) = 9%nat.
Proof.
  intros Hns. unfold time.appendInt. replace (ns <? 0) with false by lia.
  rewrite (Z.abs_eq ns) by lia. cbn [Nat.eqb andb]. rewrite append_nil.
  unfold time.decimal.
  destruct (decimal_loop_spec 20 ns ltac:(cbn; lia)) as (Hd & Ha & Hl).
  set (d := time.decimal_loop 20 ns EmptyString) in *.
  specialize (Hl 9%nat ltac:(lia) ltac:(cbn; lia)).
  repeat split.
  - now rewrite forallb_append, forallb_zeros, Hd.
  - rewrite atoi_zeros, Ha. apply f_equal. lia.
  - rewrite length_append, length_zeros. lia.
Qed.

Lemma trimZeros_zeros s :
  time.trimZeros s +:+ time.zeros (String.length s - String.length (time.trimZeros s)) = s /\
  (String.length (time.trimZeros s) <= String.length s)%nat.
Proof.
  induction s as [|c s (IH & Hlen)]; [split; reflexivity|].
  cbn [time.trimZeros]. destruct (time.trimZeros s) as [|d r] eqn:Er.
  - rewrite append_nil in IH. cbn [String.length] in IH. rewrite Nat.sub_0_r in IH.
    destruct (byte_val c =? 48) eqn:Ec.
    + apply (byte_val_eqb c "0") in Ec. subst c. split; [|cbn; lia].
      rewrite append_nil. cbn [String.length Nat.sub time.zeros]. now rewrite IH.
    + split; [|cbn; lia]. rewrite append_cons, append_nil.
      cbn [String.length Nat.sub]. rewrite Nat.sub_0_r. now rewrite IH.
  - split; [|cbn [String.length] in *; lia].
    rewrite append_cons. apply f_equal. exact IH.
Qed.

Lemma forallb_prefix p (a b : string) :
  string_forallb p (a +:+ b) = true -> string_forallb p a = true.
Proof. rewrite forallb_append. intros Hab. now apply andb_prop in Hab as [Ha _]. Qed.

Lemma spanDigits_append d : forall s,
  string_forallb isDigit d = true ->
  match s with EmptyString => true | String c _ => negb (isDigit c) end = true ->
  time.spanDigits (d +:+ s) = (d, s).
Proof.
  induction d as [|c d IH]; intros s Hd Hs.
  - rewrite append_nil. destruct s as [|c s]; [reflexivity|].
    cbn [time.spanDigits]. apply negb_true_iff in Hs. now rewrite Hs.
  - cbn [string_forallb] in Hd. apply andb_prop in Hd as [Hc Hd].
    rewrite append_cons. cbn [time.spanDigits]. rewrite Hc, (IH s Hd Hs). reflexivity.
Qed.

Lemma substring_all s n : (String.length s <= n)%nat -> substring 0 n s = s.
Proof.
  revert n; induction s as [|c s IH]; intros n Hn; [destruct n; reflexivity|].
  destruct n as [|n]; [cbn in Hn; lia|]. cbn [substring]. rewrite IH; [reflexivity|].
  cbn in Hn; lia.
Qed.

(** The fraction that [appendNano] writes reads back as the
    nanoseconds, whatever follows it that starts with no digit and no
    point. *)
Lemma parseFraction_appendNano ns s :
  0 <= ns <= 999999999 ->
  match s with
  | EmptyString => true
  | String c _ => negb (isDigit c) && negb (byte_val c =? 46)
  end = true ->
  time.parseFraction (time.appendNano ns +:+ s) = (ns, s).
Proof.
  intros Hns Hs. unfold time.appendNano. destruct (ns =? 0) eqn:E0.
  - assert (ns = 0) by lia. subst ns. rewrite append_nil.
    destruct s as [|c s]; [reflexivity|]. apply andb_prop in Hs as [_ Hs].
    apply negb_true_iff in Hs. unfold time.parseFraction.
    destruct c as [[] [] [] [] [] [] [] []]; try reflexivity; discriminate Hs.
  - destruct (appendInt_9 ns Hns) as (Hd & Ha & Hl).
    set (D := time.appendInt ns 9) in *.
    destruct (trimZeros_zeros D) as (Ht & Htl).
    set (T := time.trimZeros D) in *.
    assert (HdT : string_forallb isDigit T = true).
    { apply (forallb_prefix _ T (time.zeros (String.length D - String.length T))).
      now rewrite Ht. }
    assert (Hs' : match s with EmptyString => true | String c _ => negb (isDigit c) end = true).
    { destruct s as [|c s]; [reflexivity|]. now apply andb_prop in Hs as [Hs _]. }
    destruct T as [|c T'] eqn:ET.
    { exfalso. rewrite append_nil in Ht. rewrite <- Ht, <- (append_empty_r (time.zeros _)) in Ha.
      rewrite atoi_zeros in Ha. cbn in Ha. injection Ha as Ha. lia. }
    rewrite append_cons, append_nil, append_cons.
    unfold time.parseFraction.
    change (String "." (String c (T' +:+ s))) with (String "." (String c T' +:+ s)).
    cbn [string_forallb] in HdT. pose proof HdT as HdT'.
    apply andb_prop in HdT' as [Hc _].
    assert (Hspan : time.spanDigits (String c T' +:+ s) = (String c T', s)).
    { apply spanDigits_append; assumption. }
    rewrite append_cons in Hspan |- *. rewrite Hc, Hspan.
    apply (f_equal (fun x => (x, s))).
    unfold time.parseNanoseconds.
    rewrite substring_all by (rewrite Hl in Htl; exact Htl).
    rewrite Hl in Ht. rewrite Ht, Ha. reflexivity.
Qed.

Lemma formatZone_nonzero z :
  Z.abs z < 1440 -> z <> 0 ->
  time.formatZone z
  = String (if z <? 0 then "-"%char else "+"%char)
      (String (time.digit (Z.abs z / 60 / 10)) (String (time.digit (Z.abs z / 60 mod 10))
         (String ":" (String (time.digit (Z.abs z mod 60 / 10))
            (String (time.digit (Z.abs z mod 60 mod 10)) EmptyString))))).
Proof.
  intros Hz Hnz. unfold time.formatZone. replace (z =? 0) with false by lia.
  rewrite !appendInt_2 by (Z.div_mod_to_equations; lia).
  destruct (z <? 0); reflexivity.
Qed.

Lemma formatZone_start z :
  Z.abs z < 1440 ->
  match time.formatZone z with
  | EmptyString => true
  | String c _ => negb (isDigit c) && negb (byte_val c =? 46)
  end = true.
Proof.
  intros Hz. destruct (Z.eq_dec z 0) as [->|Hnz]; [reflexivity|].
  rewrite (formatZone_nonzero z Hz Hnz). destruct (z <? 0); reflexivity.
Qed.

Lemma substring_0_0 s : substring 0 0 s = EmptyString.
Proof. destruct s; reflexivity. Qed.

(** [parseRFC3339] reads back what [Format] writes with the layout
    [RFC3339Nano]. *)
Lemma parseRFC3339_Format t :
  wellformed t = true -> time.parseRFC3339 (time.Format_RFC3339Nano t) = Some t.
Proof.
  destruct t as [y mo d h mi se ns z]. unfold wellformed.
  cbn [year month day hour minute second nanosecond zone].
  intros Hwf.
  repeat match type of Hwf with
  | _ && _ = true => let H := fresh "Hb" in apply andb_prop in Hwf as [Hwf H]
  end.
  assert (Hy : 0 <= y < 10000) by lia.
  assert (Hmo : 1 <= mo <= 12) by lia.
  assert (Hd : 1 <= d <= time.daysIn mo y) by lia.
  assert (Hd' : d < 100).
  { unfold time.daysIn in Hd. destruct (mo =? 2); [destruct (time.isLeap y); lia|].
    assert (Z.land (mo + Z.shiftr mo 3) 1 <= 1); [|lia].
    change 1 with (Z.ones 1) at 1. rewrite Z.land_ones by lia.
    change (2 ^ 1) with 2. Z.div_mod_to_equations. lia. }
  assert (Hh : 0 <= h <= 23) by lia.
  assert (Hmi : 0 <= mi <= 59) by lia.
  assert (Hse : 0 <= se <= 59) by lia.
  assert (Hns : 0 <= ns <= 999999999) by lia.
  assert (Hz : Z.abs z < 1440) by lia.
  clear Hwf Hb Hb0 Hb1 Hb2 Hb3 Hb4 Hb5 Hb6 Hb7 Hb8 Hb9 Hb10 Hb11 Hb12.
  unfold time.Format_RFC3339Nano, time.formatDateTime.
  cbn [year month day hour minute second nanosecond zone].
  rewrite (appendInt_4 y Hy), !appendInt_2 by lia.
  rewrite !append_cons, !append_nil, !append_cons, !append_nil.
  set (tail := time.appendNano ns +:+ time.formatZone z).
  unfold time.parseRFC3339.
  cbn [String.length Nat.ltb Nat.leb time.slice substring Nat.sub].
  rewrite substring_0_0.
  rewrite (parseUint_4 y 0 9999) by lia. cbn [mbind option_bind].
  rewrite (parseUint_2 mo 1 12) by lia. cbn [mbind option_bind].
  rewrite (parseUint_2 d 1 (time.daysIn mo y)) by lia. cbn [mbind option_bind].
  rewrite (parseUint_2 h 0 23) by lia. cbn [mbind option_bind].
  rewrite (parseUint_2 mi 0 59) by lia. cbn [mbind option_bind].
  rewrite (parseUint_2 se 0 59) by lia. cbn [mbind option_bind].
  cbn [time.at_is String.get].
  match goal with |- (if negb ?b then _ else _) = _ => change b with true end.
  cbn [negb string_drop]. subst tail.
  rewrite (parseFraction_appendNano ns _ Hns (formatZone_start z Hz)).
  destruct (Z.eq_dec z 0) as [->|Hnz]; [reflexivity|].
  rewrite (formatZone_nonzero z Hz Hnz).
  assert (Hhh : 0 <= Z.abs z / 60 < 100) by (Z.div_mod_to_equations; lia).
  assert (Hmm : 0 <= Z.abs z mod 60 < 100) by (Z.div_mod_to_equations; lia).
  assert (Heqb : forall c t,
            String.eqb (String (if z <? 0 then "-"%char else "+"%char) t) (String "Z" c)
            = false) by (intros; destruct (z <? 0); reflexivity).
  change "Z" with (String "Z" EmptyString). rewrite Heqb.
  cbn [String.length Nat.eqb negb time.slice substring Nat.sub].
  rewrite (parseUint_2 _ 0 24) by (Z.div_mod_to_equations; lia). cbn [mbind option_bind].
  rewrite (parseUint_2 _ 0 60) by (Z.div_mod_to_equations; lia). cbn [mbind option_bind].
  cbn [time.at_is String.get].
  destruct (z <? 0) eqn:Ez.
  - change (byte_val "-" =? byte_val "-") with true.
    change (byte_val ":" =? byte_val ":") with true. cbn [orb andb negb].
    do 2 f_equal. Z.div_mod_to_equations. lia.
  - change (byte_val "+" =? byte_val "-") with false.
    change (byte_val "+" =? byte_val "+") with true.
    change (byte_val ":" =? byte_val ":") with true. cbn [orb andb negb].
    do 2 f_equal. Z.div_mod_to_equations. lia.
Qed.

(** *** Entries *)

Definition safe (c : ascii) : bool := json.htmlSafe (byte_val c).

Lemma unquote_safe_string s k :
  string_forallb safe s = true ->
  reparse.unquote (s +:+ String dquote k) = Some (s, k).
Proof.
  induction s as [|c s IH]; intros Hs; [reflexivity|].
  cbn [string_forallb] in Hs. apply andb_prop in Hs as [Hc Hs].
  rewrite append_cons, (unquote_safe c _ Hc), (IH Hs). reflexivity.
Qed.

Lemma parseString_quoted s k :
  string_forallb safe s = true ->
  reparse.parseString (quoted s +:+ k) = Some (s, k).
Proof.
  intros Hs. unfold quoted. rewrite append_cons. cbn [reparse.parseString].
  change (byte_val dquote =? 34) with true. cbv iota.
  rewrite append_assoc, append_cons, append_nil. now apply unquote_safe_string.
Qed.

Lemma forallb_impl (p q : ascii -> bool) s :
  (forall c, p c = true -> q c = true) ->
  string_forallb p s = true -> string_forallb q s = true.
Proof.
  intros Hpq. induction s as [|c s IH]; [reflexivity|].
  cbn [string_forallb]. intros Hs. apply andb_prop in Hs as [Hc Hs].
  now rewrite (Hpq c Hc), (IH Hs).
Qed.

Lemma isDigit_safe c : isDigit c = true -> safe c = true.
Proof.
  unfold isDigit, in_range, safe, json.htmlSafe.
  change (byte_val "0") with 48. change (byte_val "9") with 57. lia.
Qed.

Lemma safe_digit d : 0 <= d <= 9 -> safe (time.digit d) = true.
Proof. intros Hd. apply isDigit_safe, isDigit_digit, Hd. Qed.

Lemma wellformed_bounds t :
  wellformed t = true ->
  0 <= year t < 10000 /\ 0 <= month t < 100 /\ 0 <= day t < 100 /\
  0 <= hour t < 100 /\ 0 <= minute t < 100 /\ 0 <= second t < 100 /\
  0 <= nanosecond t <= 999999999 /\ Z.abs (zone t) < 1440.
Proof.
  unfold wellformed. intros Hwf.
  repeat match type of Hwf with
  | _ && _ = true => let H := fresh "Hb" in apply andb_prop in Hwf as [Hwf H]
  end.
  assert (Hd' : day t < 100).
  { assert (Hd : day t <= time.daysIn (month t) (year t)) by lia.
    unfold time.daysIn in Hd.
    destruct (month t =? 2); [destruct (time.isLeap (year t)); lia|].
    assert (Z.land (month t + Z.shiftr (month t) 3) 1 <= 1); [|lia].
    change 1 with (Z.ones 1) at 1. rewrite Z.land_ones by lia.
    change (2 ^ 1) with 2. Z.div_mod_to_equations. lia. }
  lia.
Qed.

(** The text of a time holds no byte that JSON escapes. *)
Lemma Format_safe t :
  wellformed t = true -> string_forallb safe (time.Format_RFC3339Nano t) = true.
Proof.
  intros Hwf. destruct (wellformed_bounds t Hwf) as (Hy & Hmo & Hd & Hh & Hmi & Hse & Hns & Hz).
  unfold time.Format_RFC3339Nano, time.formatDateTime.
  rewrite (appendInt_4 _ Hy), !appendInt_2 by assumption.
  rewrite !forallb_append. cbn [string_forallb].
  rewrite !safe_digit by (Z.div_mod_to_equations; lia).
  cbn [andb].
  assert (Hnano : string_forallb safe (time.appendNano (nanosecond t)) = true).
  { unfold time.appendNano. destruct (nanosecond t =? 0); [reflexivity|].
    rewrite append_cons, append_nil. cbn [string_forallb].
    change (safe ".") with true. cbn [andb].
    destruct (appendInt_9 _ Hns) as (Hdig & _ & _).
    destruct (trimZeros_zeros (time.appendInt (nanosecond t) 9)) as (Ht & _).
    apply (forallb_impl isDigit safe _ isDigit_safe).
    apply (forallb_prefix _ _ (time.zeros
             (String.length (time.appendInt (nanosecond t) 9)
              - String.length (time.trimZeros (time.appendInt (nanosecond t) 9))))).
    now rewrite Ht. }
  assert (Hzone : string_forallb safe (time.formatZone (zone t)) = true).
  { destruct (Z.eq_dec (zone t) 0) as [->|Hnz]; [reflexivity|].
    rewrite (formatZone_nonzero _ Hz Hnz). cbn [string_forallb].
    rewrite !safe_digit by (Z.div_mod_to_equations; lia).
    destruct (zone t <? 0); reflexivity. }
  rewrite Hnano, Hzone. reflexivity.
Qed.

Lemma MarshalJSON_wellformed t :
  wellformed t = true ->
  time.MarshalJSON t = Ok (quoted (time.Format_RFC3339Nano t)).
Proof.
  intros Hwf. destruct (wellformed_bounds t Hwf) as (Hy & _ & _ & _ & _ & _ & _ & Hz).
  unfold time.MarshalJSON.
  replace (year t <? 0) with false by lia. replace (9999 <? year t) with false by lia.
  replace (24 <=? Z.abs (zone t) / 60) with false by (Z.div_mod_to_equations; lia).
  reflexivity.
Qed.

(** An entry that JSON can carry: a well-formed time and strings of
    valid UTF-8. *)
Definition faithful (e : logs.LogEntry.t) : bool :=
  wellformed (logs.LogEntry.Timestamp e) &&
  ValidString (logs.LogEntry.Message e) &&
  ValidString (logs.LogEntry.Pod e) &&
  ValidString (logs.LogEntry.Container e) &&
  ValidString (logs.LogEntry.Namespace e) &&
  ValidString (logs.LogEntry.LogLevel e).

(** One member read: the key is a plain name, the value a string that
    reads back as [v]. *)
Lemma members_step fuel key value v c rest acc :
  string_forallb safe key = true ->
  (forall k, reparse.parseString (value +:+ k) = Some (v, k)) ->
  reparse.members (S fuel) (logs.field key value +:+ String c rest) acc
  = (if byte_val c =? 44 then reparse.members fuel rest (acc ++ [(key, v)])%list
     else if byte_val c =? 125 then Some ((acc ++ [(key, v)])%list, rest)
     else None).
Proof.
  intros Hkey Hval. cbn [reparse.members]. unfold logs.field.
  rewrite !append_assoc. rewrite (parseString_quoted key _ Hkey). cbn [mbind option_bind].
  rewrite append_cons, append_nil. cbv iota. cbv beta.
  rewrite Hval. cbn [mbind option_bind].
  destruct c as [[] [] [] [] [] [] [] []]; reflexivity.
Qed.

Lemma faithful_parts e :
  faithful e = true ->
  wellformed (logs.LogEntry.Timestamp e) = true /\
  ValidString (logs.LogEntry.Message e) = true /\
  ValidString (logs.LogEntry.Pod e) = true /\
  ValidString (logs.LogEntry.Container e) = true /\
  ValidString (logs.LogEntry.Namespace e) = true /\
  ValidString (logs.LogEntry.LogLevel e) = true.
Proof.
  unfold faithful. intros Hf.
  do 5 (let H := fresh "Hv" in apply andb_prop in Hf as [Hf H]).
  repeat split; assumption.
Qed.

Lemma json_Marshal_LogEntry_faithful e :
  faithful e = true ->
  logs.json_Marshal_LogEntry e
  = Ok ("{" +:+ logs.field "timestamp"
                  (quoted (time.Format_RFC3339Nano (logs.LogEntry.Timestamp e))) +:+
        "," +:+ logs.field "message" (json.appendString (logs.LogEntry.Message e)) +:+
        "," +:+ logs.field "pod" (json.appendString (logs.LogEntry.Pod e)) +:+
        "," +:+ logs.field "container" (json.appendString (logs.LogEntry.Container e)) +:+
        "," +:+ logs.field "namespace" (json.appendString (logs.LogEntry.Namespace e)) +:+
        (if nonempty (logs.LogEntry.LogLevel e)
         then "," +:+ logs.field "level" (json.appendString (logs.LogEntry.LogLevel e))
         else "") +:+
        "}").
Proof.
  intros Hf. apply faithful_parts in Hf as (Hf & _).
  unfold logs.json_Marshal_LogEntry. now rewrite (MarshalJSON_wellformed _ Hf).
Qed.

Lemma object_members key value rest :
  reparse.object (String "{" (logs.field key value +:+ rest))
  = reparse.members (String.length (logs.field key value +:+ rest))
      (logs.field key value +:+ rest) [].
Proof. reflexivity. Qed.

Lemma length_field value rest :
  (6 <= String.length (logs.field "timestamp" value +:+ rest))%nat.
Proof.
  unfold logs.field, quoted. rewrite !length_append. cbn [String.length].
  rewrite !length_append. cbn [String.length]. lia.
Qed.

(** An entry that JSON can carry reads back from its object. *)
Lemma element_json_Marshal_LogEntry e js k :
  faithful e = true ->
  logs.json_Marshal_LogEntry e = Ok js ->
  reparse.element (js +:+ k) = Some (e, k).
Proof.
  intros Hf Hjs. rewrite (json_Marshal_LogEntry_faithful e Hf) in Hjs.
  injection Hjs as <-.
  apply faithful_parts in Hf as (Hf & Hmsg & Hpod & Hcontainer & Hns & Hlevel).
  destruct e as [t msg pod container ns level].
  cbn [logs.LogEntry.Timestamp logs.LogEntry.Message logs.LogEntry.Pod
       logs.LogEntry.Container logs.LogEntry.Namespace logs.LogEntry.LogLevel] in *.
  assert (Hts : forall k', reparse.parseString
                             (quoted (time.Format_RFC3339Nano t) +:+ k')
                           = Some (time.Format_RFC3339Nano t, k'))
    by (intros k'; apply parseString_quoted, Format_safe, Hf).
  unfold reparse.element.
  rewrite !append_assoc, !append_cons, !append_nil.
  rewrite object_members.
  match goal with
  | |- context [reparse.members (String.length ?b) _ _] =>
      pose proof (length_field _ _ : (6 <= String.length b)%nat) as Hlen;
      generalize dependent (String.length b)
  end.
  intros fuel Hfuel.
  do 6 (destruct fuel as [|fuel]; [lia|]). clear Hfuel.
  set (fmt := time.Format_RFC3339Nano t) in *.
  rewrite (members_step _ "timestamp" _ fmt) by (reflexivity || exact Hts).
  change (byte_val "," =? 44) with true. cbv iota.
  rewrite (members_step _ "message" _ msg)
    by (reflexivity || (intros; now apply parseString_appendString)).
  change (byte_val "," =? 44) with true. cbv iota.
  rewrite (members_step _ "pod" _ pod)
    by (reflexivity || (intros; now apply parseString_appendString)).
  change (byte_val "," =? 44) with true. cbv iota.
  rewrite (members_step _ "container" _ container)
    by (reflexivity || (intros; now apply parseString_appendString)).
  change (byte_val "," =? 44) with true. cbv iota.
  destruct level as [|l level].
  - cbn [nonempty]. rewrite append_nil.
    rewrite (members_step _ "namespace" _ ns)
      by (reflexivity || (intros; now apply parseString_appendString)).
    change (byte_val "}" =? 44) with false. change (byte_val "}" =? 125) with true.
    cbv iota. cbn [app mbind option_bind].
    unfold reparse.entry, reparse.text. cbn [reparse.member String.eqb Ascii.eqb Bool.eqb].
    cbn [mbind option_bind]. subst fmt. rewrite (parseRFC3339_Format t Hf). reflexivity.
  - cbn [nonempty]. rewrite append_cons.
    rewrite (members_step _ "namespace" _ ns)
      by (reflexivity || (intros; now apply parseString_appendString)).
    change (byte_val "," =? 44) with true. cbv iota.
    rewrite (members_step _ "level" _ (String l level))
      by (reflexivity || (intros; now apply parseString_appendString)).
    change (byte_val "}" =? 44) with false. change (byte_val "}" =? 125) with true.
    cbv iota. cbn [app mbind option_bind].
    unfold reparse.entry, reparse.text. cbn [reparse.member String.eqb Ascii.eqb Bool.eqb].
    cbn [mbind option_bind]. subst fmt. rewrite (parseRFC3339_Format t Hf). reflexivity.
Qed.

(** *** Arrays and lines *)

Lemma json_Marshal_LogEntry_Ok e :
  faithful e = true -> exists js, logs.json_Marshal_LogEntry e = Ok js.
Proof. intros He. rewrite (json_Marshal_LogEntry_faithful e He). eexists. reflexivity. Qed.

Lemma json_Marshal_LogEntry_open e js :
  logs.json_Marshal_LogEntry e = Ok js -> exists js', js = String "{" js'.
Proof.
  unfold logs.json_Marshal_LogEntry. destruct (time.MarshalJSON _); [|discriminate].
  intros [= <-]. eexists. reflexivity.
Qed.

Lemma json_elements_length entries : forall n js,
  logs.json_elements (S n) entries = Ok js ->
  (List.length entries <= String.length js)%nat.
Proof.
  induction entries as [|e entries IH]; intros n js; cbn [logs.json_elements List.length];
    [intros; lia|].
  destruct (logs.json_Marshal_LogEntry e) as [je|]; [|discriminate].
  destruct (logs.json_elements (S (S n)) entries) as [jes|] eqn:E; [|discriminate].
  intros [= <-]. specialize (IH _ _ E). rewrite append_cons, append_nil.
  cbn [String.length]. rewrite length_append. lia.
Qed.

(** The elements of an array read back, the first one given apart. *)
Lemma elements_json_elements entries : forall n e je fuel acc k,
  faithful e = true -> Forall (fun e => faithful e = true) entries ->
  logs.json_Marshal_LogEntry e = Ok je ->
  (List.length entries < fuel)%nat ->
  exists js,
    logs.json_elements (S n) entries = Ok js /\
    reparse.elements fuel (je +:+ js +:+ String "]" k) acc
    = Some ((acc ++ e :: entries)%list, k).
Proof.
  induction entries as [|e1 entries IH]; intros n e je fuel acc k He Hall Hje Hfuel.
  - exists EmptyString. split; [reflexivity|].
    destruct fuel as [|fuel]; [cbn in Hfuel; lia|].
    rewrite append_nil. cbn [reparse.elements].
    rewrite (element_json_Marshal_LogEntry e je _ He Hje). reflexivity.
  - inversion Hall as [|? ? He1 Hall']; subst.
    destruct fuel as [|fuel]; [cbn in Hfuel; lia|]. cbn [List.length] in Hfuel.
    destruct (json_Marshal_LogEntry_Ok e1 He1) as (je1 & Hje1).
    destruct (IH (S n) e1 je1 fuel (acc ++ [e])%list k He1 Hall' Hje1 ltac:(lia))
      as (js & Hjs & Hread).
    eexists. split.
    + cbn [logs.json_elements]. rewrite Hje1, Hjs. reflexivity.
    + change (0 <? S n)%nat with true. cbv iota.
      rewrite !append_assoc, append_cons, append_nil.
      cbn [reparse.elements].
      rewrite (element_json_Marshal_LogEntry e je _ He Hje). cbn [mbind option_bind].
      rewrite Hread. rewrite <- app_assoc. reflexivity.
Qed.

Lemma array_open js rest :
  reparse.array (String "[" (String "{" js +:+ rest))
  = reparse.elements (String.length (String "{" js +:+ rest)) (String "{" js +:+ rest) [].
Proof. reflexivity. Qed.

Lemma lines_step fuel js rest acc :
  reparse.lines (S fuel) (String "{" js +:+ rest) acc
  = '(e, s1) ← reparse.element (String "{" js +:+ rest);
    match s1 with
    | String c s2 =>
        if byte_val c =? 10 then reparse.lines fuel s2 (acc ++ [e])%list else None
    | EmptyString => None
    end.
Proof. reflexivity. Qed.

Lemma exportToNDJSON_lines entries : forall fuel acc,
  Forall (fun e => faithful e = true) entries ->
  (List.length entries <= fuel)%nat ->
  exists out,
    logs.exportToNDJSON entries = (out, None) /\
    reparse.lines fuel out acc = Some (acc ++ entries)%list /\
    (List.length entries <= String.length out)%nat.
Proof.
  induction entries as [|e entries IH]; intros fuel acc Hall Hfuel.
  - exists EmptyString. rewrite app_nil_r.
    split; [reflexivity|]. split; [destruct fuel; reflexivity | cbn; lia].
  - inversion Hall as [|? ? He Hall']; subst.
    destruct fuel as [|fuel]; [cbn in Hfuel; lia|]. cbn [List.length] in Hfuel.
    destruct (json_Marshal_LogEntry_Ok e He) as (je & Hje).
    destruct (json_Marshal_LogEntry_open e _ Hje) as (js' & Hopen).
    destruct (IH fuel (acc ++ [e])%list Hall' ltac:(lia)) as (out & Hout & Hread & Hlen).
    eexists. cbn [logs.exportToNDJSON]. rewrite Hje. unfold logs.Encode. rewrite Hout.
    split; [reflexivity|]. split.
    + rewrite append_assoc, append_cons, append_nil.
      rewrite Hopen, lines_step, <- Hopen.
      rewrite (element_json_Marshal_LogEntry e _ _ He Hje). cbn [mbind option_bind].
      change (byte_val newline =? 10) with true. cbv iota.
      rewrite Hread, <- app_assoc. reflexivity.
    + rewrite !length_append. cbn [String.length List.length]. lia.
Qed.

Section Exports.
Context `{GoLibrary}.

(** C5, as the code has it: for entries that JSON can carry
    (timestamps of the calendar with a year of four digits, strings of valid
    UTF-8), the [json] and [ndjson] exports succeed and re-parse to the
    entries, field for field and in order; so they do for no entries. *)
Theorem ExportLogs_reparse entries :
  Forall (fun e => faithful e = true) entries ->
  (exists out, logs.ExportLogs entries "json" = (out, None) /\
               reparse.json out = Some entries) /\
  (exists out, logs.ExportLogs entries "ndjson" = (out, None) /\
               reparse.ndjson out = Some entries).
Proof.
  intros Hall. split.
  - change (logs.ExportLogs entries "json")
      with (logs.Encode (logs.json_Marshal_LogEntries entries)).
    destruct entries as [|e entries].
    + eexists. split; reflexivity.
    + inversion Hall as [|? ? He Hall']; subst.
      destruct (json_Marshal_LogEntry_Ok e He) as (je & Hje).
      destruct (json_Marshal_LogEntry_open e je Hje) as (je' & Hopen).
      destruct (elements_json_elements entries 0 e je (S (List.length entries)) []
                  EmptyString He Hall' Hje ltac:(lia)) as (js & Hjs & _).
      pose proof (json_elements_length entries 0 js Hjs) as Hlen.
      unfold logs.json_Marshal_LogEntries, logs.Encode.
      cbn [logs.json_elements]. rewrite Hje, Hjs.
      change (0 <? 0)%nat with false. cbv iota.
      eexists. split; [reflexivity|].
      rewrite !append_assoc, !append_cons, !append_nil.
      unfold reparse.json.
      rewrite Hopen, array_open, <- Hopen.
      destruct (elements_json_elements entries 0 e je
                  (String.length (je +:+ js +:+ String "]" (String newline EmptyString)))
                  [] (String newline EmptyString) He Hall' Hje)
        as (js2 & Hjs2 & Hread).
      { rewrite !length_append. cbn [String.length]. lia. }
      rewrite Hjs in Hjs2. injection Hjs2 as <-.
      rewrite Hread. reflexivity.
  - change (logs.ExportLogs entries "ndjson") with (logs.exportToNDJSON entries).
    destruct (exportToNDJSON_lines entries (List.length entries) [] Hall ltac:(lia))
      as (out & Hout & _ & Hlen).
    destruct (exportToNDJSON_lines entries (String.length out) [] Hall Hlen)
      as (out2 & Hout2 & Hread & _).
    rewrite Hout in Hout2. injection Hout2 as <-.
    exists out. split; [exact Hout | exact Hread].
Qed.

End Exports.

(** Two entries of the sample log, as [GetLogs] would return them with a
    clock that shows nanoseconds and a zone. *)
Lemma ExportLogs_reparse_witness :
  let e1 := logs.LogEntry.mk (mkTime 2025 3 14 9 26 53 589793000 (-330))
              "2024-01-01T10:00:00 INFO starting" "web" "" "default" "INFO" in
  let e2 := logs.LogEntry.mk (mkTime 2025 3 14 9 26 54 0 0)
              "no timestamp here ERROR failed" "web" "" "default" "ERROR" in
  Forall (fun e => faithful e = true) [e1; e2] /\
  (exists out, @logs.ExportLogs Sample.library [e1; e2] "json" = (out, None) /\
               reparse.json out = Some [e1; e2]).
Proof.
  intros e1 e2.
  assert (Hall : Forall (fun e => faithful e = true) [e1; e2])
    by (repeat constructor; vm_compute; reflexivity).
  split; [exact Hall|].
  exact (proj1 (@ExportLogs_reparse Sample.library [e1; e2] Hall)).
Defined.

(** C5 as stated fails on a string that is not valid UTF-8: each of
    the bytes 0xFF and 0xFE is written as the escape of U+FFFD, so that two
    different entries have the same export and no re-parsing can return both;
    a JSON reader returns the three bytes of U+FFFD for either. *)
Lemma ExportLogs_reparse_counterexample :
  let entry message :=
    logs.LogEntry.mk (mkTime 2025 3 14 9 26 53 0 0) message "web" "" "default" "" in
  let e1 := entry (String (byte_of 255) EmptyString) in
  let e2 := entry (String (byte_of 254) EmptyString) in
  let e3 := entry (String (byte_of 239) (String (byte_of 191)
                     (String (byte_of 189) EmptyString))) in
  e1 <> e2 /\ e1 <> e3 /\
  snd (@logs.ExportLogs Sample.library [e1] "json") = None /\
  @logs.ExportLogs Sample.library [e1] "json" = @logs.ExportLogs Sample.library [e2] "json" /\
  @logs.ExportLogs Sample.library [e1] "ndjson"
  = @logs.ExportLogs Sample.library [e2] "ndjson" /\
  reparse.json (fst (@logs.ExportLogs Sample.library [e1] "json")) = Some [e3] /\
  reparse.ndjson (fst (@logs.ExportLogs Sample.library [e1] "ndjson")) = Some [e3] /\
  ~ (exists reread : string -> option (list logs.LogEntry.t),
       forall entries,
         reread (fst (@logs.ExportLogs Sample.library entries "json")) = Some entries) /\
  ~ (exists reread : string -> option (list logs.LogEntry.t),
       forall entries,
         reread (fst (@logs.ExportLogs Sample.library entries "ndjson")) = Some entries).
Proof.
  intros entry e1 e2 e3.
  assert (Hne : e1 <> e2) by (intros Heq; vm_compute in Heq; discriminate Heq).
  assert (Hsame : @logs.ExportLogs Sample.library [e1] "json"
                  = @logs.ExportLogs Sample.library [e2] "json")
    by (vm_compute; reflexivity).
  assert (Hsame' : @logs.ExportLogs Sample.library [e1] "ndjson"
                   = @logs.ExportLogs Sample.library [e2] "ndjson")
    by (vm_compute; reflexivity).
  split; [exact Hne|].
  split; [intros Heq; vm_compute in Heq; discriminate Heq|].
  split; [vm_compute; reflexivity|]. split; [exact Hsame|]. split; [exact Hsame'|].
  split; [vm_compute; reflexivity|]. split; [vm_compute; reflexivity|].
  split; intros (reread & Hread);
    pose proof (Hread [e1]) as H1; pose proof (Hread [e2]) as H2.
  - rewrite Hsame, H2 in H1. injection H1 as H1. apply Hne. now symmetry.
  - rewrite Hsame', H2 in H1. injection H1 as H1. apply Hne. now symmetry.
Qed.

(** * Further properties of the code *)

(** ** Levels of parsed lines *)

(** The levels that [parseLogEntry] reports. *)
Definition levels : list string := ["INFO"; "ERROR"; "WARN"; "DEBUG"; "FATAL"].

(** Upper and lower case of a byte, as numbers. *)
Definition upperVal (v : Z) : Z := if (97 <=? v) && (v <=? 122) then v - 32 else v.

Lemma byte_val_upperByte c : byte_val (Strings.upperByte c) = upperVal (byte_val c).
Proof.
  unfold Strings.upperByte, upperVal, isLowerASCII, in_range.
  change (byte_val "a") with 97. change (byte_val "z") with 122.
  pose proof (byte_val_range c) as Hc.
  destruct ((97 <=? byte_val c) && (byte_val c <=? 122)) eqn:E; [|reflexivity].
  apply byte_val_of. lia.
Qed.

Lemma upperByte_eq c d :
  Strings.upperByte c = Strings.upperByte d <-> upperVal (byte_val c) = upperVal (byte_val d).
Proof.
  rewrite <- !byte_val_upperByte. split; [now intros ->|apply byte_val_inj].
Qed.

(** A byte that folds to a lower-case letter is that letter in either
    case. *)
Lemma lowerByte_letter c a :
  isLowerASCII a = true ->
  (byte_val (Strings.lowerByte c) =? byte_val a) = true ->
  byte_val c < RuneSelf /\ Strings.upperByte c = Strings.upperByte a /\
  Strings.lowerByte c = a.
Proof.
  intros Ha Hc. apply Z.eqb_eq in Hc.
  assert (Hl : Strings.lowerByte c = a) by now apply byte_val_inj.
  split; [|split; [|exact Hl]].
  - revert Ha Hc. unfold Strings.lowerByte, isLowerASCII, isUpperASCII, in_range, RuneSelf.
    change (byte_val "a") with 97. change (byte_val "z") with 122.
    change (byte_val "A") with 65. change (byte_val "Z") with 90.
    destruct ((65 <=? byte_val c) && (byte_val c <=? 90)) eqn:E; intros Ha Hc; lia.
  - apply upperByte_eq. revert Ha Hc.
    unfold Strings.lowerByte, isLowerASCII, isUpperASCII, in_range, upperVal.
    change (byte_val "a") with 97. change (byte_val "z") with 122.
    change (byte_val "A") with 65. change (byte_val "Z") with 90.
    pose proof (byte_val_range c) as Hr.
    destruct ((65 <=? byte_val c) && (byte_val c <=? 90)) eqn:E; intros Ha Hc.
    + rewrite byte_val_of in Hc by lia.
      replace ((97 <=? byte_val c) && (byte_val c <=? 122)) with false by lia.
      replace ((97 <=? byte_val a) && (byte_val a <=? 122)) with true by lia. lia.
    + now rewrite Hc.
Qed.

Lemma match_fold_word w : forall s m r,
  string_forallb isLowerASCII w = true ->
  Patterns.match_fold w s = Some (m, r) ->
  s = m +:+ r /\ isASCII m = true /\ string_map Strings.lowerByte m = w /\
  string_map Strings.upperByte m = string_map Strings.upperByte w.
Proof.
  induction w as [|a w IH]; intros s m r Hw; cbn [Patterns.match_fold].
  - intros [= <- <-]. repeat split.
  - destruct s as [|c s]; [discriminate|].
    cbn [string_forallb] in Hw. apply andb_prop in Hw as [Ha Hw].
    destruct (byte_val (Strings.lowerByte c) =? byte_val a) eqn:Ec; [|discriminate].
    destruct (Patterns.match_fold w s) as [[m' r']|] eqn:Em; [|discriminate].
    cbn. intros [= <- <-].
    destruct (IH _ _ _ Hw Em) as (-> & Hascii & Hlow & Hup).
    destruct (lowerByte_letter c a Ha Ec) as (Hc & Hu & Hl).
    repeat split.
    + unfold isASCII in *. cbn [string_forallb]. rewrite Hascii.
      now replace (byte_val c <? RuneSelf) with true by lia.
    + cbn [string_map]. now rewrite Hl, Hlow.
    + cbn [string_map]. now rewrite Hu, Hup.
Qed.

Lemma match_level_word ws : forall s m,
  Forall (fun w => string_forallb isLowerASCII w = true) ws ->
  Patterns.match_level ws s = Some m ->
  exists w r, In w ws /\ Patterns.match_fold w s = Some (m, r) /\
              Patterns.boundary_after r = true.
Proof.
  induction ws as [|w ws IH]; intros s m Hws; cbn [Patterns.match_level]; [discriminate|].
  inversion Hws as [|? ? Hw Hws']; subst.
  destruct (Patterns.match_fold w s) as [[m' r']|] eqn:Em.
  - destruct (Patterns.boundary_after r') eqn:Eb.
    + intros [= <-]. exists w, r'. split; [now left | now split].
    + intros Hm. destruct (IH _ _ Hws' Hm) as (w' & r & Hin & Hf).
      exists w', r. split; [now right | exact Hf].
  - intros Hm. destruct (IH _ _ Hws' Hm) as (w' & r & Hin & Hf).
    exists w', r. split; [now right | exact Hf].
Qed.

(** Whether a text, read after a byte that is a word character or not
    ([prev]), ends in a word character. *)
Fixpoint endsInWord (prev : bool) (s : string) : bool :=
  match s with
  | EmptyString => prev
  | String c s' => endsInWord (Patterns.isWordChar c) s'
  end.

(** What the level pattern finds is nothing, or an occurrence in the
    line of one of the five words in some mix of cases, with no word
    character next to it on either side. *)
Lemma logLevelRegex_find_word line : forall prevWord,
  Patterns.logLevelRegex_find prevWord line = EmptyString \/
  exists pre post w,
    line = pre +:+ Patterns.logLevelRegex_find prevWord line +:+ post /\
    In w Patterns.levelWords /\
    isASCII (Patterns.logLevelRegex_find prevWord line) = true /\
    string_map Strings.lowerByte (Patterns.logLevelRegex_find prevWord line) = w /\
    string_map Strings.upperByte (Patterns.logLevelRegex_find prevWord line)
    = string_map Strings.upperByte w /\
    endsInWord prevWord pre = false /\ Patterns.boundary_after post = true.
Proof.
  induction line as [|c line IH]; intros prevWord; [now left|].
  cbn [Patterns.logLevelRegex_find].
  assert (Hrec : prevWord = true \/
                 Patterns.match_level Patterns.levelWords (String c line) = None ->
    Patterns.logLevelRegex_find (Patterns.isWordChar c) line = EmptyString \/
    exists pre post w,
      String c line = pre +:+ Patterns.logLevelRegex_find (Patterns.isWordChar c) line
                      +:+ post /\
      In w Patterns.levelWords /\
      isASCII (Patterns.logLevelRegex_find (Patterns.isWordChar c) line) = true /\
      string_map Strings.lowerByte (Patterns.logLevelRegex_find (Patterns.isWordChar c) line)
      = w /\
      string_map Strings.upperByte (Patterns.logLevelRegex_find (Patterns.isWordChar c) line)
      = string_map Strings.upperByte w /\
      endsInWord prevWord pre = false /\ Patterns.boundary_after post = true).
  { intros _.
    destruct (IH (Patterns.isWordChar c))
      as [He|(pre & post & w & Hl & Hin & Ha & Hlo & Hup & Hpre & Hpost)]; [now left|right].
    exists (String c pre), post, w. rewrite append_cons, <- Hl.
    repeat split; assumption. }
  destruct prevWord; [apply Hrec; now left|].
  destruct (Patterns.match_level Patterns.levelWords (String c line)) as [m|] eqn:Em;
    [|apply Hrec; now right].
  right.
  destruct (match_level_word Patterns.levelWords (String c line) m)
    as (w & r & Hin & Hf & Hb); [repeat constructor | exact Em |].
  assert (Hw : string_forallb isLowerASCII w = true).
  { cbn in Hin. intuition subst; reflexivity. }
  destruct (match_fold_word w _ _ _ Hw Hf) as (Hs & Hascii & Hlow & Hup).
  exists EmptyString, r, w. rewrite append_nil. repeat split; assumption.
Qed.

Section Levels.
Context `{GoLibrary} `{!Backend}.

(** The level of an entry, from the line. *)
Lemma parseLogEntry_LogLevel line pod container namespace w :
  logs.LogEntry.LogLevel (fst (logs.parseLogEntry line pod container namespace w))
  = let m := Patterns.logLevelRegex_FindString line in
    if nonempty m then Strings.ToUpper m else EmptyString.
Proof.
  unfold logs.parseLogEntry, bind, ret, time_Now. cbn [fst].
  destruct (nonempty (Patterns.timestampRegex_FindString line));
    [destruct (time.Parse_RFC3339 _)|]; reflexivity.
Qed.

Lemma upper_levelWords w :
  In w Patterns.levelWords -> In (string_map Strings.upperByte w) levels.
Proof. cbn. intuition subst; cbn; tauto. Qed.

Lemma LogLevel_cases line pod container namespace w :
  let level :=
    logs.LogEntry.LogLevel (fst (logs.parseLogEntry line pod container namespace w)) in
  (level = EmptyString \/ In level levels) /\
  (level <> EmptyString ->
   exists pre word post,
     line = pre +:+ word +:+ post /\
     In (string_map Strings.lowerByte word) Patterns.levelWords /\
     level = string_map Strings.upperByte word /\
     endsInWord false pre = false /\ Patterns.boundary_after post = true).
Proof.
  cbv zeta. rewrite parseLogEntry_LogLevel. cbv zeta.
  unfold Patterns.logLevelRegex_FindString.
  destruct (logLevelRegex_find_word line false)
    as [He|(pre & post & lw & Hl & Hin & Hascii & Hlow & Hup & Hpre & Hpost)].
  - rewrite He. cbn. split; [now left | congruence].
  - set (m := Patterns.logLevelRegex_find false line) in *.
    destruct (nonempty m) eqn:Hne; [|split; [now left | congruence]].
    unfold Strings.ToUpper. rewrite Hascii, Hup. split.
    + right. now apply upper_levelWords.
    + intros _. exists pre, m, post. rewrite Hlow, Hup. repeat split; assumption.
Qed.

(** X1: the level of a parsed line is empty or one of [INFO], [ERROR],
    [WARN], [DEBUG] and [FATAL]; when it is not empty, the line holds one of
    the five words in some mix of cases, with no letter, digit or underscore
    next to it on either side, and the level is that occurrence in upper
    case. *)
Theorem parseLogEntry_level line pod container namespace w :
  let level :=
    logs.LogEntry.LogLevel (fst (logs.parseLogEntry line pod container namespace w)) in
  (level = EmptyString \/ In level levels) /\
  (level <> EmptyString ->
   exists pre word post,
     line = pre +:+ word +:+ post /\
     In (string_map Strings.lowerByte word) Patterns.levelWords /\
     level = string_map Strings.upperByte word /\
     endsInWord false pre = false /\ Patterns.boundary_after post = true).
Proof. exact (LogLevel_cases line pod container namespace w). Qed.

End Levels.

(** ** The message of a parsed line *)

Lemma rev_app_append s : forall acc, String.rev_app s acc = String.rev s +:+ acc.
Proof.
  unfold String.rev. induction s as [|c s IH]; intros acc; [reflexivity|].
  cbn [String.rev_app]. rewrite (IH (String c acc)), (IH (String c EmptyString)).
  now rewrite append_assoc.
Qed.

Lemma rev_cons c s : String.rev (String c s) = String.rev s +:+ String c EmptyString.
Proof. unfold String.rev at 1. cbn [String.rev_app]. apply rev_app_append. Qed.

Lemma rev_append a b : String.rev (a +:+ b) = String.rev b +:+ String.rev a.
Proof.
  induction a as [|c a IH]; [now rewrite append_nil, append_empty_r|].
  rewrite append_cons, !rev_cons, IH. now rewrite append_assoc.
Qed.

Lemma rev_rev s : String.rev (String.rev s) = s.
Proof.
  induction s as [|c s IH]; [reflexivity|].
  rewrite rev_cons, rev_append, IH. reflexivity.
Qed.

Lemma string_forallb_rev p s : string_forallb p (String.rev s) = string_forallb p s.
Proof.
  induction s as [|c s IH]; [reflexivity|].
  rewrite rev_cons, forallb_append, IH. cbn [string_forallb].
  rewrite andb_true_r. apply andb_comm.
Qed.

(** The first loop of [TrimSpace] on an ASCII text: the white space in
    front is skipped, up to a byte that is none. *)
Lemma skipSpace_ASCII s :
  isASCII s = true ->
  exists pre rest,
    Strings.skipSpace s = (false, rest) /\ s = pre +:+ rest /\
    string_forallb Strings.asciiSpace pre = true /\
    match rest with
    | EmptyString => True
    | String c _ => Strings.asciiSpace c = false
    end.
Proof.
  unfold isASCII. induction s as [|c s IH]; intros Hs.
  - exists EmptyString, EmptyString. repeat split.
  - cbn [string_forallb] in Hs. apply andb_prop in Hs as [Hc Hs].
    cbn [Strings.skipSpace]. replace (RuneSelf <=? byte_val c) with false by lia.
    destruct (Strings.asciiSpace c) eqn:Ec.
    + destruct (IH Hs) as (pre & rest & Hskip & -> & Hpre & Hrest).
      exists (String c pre), rest. rewrite Hskip. cbn [string_forallb].
      rewrite Ec, Hpre. repeat split. exact Hrest.
    + exists EmptyString, (String c s). repeat split. exact Ec.
Qed.

Section Message.
Context `{GoLibrary} `{!Backend}.

Lemma parseLogEntry_Message line pod container namespace w :
  logs.LogEntry.Message (fst (logs.parseLogEntry line pod container namespace w))
  = Strings.TrimSpace line.
Proof. reflexivity. Qed.

Lemma TrimSpace_ASCII line :
  isASCII line = true ->
  exists pre post,
    line = pre +:+ Strings.TrimSpace line +:+ post /\
    string_forallb Strings.asciiSpace pre = true /\
    string_forallb Strings.asciiSpace post = true /\
    (forall c s, Strings.TrimSpace line = String c s -> Strings.asciiSpace c = false) /\
    (forall s c, Strings.TrimSpace line = s +:+ String c EmptyString ->
                 Strings.asciiSpace c = false).
Proof.
  intros Hline. unfold Strings.TrimSpace.
  destruct (skipSpace_ASCII line Hline) as (pre & rest & -> & -> & Hpre & Hrest).
  assert (Hr : isASCII (String.rev rest) = true).
  { unfold isASCII in *. rewrite string_forallb_rev.
    rewrite forallb_append in Hline. now apply andb_prop in Hline as [_ ?]. }
  destruct (skipSpace_ASCII _ Hr) as (post & mid & -> & Hrev & Hpost & Hmid).
  assert (Hrest' : rest = String.rev mid +:+ String.rev post).
  { rewrite <- (rev_rev rest), Hrev. apply rev_append. }
  exists pre, (String.rev post). subst rest.
  split; [reflexivity|]. split; [exact Hpre|].
  split; [now rewrite string_forallb_rev|]. split.
  - intros c s Hm. rewrite Hm in Hrest. rewrite append_cons in Hrest. exact Hrest.
  - intros s c Hm.
    assert (Hmid' : mid = String c (String.rev s)).
    { rewrite <- (rev_rev mid), Hm, rev_append. reflexivity. }
    rewrite Hmid' in Hmid. exact Hmid.
Qed.

(** X2: the message of a parsed line in ASCII is the line without the
    white space (space, tab, line feed, vertical tab, form feed, carriage
    return) at its two ends: the line is white space, the message, white
    space, and the message neither starts nor ends with white space. *)
Theorem parseLogEntry_message line pod container namespace w :
  isASCII line = true ->
  let message :=
    logs.LogEntry.Message (fst (logs.parseLogEntry line pod container namespace w)) in
  exists pre post,
    line = pre +:+ message +:+ post /\
    string_forallb Strings.asciiSpace pre = true /\
    string_forallb Strings.asciiSpace post = true /\
    (forall c s, message = String c s -> Strings.asciiSpace c = false) /\
    (forall s c, message = s +:+ String c EmptyString -> Strings.asciiSpace c = false).
Proof.
  intros Hline. cbv zeta. rewrite parseLogEntry_Message. now apply TrimSpace_ASCII.
Qed.

End Message.

(** ** The log stream *)

Section Stream.
Context `{GoLibrary} `{!Backend}.

(** ... and on a stream that opens, with a pattern that compiles. *)
Lemma GetLogs_stream_lines opts w lines tail fin re :
  pods_GetLogs_Stream (logs.LogOptions.Namespace opts) (logs.LogOptions.Pod opts)
    (podLogOptions opts) = Ok (mkStream (unlines lines +:+ tail) fin) ->
  Forall is_line lines -> no_newline tail = true ->
  compiled opts = Ok re ->
  logs.GetLogs opts w =
  (match fin with
   | None => Ok (List.filter (passes_loop re opts) (entries_from opts (ticks w) lines))
   | Some err => Err ("error reading logs: " +:+ err)
   end,
   mkWorld (events w ++ open opts :: repeat Call_ReadString (S (List.length lines))
              ++ [Call_Close])%list
     (ticks w + List.length lines)).
Proof.
  intros Hs Hl Ht Hc.
  rewrite GetLogs_run, Hs, Hc. rewrite (readLoop_lines _ _ _ _ _ _ _ Hl Ht).
  cbn [events ticks app]. f_equal. f_equal.
  rewrite <- !app_assoc. reflexivity.
Qed.

(** The number of newline bytes of a text. *)
Fixpoint newlines (s : string) : nat :=
  match s with
  | EmptyString => 0
  | String c s' => (if byte_val c =? 10 then 1 else 0) + newlines s'
  end.

Lemma newlines_append a b : newlines (a +:+ b) = (newlines a + newlines b)%nat.
Proof.
  induction a as [|c a IH]; [reflexivity|].
  rewrite append_cons. cbn [newlines]. rewrite IH. lia.
Qed.

Lemma newlines_no_newline s : no_newline s = true -> newlines s = 0%nat.
Proof.
  unfold no_newline. induction s as [|c s IH]; [reflexivity|].
  cbn [string_existsb newlines]. destruct (byte_val c =? 10); [discriminate|].
  intros Hs. now rewrite IH.
Qed.

Lemma newlines_line l : is_line l -> newlines l = 1%nat.
Proof.
  unfold is_line. induction l as [|c l IH]; [discriminate|].
  cbn [bufio.cut newlines]. destruct (byte_val c =? 10).
  - intros Heq. injection Heq as Hl _. subst l. reflexivity.
  - destruct (bufio.cut l) as [[l1 r1]|]; [|discriminate]. cbn.
    intros [= -> ->]. now rewrite IH.
Qed.

Lemma newlines_unlines lines tail :
  Forall is_line lines -> no_newline tail = true ->
  newlines (unlines lines +:+ tail) = List.length lines.
Proof.
  intros Hl Ht. rewrite newlines_append, (newlines_no_newline _ Ht), Nat.add_0_r.
  induction Hl as [|l lines Hline Hl IH]; [reflexivity|].
  change (unlines (l :: lines)) with (l +:+ unlines lines).
  rewrite newlines_append, (newlines_line _ Hline), IH. reflexivity.
Qed.

(** The loop's test and the test from the options agree. *)
Lemma passes_loop_compiled opts re e :
  compiled opts = Ok re -> passes_loop re opts e = passes opts e.
Proof.
  unfold compiled, passes_loop, passes.
  destruct (nonempty (logs.LogOptions.Pattern opts)).
  - destruct (regexp_Compile _); intros [= <-]; reflexivity.
  - intros [= <-]. reflexivity.
Qed.

(** X3: [GetLogs] opens the stream once, with the container, the
    since time, the since seconds and the tail of its options and without
    following.  When the stream does not open it returns the error and
    touches nothing else.  When it opens, [GetLogs] reads it once per newline
    and once more, reads the clock once per newline, and closes the stream
    once, after the last read; with a pattern that does not compile it
    closes the stream unread. *)
Theorem GetLogs_stream_protocol opts w :
  match pods_GetLogs_Stream (logs.LogOptions.Namespace opts) (logs.LogOptions.Pod opts)
          (podLogOptions opts) with
  | Err err =>
      logs.GetLogs opts w
      = (Err ("error opening log stream: " +:+ err),
         mkWorld (events w ++ [open opts]) (ticks w))
  | Ok stream =>
      let lines := newlines (pending stream) in
      snd (logs.GetLogs opts w)
      = if is_Ok (compiled opts)
        then mkWorld (events w ++ open opts :: repeat Call_ReadString (S lines)
                        ++ [Call_Close])%list
               (ticks w + lines)
        else mkWorld (events w ++ [open opts; Call_Close]) (ticks w)
  end.
Proof.
  destruct (pods_GetLogs_Stream _ _ _) as [[content fin]|err] eqn:Hs.
  - cbv zeta. cbn [pending].
    destruct (compiled opts) as [re|cerr] eqn:Hc; cbn [is_Ok].
    + destruct (content_lines content) as (lines & tail & -> & Hl & Ht).
      rewrite (GetLogs_stream_lines opts w lines tail fin re Hs Hl Ht Hc).
      now rewrite newlines_unlines.
    + rewrite GetLogs_run, Hs, Hc. reflexivity.
  - rewrite GetLogs_run, Hs. reflexivity.
Qed.

(** X4: when a read of the stream fails, [GetLogs] returns that error
    and none of the entries read before it. *)
Theorem GetLogs_read_error opts w content err :
  pods_GetLogs_Stream (logs.LogOptions.Namespace opts) (logs.LogOptions.Pod opts)
    (podLogOptions opts) = Ok (mkStream content (Some err)) ->
  is_Ok (compiled opts) = true ->
  fst (logs.GetLogs opts w) = Err ("error reading logs: " +:+ err).
Proof.
  intros Hs Hc. destruct (compiled opts) as [re|] eqn:Hre; [|discriminate].
  destruct (content_lines content) as (lines & tail & -> & Hl & Ht).
  now rewrite (GetLogs_stream_lines opts w lines tail (Some err) re Hs Hl Ht Hre).
Qed.

(** The options without the two filters. *)
Definition unfiltered (opts : logs.LogOptions.t) : logs.LogOptions.t :=
  logs.LogOptions.mk (logs.LogOptions.Namespace opts) (logs.LogOptions.Pod opts)
    (logs.LogOptions.Container opts) (logs.LogOptions.SinceTime opts)
    (logs.LogOptions.SinceSeconds opts) (logs.LogOptions.Tail opts) EmptyString EmptyString.

Lemma entries_from_unfiltered opts tick lines :
  entries_from (unfiltered opts) tick lines = entries_from opts tick lines.
Proof.
  revert tick; induction lines as [|l lines IH]; intros tick; [reflexivity|].
  cbn [entries_from]. now rewrite IH.
Qed.

Lemma filter_all {A} (p : A -> bool) l : (forall x, p x = true) -> List.filter p l = l.
Proof.
  intros Hp. induction l as [|x l IH]; [reflexivity|]. cbn. now rewrite Hp, IH.
Qed.

(** X5: retrieval with a pattern and a level filter returns the
    entries that retrieval without them returns, filtered by the two tests,
    after the same calls and clock readings (the pattern compiling). *)
Theorem GetLogs_filters_commute opts w :
  is_Ok (compiled opts) = true ->
  logs.GetLogs opts w
  = (match fst (logs.GetLogs (unfiltered opts) w) with
     | Ok entries => Ok (List.filter (passes opts) entries)
     | Err err => Err err
     end,
     snd (logs.GetLogs (unfiltered opts) w)).
Proof.
  intros Hc. destruct (compiled opts) as [re|] eqn:Hre; [|discriminate].
  destruct (pods_GetLogs_Stream (logs.LogOptions.Namespace opts) (logs.LogOptions.Pod opts)
              (podLogOptions opts)) as [[content fin]|err] eqn:Hs.
  - destruct (content_lines content) as (lines & tail & -> & Hl & Ht).
    rewrite (GetLogs_stream_lines opts w lines tail fin re Hs Hl Ht Hre).
    rewrite (GetLogs_stream_lines (unfiltered opts) w lines tail fin None Hs Hl Ht eq_refl).
    cbn [fst snd]. rewrite entries_from_unfiltered. f_equal.
    destruct fin; [reflexivity|]. f_equal.
    rewrite (filter_all (passes_loop None (unfiltered opts))) by reflexivity.
    apply List.filter_ext. intros e. now apply passes_loop_compiled.
  - rewrite !GetLogs_run. change (podLogOptions (unfiltered opts)) with (podLogOptions opts).
    cbn [logs.LogOptions.Namespace logs.LogOptions.Pod unfiltered]. rewrite Hs. reflexivity.
Qed.

End Stream.

(** ** The level filter *)

Lemma lor_below_RuneSelf a b :
  0 <= a < RuneSelf -> 0 <= b < RuneSelf -> Z.lor a b < RuneSelf.
Proof.
  unfold RuneSelf. intros Ha Hb.
  destruct (Z.eq_dec (Z.lor a b) 0) as [->|Hz]; [lia|].
  assert (H0 : 0 <= Z.lor a b) by (apply Z.lor_nonneg; lia).
  change 128 with (2 ^ 7). apply Z.log2_lt_pow2; [lia|].
  rewrite Z.log2_lor by lia.
  assert (La : Z.log2 a < 7).
  { destruct (Z.eq_dec a 0) as [->|]; [cbn; lia|]. apply Z.log2_lt_pow2; lia. }
  assert (Lb : Z.log2 b < 7).
  { destruct (Z.eq_dec b 0) as [->|]; [cbn; lia|]. apply Z.log2_lt_pow2; lia. }
  lia.
Qed.

Section LevelFilter.
Context `{GoLibrary} `{!Backend}.

(** On ASCII texts [EqualFold] compares the upper-case forms. *)
Lemma EqualFold_ASCII s : forall t,
  isASCII s = true -> isASCII t = true ->
  Strings.EqualFold s t = true <->
  string_map Strings.upperByte s = string_map Strings.upperByte t.
Proof.
  unfold isASCII.
  induction s as [|sr s IH]; intros [|tr t] Hs Ht; cbn [Strings.EqualFold string_map];
    try (split; [discriminate | discriminate]); [tauto|].
  cbn [string_forallb] in Hs, Ht.
  apply andb_prop in Hs as [Hsr Hs]. apply andb_prop in Ht as [Htr Ht].
  pose proof (byte_val_range sr) as Rs. pose proof (byte_val_range tr) as Rt.
  pose proof (lor_below_RuneSelf (byte_val sr) (byte_val tr) ltac:(lia) ltac:(lia)) as Hlor.
  replace (RuneSelf <=? Z.lor (byte_val sr) (byte_val tr)) with false by lia.
  specialize (IH t Hs Ht).
  assert (Hhead : forall P : Prop,
            (String (Strings.upperByte sr) (string_map Strings.upperByte s)
             = String (Strings.upperByte tr) (string_map Strings.upperByte t)) <->
            (upperVal (byte_val sr) = upperVal (byte_val tr) /\
             string_map Strings.upperByte s = string_map Strings.upperByte t)).
  { intros _. rewrite <- upperByte_eq. split; [intros [= -> ->]; now split|].
    intros [-> ->]. reflexivity. }
  rewrite (Hhead True). clear Hhead.
  unfold upperVal, RuneSelf, isUpperASCII, in_range in *.
  change (byte_val "A") with 65. change (byte_val "Z") with 90.
  destruct (byte_val tr =? byte_val sr) eqn:E1.
  - rewrite IH. apply Z.eqb_eq in E1. rewrite E1. tauto.
  - destruct (byte_val tr <? byte_val sr) eqn:E2.
    + destruct ((65 <=? byte_val tr) && (byte_val tr <=? 90) &&
                (byte_val sr =? byte_val tr + 32)) eqn:E3.
      * rewrite IH. split; [intros Hr; split; [|exact Hr]|tauto].
        replace ((97 <=? byte_val sr) && (byte_val sr <=? 122)) with true by lia.
        replace ((97 <=? byte_val tr) && (byte_val tr <=? 122)) with false by lia. lia.
      * split; [discriminate|]. intros [Hu _]. exfalso.
        destruct ((97 <=? byte_val sr) && (byte_val sr <=? 122)) eqn:E4;
          destruct ((97 <=? byte_val tr) && (byte_val tr <=? 122)) eqn:E5; lia.
    + destruct ((65 <=? byte_val sr) && (byte_val sr <=? 90) &&
                (byte_val tr =? byte_val sr + 32)) eqn:E3.
      * rewrite IH. split; [intros Hr; split; [|exact Hr]|tauto].
        replace ((97 <=? byte_val tr) && (byte_val tr <=? 122)) with true by lia.
        replace ((97 <=? byte_val sr) && (byte_val sr <=? 122)) with false by lia. lia.
      * split; [discriminate|]. intros [Hu _]. exfalso.
        destruct ((97 <=? byte_val sr) && (byte_val sr <=? 122)) eqn:E4;
          destruct ((97 <=? byte_val tr) && (byte_val tr <=? 122)) eqn:E5; lia.
Qed.

(** The levels are ASCII and in upper case already. *)
Lemma levels_upper level :
  level = EmptyString \/ In level levels ->
  isASCII level = true /\ string_map Strings.upperByte level = level.
Proof. cbn. intuition subst; split; reflexivity. Qed.

(** The level test of the loop, for a filter in ASCII: the entry's level
    is the filter in upper case. *)
Lemma level_test opts tick line :
  isASCII (logs.LogOptions.LogLevel opts) = true ->
  Strings.EqualFold (logs.LogEntry.LogLevel (entry_at opts tick line))
    (logs.LogOptions.LogLevel opts) = true <->
  logs.LogEntry.LogLevel (entry_at opts tick line)
  = Strings.ToUpper (logs.LogOptions.LogLevel opts).
Proof.
  intros Hf. unfold entry_at.
  destruct (LogLevel_cases line (logs.LogOptions.Pod opts) (logs.LogOptions.Container opts)
              (logs.LogOptions.Namespace opts) (mkWorld [] tick)) as [Hcases _].
  cbv zeta in Hcases. destruct (levels_upper _ Hcases) as [Hascii Hup].
  rewrite (EqualFold_ASCII _ _ Hascii Hf), Hup.
  unfold Strings.ToUpper. now rewrite Hf.
Qed.

Lemma entries_from_In opts lines : forall tick e,
  In e (entries_from opts tick lines) -> exists tick' line, e = entry_at opts tick' line.
Proof.
  induction lines as [|l lines IH]; intros tick e; cbn [entries_from In]; [tauto|].
  intros [<-|Hin]; [now exists tick, l | eapply IH, Hin].
Qed.

(** What [GetLogs] returns, when it returns entries. *)
Lemma GetLogs_Ok opts w entries :
  fst (logs.GetLogs opts w) = Ok entries ->
  exists re lines,
    compiled opts = Ok re /\
    entries = List.filter (passes_loop re opts) (entries_from opts (ticks w) lines).
Proof.
  rewrite GetLogs_run.
  destruct (pods_GetLogs_Stream _ _ _) as [[content fin]|err] eqn:Hs; [|discriminate].
  destruct (compiled opts) as [re|cerr] eqn:Hc; [|discriminate].
  destruct (content_lines content) as (lines & tail & -> & Hl & Ht).
  rewrite (readLoop_lines _ _ _ _ _ _ _ Hl Ht). cbn [fst events ticks].
  destruct fin; [discriminate|]. intros [= <-]. now exists re, lines.
Qed.

Lemma ToUpper_nonempty s : nonempty s = true -> isASCII s = true -> Strings.ToUpper s <> EmptyString.
Proof. unfold Strings.ToUpper. intros Hn ->. destruct s; [discriminate|]. discriminate. Qed.

(** X6: with a level filter in ASCII, every entry that [GetLogs] returns
    has the filter, in upper case, as its level; so lines without a level
    are dropped, and a filter that is none of the five levels leaves no
    entry. *)
Theorem GetLogs_level_filter opts w entries :
  nonempty (logs.LogOptions.LogLevel opts) = true ->
  isASCII (logs.LogOptions.LogLevel opts) = true ->
  fst (logs.GetLogs opts w) = Ok entries ->
  Forall (fun e => logs.LogEntry.LogLevel e = Strings.ToUpper (logs.LogOptions.LogLevel opts))
    entries /\
  (In (Strings.ToUpper (logs.LogOptions.LogLevel opts)) levels \/ entries = []).
Proof.
  intros Hne Hascii Hrun.
  destruct (GetLogs_Ok opts w entries Hrun) as (re & lines & Hc & ->).
  assert (Hall : Forall (fun e => logs.LogEntry.LogLevel e
                                  = Strings.ToUpper (logs.LogOptions.LogLevel opts))
                   (List.filter (passes_loop re opts) (entries_from opts (ticks w) lines))).
  { apply List.Forall_forall. intros e He. apply List.filter_In in He as [Hin Hp].
    destruct (entries_from_In _ _ _ _ Hin) as (tick & line & ->).
    apply level_test; [exact Hascii|].
    unfold passes_loop in Hp. rewrite Hne in Hp. cbn [negb orb] in Hp.
    now apply andb_prop in Hp as [_ Hp]. }
  split; [exact Hall|].
  destruct (List.filter _ _) as [|e rest] eqn:Ef; [now right|left].
  assert (Hin : In e (entries_from opts (ticks w) lines)).
  { eapply proj1, List.filter_In. rewrite Ef. now left. }
  destruct (entries_from_In _ _ _ _ Hin) as (tick & line & ->).
  inversion Hall as [|? ? He _]; subst.
  destruct (LogLevel_cases line (logs.LogOptions.Pod opts) (logs.LogOptions.Container opts)
              (logs.LogOptions.Namespace opts) (mkWorld [] tick)) as [[Hempty|Hlevel] _].
  - exfalso. unfold entry_at in He. rewrite Hempty in He.
    now apply (ToUpper_nonempty _ Hne Hascii).
  - unfold entry_at in He. now rewrite <- He.
Qed.

End LevelFilter.

(** ** Exports that fail, exports of a concatenation *)

Section Formats.
Context `{GoLibrary}.

(** The entries whose timestamps JSON can carry. *)
Definition carried (entries : list logs.LogEntry.t) : bool :=
  forallb (fun e => representable (logs.LogEntry.Timestamp e)) entries.

Lemma MarshalJSON_is_Ok t : is_Ok (time.MarshalJSON t) = representable t.
Proof.
  unfold representable, time.MarshalJSON.
  destruct (year t <? 0) eqn:E1; cbn [orb].
  { replace (0 <=? year t) with false by lia. reflexivity. }
  destruct (9999 <? year t) eqn:E2.
  { replace (year t <=? 9999) with false by lia. now rewrite andb_false_r. }
  replace (0 <=? year t) with true by lia. replace (year t <=? 9999) with true by lia.
  cbn [andb].
  destruct (24 <=? Z.abs (zone t) / 60) eqn:E3.
  - now replace (Z.abs (zone t) / 60 <? 24) with false by lia.
  - now replace (Z.abs (zone t) / 60 <? 24) with true by lia.
Qed.

Lemma json_Marshal_LogEntry_is_Ok e :
  is_Ok (logs.json_Marshal_LogEntry e) = representable (logs.LogEntry.Timestamp e).
Proof.
  unfold logs.json_Marshal_LogEntry. rewrite <- MarshalJSON_is_Ok.
  destruct (time.MarshalJSON _); reflexivity.
Qed.

Lemma json_elements_is_Ok entries : forall n,
  is_Ok (logs.json_elements n entries) = carried entries.
Proof.
  induction entries as [|e entries IH]; intros n; [reflexivity|].
  cbn [logs.json_elements carried forallb]. rewrite <- json_Marshal_LogEntry_is_Ok.
  destruct (logs.json_Marshal_LogEntry e); [|reflexivity].
  fold (carried entries). rewrite <- (IH (S n)).
  destruct (logs.json_elements (S n) entries); reflexivity.
Qed.

Lemma json_Marshal_LogEntries_is_Ok entries :
  is_Ok (logs.json_Marshal_LogEntries entries) = carried entries.
Proof.
  unfold logs.json_Marshal_LogEntries. destruct entries as [|e entries]; [reflexivity|].
  rewrite <- (json_elements_is_Ok (e :: entries) 0).
  destruct (logs.json_elements 0 (e :: entries)); reflexivity.
Qed.

Lemma exportToNDJSON_is_Ok entries :
  match snd (logs.exportToNDJSON entries) with None => true | Some _ => false end
  = carried entries.
Proof.
  induction entries as [|e entries IH]; [reflexivity|].
  cbn [logs.exportToNDJSON carried forallb]. rewrite <- json_Marshal_LogEntry_is_Ok.
  unfold logs.Encode. destruct (logs.json_Marshal_LogEntry e); [|reflexivity].
  fold (carried entries). rewrite <- IH.
  destruct (logs.exportToNDJSON entries) as [out err]. reflexivity.
Qed.

Lemma ExportLogs_json entries :
  logs.ExportLogs entries "json" = logs.Encode (logs.json_Marshal_LogEntries entries).
Proof. reflexivity. Qed.

Lemma ExportLogs_csv entries : logs.ExportLogs entries "csv" = logs.exportToCSV entries.
Proof. reflexivity. Qed.

Lemma ExportLogs_ndjson entries :
  logs.ExportLogs entries "ndjson" = logs.exportToNDJSON entries.
Proof. reflexivity. Qed.

Lemma ExportLogs_plaintext entries :
  logs.ExportLogs entries "plaintext" = logs.exportToPlaintext entries.
Proof. reflexivity. Qed.

Lemma ExportLogs_text entries :
  logs.ExportLogs entries "text" = logs.exportToPlaintext entries.
Proof. reflexivity. Qed.

(** X7: the [json] and the [ndjson] export fail exactly when some
    entry has a timestamp that JSON cannot carry (a year outside 0..9999 or
    a zone of a day or more); the [csv], [plaintext] and [text] exports
    never fail. *)
Theorem ExportLogs_fails entries :
  (snd (logs.ExportLogs entries "json") = None <-> carried entries = true) /\
  (snd (logs.ExportLogs entries "ndjson") = None <-> carried entries = true) /\
  snd (logs.ExportLogs entries "csv") = None /\
  snd (logs.ExportLogs entries "plaintext") = None /\
  snd (logs.ExportLogs entries "text") = None.
Proof.
  rewrite ExportLogs_json, ExportLogs_ndjson, ExportLogs_csv, ExportLogs_plaintext,
    ExportLogs_text.
  split; [|split; [|split; [reflexivity|split; apply exportToPlaintext_no_error]]].
  - rewrite <- json_Marshal_LogEntries_is_Ok. unfold logs.Encode.
    destruct (logs.json_Marshal_LogEntries entries); cbn; split; congruence.
  - rewrite <- exportToNDJSON_is_Ok.
    destruct (snd (logs.exportToNDJSON entries)); split; congruence.
Qed.

Lemma exportToNDJSON_app a b :
  snd (logs.exportToNDJSON a) = None ->
  logs.exportToNDJSON (a ++ b)
  = (fst (logs.exportToNDJSON a) +:+ fst (logs.exportToNDJSON b),
     snd (logs.exportToNDJSON b)).
Proof.
  induction a as [|e a IH]; intros Ha.
  - cbn [app logs.exportToNDJSON fst]. rewrite append_nil.
    now destruct (logs.exportToNDJSON b).
  - cbn [app logs.exportToNDJSON] in *. unfold logs.Encode in *.
    destruct (logs.json_Marshal_LogEntry e) as [je|err]; [|discriminate Ha].
    destruct (logs.exportToNDJSON a) as [oa ea]. cbn [snd fst] in *.
    rewrite (IH Ha). cbn [fst snd]. now rewrite !append_assoc.
Qed.

Lemma exportToPlaintext_app a b :
  fst (logs.exportToPlaintext (a ++ b))
  = fst (logs.exportToPlaintext a) +:+ fst (logs.exportToPlaintext b).
Proof.
  induction a as [|e a IH]; [reflexivity|].
  cbn [app logs.exportToPlaintext].
  destruct (logs.exportToPlaintext (a ++ b)) as [o1 e1].
  destruct (logs.exportToPlaintext a) as [o2 e2]. cbn [fst] in *.
  rewrite IH. now rewrite !append_assoc.
Qed.

Lemma exportToCSV_rows_app a b :
  logs.exportToCSV_rows (a ++ b) = logs.exportToCSV_rows a +:+ logs.exportToCSV_rows b.
Proof.
  induction a as [|e a IH]; [reflexivity|].
  cbn [app logs.exportToCSV_rows]. rewrite IH. now rewrite !append_assoc.
Qed.

(** X8: the [plaintext] export of two sequences in a row is the export
    of the first followed by that of the second; so is the [ndjson] export
    when the first exports without error, and the [csv] export but for the
    header line of the second; a [csv] export is its header line and the
    rows. *)
Theorem ExportLogs_concatenation a b :
  fst (logs.ExportLogs (a ++ b) "plaintext")
  = fst (logs.ExportLogs a "plaintext") +:+ fst (logs.ExportLogs b "plaintext") /\
  (snd (logs.ExportLogs a "ndjson") = None ->
   logs.ExportLogs (a ++ b) "ndjson"
   = (fst (logs.ExportLogs a "ndjson") +:+ fst (logs.ExportLogs b "ndjson"),
      snd (logs.ExportLogs b "ndjson"))) /\
  fst (logs.ExportLogs (a ++ b) "csv")
  = fst (logs.ExportLogs a "csv") +:+ logs.exportToCSV_rows b /\
  fst (logs.ExportLogs b "csv")
  = fst (logs.ExportLogs [] "csv") +:+ logs.exportToCSV_rows b.
Proof.
  rewrite !ExportLogs_ndjson, !ExportLogs_csv, !ExportLogs_plaintext.
  split; [apply exportToPlaintext_app|]. split; [apply exportToNDJSON_app|].
  unfold logs.exportToCSV. cbn [fst logs.exportToCSV_rows].
  rewrite exportToCSV_rows_app, !append_assoc. split; reflexivity.
Qed.

(** X9: when an entry cannot be encoded, the [ndjson] export has
    written the lines of the entries before it and fails with the encoder's
    error for that entry; the [json] export of the same entries has written
    nothing. *)
Theorem exportToNDJSON_first_failure good bad rest :
  carried good = true ->
  representable (logs.LogEntry.Timestamp bad) = false ->
  exists err,
    logs.json_Marshal_LogEntry bad = Err err /\
    logs.ExportLogs (good ++ bad :: rest) "ndjson"
    = (fst (logs.ExportLogs good "ndjson"), Some ("error writing NDJSON record: " +:+ err)) /\
    snd (logs.ExportLogs good "ndjson") = None /\
    logs.ExportLogs (good ++ bad :: rest) "json" = (EmptyString, Some err).
Proof.
  intros Hgood Hbad. rewrite !ExportLogs_ndjson, ExportLogs_json.
  pose proof (json_Marshal_LogEntry_is_Ok bad) as Hb. rewrite Hbad in Hb.
  destruct (logs.json_Marshal_LogEntry bad) as [|err] eqn:Eb; [discriminate|].
  exists err. split; [reflexivity|].
  pose proof (exportToNDJSON_is_Ok good) as Hg. rewrite Hgood in Hg.
  destruct (snd (logs.exportToNDJSON good)) eqn:Eg; [discriminate|].
  split; [|split; [reflexivity|]].
  - rewrite (exportToNDJSON_app good (bad :: rest) Eg).
    cbn [logs.exportToNDJSON]. rewrite Eb. cbn [logs.Encode fst snd].
    now rewrite append_empty_r.
  - assert (He : forall n, logs.json_elements n (good ++ bad :: rest) = Err err).
    { clear Hg Eg. induction good as [|g good IH]; intros n; cbn [app logs.json_elements].
      - now rewrite Eb.
      - cbn [carried forallb] in Hgood. apply andb_prop in Hgood as [Hg Hgood].
        rewrite <- json_Marshal_LogEntry_is_Ok in Hg.
        destruct (logs.json_Marshal_LogEntry g); [|discriminate].
        now rewrite (IH Hgood). }
    unfold logs.json_Marshal_LogEntries.
    destruct (good ++ bad :: rest)%list as [|x xs] eqn:Ex.
    + now destruct good.
    + rewrite He. reflexivity.
Qed.

End Formats.

(** ** The resource client on a kind of the table *)

Section Operations.
Context `{GoLibrary} `{!Backend}.

Lemma resourceMap_kind kind :
  kind ∈ kinds ->
  exists gvr,
    kubernetes.getGroupVersionResource kind = Ok gvr /\
    schema.Resource gvr = kind /\ schema.Version gvr = "v1" /\
    In (schema.Group gvr) [""; "apps"; "networking.k8s.io"].
Proof.
  unfold kinds. intros Hk.
  repeat (apply elem_of_cons in Hk as [->|Hk];
          [eexists; split; [vm_compute; reflexivity|]; cbn; tauto|]).
  now apply elem_of_nil in Hk.
Qed.

(** X10: on a kind of the table each of the four operations makes
    exactly one call to the dynamic client, for the group, version and
    resource of the table (the resource is the kind itself, the version
    [v1]), in the namespace given or cluster-wide when it is empty; it
    returns what the client returns, a failure wrapped in the operation's
    message; the clock is not read. *)
Theorem operations_on_supported_kind kind namespace name object w :
  kind ∈ kinds ->
  exists gvr,
    kubernetes.getGroupVersionResource kind = Ok gvr /\
    schema.Resource gvr = kind /\ schema.Version gvr = "v1" /\
    In (schema.Group gvr) [""; "apps"; "networking.k8s.io"] /\
    let ns := if String.eqb namespace "" then None else Some namespace in
    let after call := mkWorld (events w ++ [call]) (ticks w) in
    kubernetes.GetResource kind namespace name w
    = (match dynamic_Get gvr ns name with
       | Ok resource => Ok resource
       | Err err => Err ("failed to get " +:+ kind +:+ " '" +:+ name +:+ "': " +:+ err)
       end, after (Call_Get gvr ns name)) /\
    kubernetes.ListResources kind namespace w
    = (match dynamic_List gvr ns with
       | Ok resources => Ok resources
       | Err err => Err ("failed to list " +:+ kind +:+ ": " +:+ err)
       end, after (Call_List gvr ns)) /\
    kubernetes.CreateResource kind namespace object w
    = (match dynamic_Create gvr ns object with
       | Ok created => Ok created
       | Err err => Err ("failed to create " +:+ kind +:+ ": " +:+ err)
       end, after (Call_Create gvr ns object)) /\
    kubernetes.DeleteResource kind namespace name w
    = (match dynamic_Delete gvr ns name with
       | None => None
       | Some err => Some ("failed to delete " +:+ kind +:+ " '" +:+ name +:+ "': " +:+ err)
       end, after (Call_Delete gvr ns name)).
Proof.
  intros Hk. destruct (resourceMap_kind kind Hk) as (gvr & Hg & Hr & Hv & Hgr).
  exists gvr. split; [exact Hg|]. split; [exact Hr|]. split; [exact Hv|].
  split; [exact Hgr|]. cbv zeta.
  unfold kubernetes.GetResource, kubernetes.ListResources, kubernetes.CreateResource,
    kubernetes.DeleteResource, kubernetes.scope, bind, emit, ret.
  rewrite Hg. rewrite eqb_empty.
  destruct (nonempty namespace); cbn [negb].
  - repeat split.
    + now destruct (dynamic_Get _ _ _).
    + now destruct (dynamic_List _ _).
    + now destruct (dynamic_Create _ _ _).
    + now destruct (dynamic_Delete _ _ _).
  - repeat split.
    + now destruct (dynamic_Get _ _ _).
    + now destruct (dynamic_List _ _).
    + now destruct (dynamic_Create _ _ _).
    + now destruct (dynamic_Delete _ _ _).
Qed.

End Operations.

(** ** What the dispatcher calls *)

Section Calls.
Context `{GoLibrary} `{!Backend}.

(** The calls to the dynamic client. *)
Definition is_dynamic (e : Event) : bool :=
  match e with
  | Call_Get _ _ _ | Call_List _ _ | Call_Create _ _ _ | Call_Delete _ _ _ => true
  | _ => false
  end.

(** The reads and the closing of a stream. *)
Definition is_reading (e : Event) : bool :=
  match e with
  | Call_ReadString | Call_Close => true
  | _ => false
  end.

Definition isResourceCommand (type : string) : bool :=
  String.eqb type mcp.ListCommand || String.eqb type mcp.GetCommand ||
  String.eqb type mcp.CreateCommand || String.eqb type mcp.DeleteCommand.

Definition isLogCommand (type : string) : bool :=
  String.eqb type mcp.LogsCommand || String.eqb type mcp.SearchLogsCommand ||
  String.eqb type mcp.ExportLogsCommand.

(** The calls of one resource operation: none or one, to the dynamic
    client. *)
Definition one_dynamic_call (w w' : World) : Prop :=
  exists calls,
    w' = mkWorld (events w ++ calls) (ticks w) /\
    (List.length calls <= 1)%nat /\ Forall (fun e => is_dynamic e = true) calls.

Lemma one_dynamic_call_none w : one_dynamic_call w w.
Proof.
  exists []. rewrite app_nil_r. destruct w. repeat split; [cbn; lia | constructor].
Qed.

Lemma one_dynamic_call_one w e :
  is_dynamic e = true -> one_dynamic_call w (mkWorld (events w ++ [e]) (ticks w)).
Proof. intros He. exists [e]. repeat split; [cbn; lia | now repeat constructor]. Qed.

Lemma GetResource_calls kind ns nm w :
  one_dynamic_call w (snd (kubernetes.GetResource kind ns nm w)).
Proof.
  unfold kubernetes.GetResource, bind, emit, ret.
  destruct (kubernetes.getGroupVersionResource kind); [|apply one_dynamic_call_none].
  destruct (dynamic_Get _ _ _); now apply one_dynamic_call_one.
Qed.

Lemma ListResources_calls kind ns w :
  one_dynamic_call w (snd (kubernetes.ListResources kind ns w)).
Proof.
  unfold kubernetes.ListResources, bind, emit, ret.
  destruct (kubernetes.getGroupVersionResource kind); [|apply one_dynamic_call_none].
  destruct (dynamic_List _ _); now apply one_dynamic_call_one.
Qed.

Lemma CreateResource_calls kind ns obj w :
  one_dynamic_call w (snd (kubernetes.CreateResource kind ns obj w)).
Proof.
  unfold kubernetes.CreateResource, bind, emit, ret.
  destruct (kubernetes.getGroupVersionResource kind); [|apply one_dynamic_call_none].
  destruct (dynamic_Create _ _ _); now apply one_dynamic_call_one.
Qed.

Lemma DeleteResource_calls kind ns nm w :
  one_dynamic_call w (snd (kubernetes.DeleteResource kind ns nm w)).
Proof.
  unfold kubernetes.DeleteResource, bind, emit, ret.
  destruct (kubernetes.getGroupVersionResource kind); [|apply one_dynamic_call_none].
  destruct (dynamic_Delete _ _ _); now apply one_dynamic_call_one.
Qed.

Lemma handleListCommand_calls cmd w :
  one_dynamic_call w (snd (mcp.handleListCommand cmd w)).
Proof.
  unfold mcp.handleListCommand. destruct (String.eqb _ ""); [apply one_dynamic_call_none|].
  unfold bind. pose proof (ListResources_calls (mcp.Command.Resource cmd)
                             (mcp.Command.Namespace cmd) w) as Hc.
  destruct (kubernetes.ListResources _ _ w) as [[l|err] w']; exact Hc.
Qed.

Lemma handleGetCommand_calls cmd w :
  one_dynamic_call w (snd (mcp.handleGetCommand cmd w)).
Proof.
  unfold mcp.handleGetCommand. destruct (_ || _); [apply one_dynamic_call_none|].
  unfold bind. pose proof (GetResource_calls (mcp.Command.Resource cmd)
                             (mcp.Command.Namespace cmd) (mcp.Command.Name cmd) w) as Hc.
  destruct (kubernetes.GetResource _ _ _ w) as [[l|err] w']; exact Hc.
Qed.

Lemma handleCreateCommand_calls cmd w :
  one_dynamic_call w (snd (mcp.handleCreateCommand cmd w)).
Proof.
  unfold mcp.handleCreateCommand.
  destruct (mcp.Command.Data cmd) as [data|]; [|apply one_dynamic_call_none].
  destruct (String.eqb _ ""); [apply one_dynamic_call_none|].
  destruct (json_Unmarshal_Object data) as [obj|]; [|apply one_dynamic_call_none].
  unfold bind. pose proof (CreateResource_calls (mcp.Command.Resource cmd)
                             (mcp.Command.Namespace cmd) obj w) as Hc.
  destruct (kubernetes.CreateResource _ _ _ w) as [[l|err] w']; exact Hc.
Qed.

Lemma handleDeleteCommand_calls cmd w :
  one_dynamic_call w (snd (mcp.handleDeleteCommand cmd w)).
Proof.
  unfold mcp.handleDeleteCommand. destruct (_ || _); [apply one_dynamic_call_none|].
  unfold bind. pose proof (DeleteResource_calls (mcp.Command.Resource cmd)
                             (mcp.Command.Namespace cmd) (mcp.Command.Name cmd) w) as Hc.
  destruct (kubernetes.DeleteResource _ _ _ w) as [[err|] w']; exact Hc.
Qed.

(** The stream a log command opens, if it opens one: in the namespace
    and for the pod of the command, with the container of its options, the
    since time read from [since], no since seconds, the tail when it is
    positive, and without following; then reads and the closing. *)
Definition one_stream (cmd : mcp.Command.t) (w w' : World) : Prop :=
  events w' = events w \/
  exists lo sinceTime rest,
    mcp.podOptions cmd = Some lo /\
    (mcp.LogOptions.Since lo = EmptyString -> sinceTime = None) /\
    events w'
    = (events w ++
       Call_Stream (mcp.Command.Namespace cmd) (mcp.LogOptions.Pod lo)
         (corev1.PodLogOptions.mk (mcp.LogOptions.Container lo) sinceTime None
            (if 0 <? mcp.LogOptions.Tail lo then Some (mcp.LogOptions.Tail lo) else None)
            false)
       :: rest)%list /\
    Forall (fun e => is_reading e = true) rest.

Lemma parseSince_events since w : events (snd (mcp.parseSince since w)) = events w.
Proof.
  unfold mcp.parseSince. destruct (nonempty since); [|reflexivity].
  destruct (time_ParseDuration since); [reflexivity|].
  destruct (time.Parse_RFC3339 since); reflexivity.
Qed.

Lemma parseSince_empty since w sinceTime :
  fst (mcp.parseSince since w) = Ok sinceTime -> since = EmptyString -> sinceTime = None.
Proof. intros Hs ->. cbn in Hs. congruence. Qed.

Lemma GetLogs_events opts w :
  exists rest,
    events (snd (logs.GetLogs opts w)) = (events w ++ open opts :: rest)%list /\
    Forall (fun e => is_reading e = true) rest.
Proof.
  rewrite GetLogs_run.
  destruct (pods_GetLogs_Stream _ _ _) as [[content fin]|err].
  - destruct (compiled opts) as [re|cerr].
    + destruct (content_lines content) as (lines & tail & -> & Hl & Ht).
      rewrite (readLoop_lines _ _ _ _ _ _ _ Hl Ht). cbn [snd events ticks].
      exists (repeat Call_ReadString (S (List.length lines)) ++ [Call_Close])%list.
      split; [now rewrite <- !app_assoc|].
      apply Forall_app. split; [|now repeat constructor].
      apply List.Forall_forall. intros e He. now apply repeat_spec in He as ->.
    + exists [Call_Close]. split; [reflexivity | now repeat constructor].
  - exists []. split; [reflexivity | constructor].
Qed.

Ltac since_then_stream cmd lo w :=
  unfold bind at 1;
  let E := fresh "E" in
  pose proof (parseSince_events (mcp.LogOptions.Since lo) w) as E;
  let Hs := fresh "Hs" in
  pose proof (parseSince_empty (mcp.LogOptions.Since lo) w) as Hs;
  destruct (mcp.parseSince (mcp.LogOptions.Since lo) w) as [[sinceTime|err] w1];
  cbn [fst snd] in E, Hs; [|left; exact E];
  unfold bind at 1;
  match goal with
  | |- context [logs.GetLogs ?o w1] =>
      let G := fresh "G" in
      destruct (GetLogs_events o w1) as (rest & G & Hrest);
      right; exists lo, sinceTime, rest;
      split; [assumption|]; split; [now apply Hs|]; split; [|exact Hrest];
      rewrite E in G; unfold open, podLogOptions in G;
      cbn [logs.LogOptions.Namespace logs.LogOptions.Pod logs.LogOptions.Container
           logs.LogOptions.SinceTime logs.LogOptions.SinceSeconds logs.LogOptions.Tail] in G;
      destruct (logs.GetLogs o w1) as [[es|gerr] w2]; cbn [snd] in G
  end.

Lemma handleLogsCommand_stream cmd w :
  one_stream cmd w (snd (mcp.handleLogsCommand cmd w)).
Proof.
  unfold mcp.handleLogsCommand.
  destruct (mcp.podOptions cmd) as [lo|] eqn:Hp; [|now left].
  since_then_stream cmd lo w; exact G.
Qed.

Lemma handleSearchLogsCommand_stream cmd w :
  one_stream cmd w (snd (mcp.handleSearchLogsCommand cmd w)).
Proof.
  unfold mcp.handleSearchLogsCommand.
  destruct (mcp.podOptions cmd) as [lo|] eqn:Hp; [|now left].
  destruct (String.eqb _ ""); [now left|].
  since_then_stream cmd lo w; exact G.
Qed.

Lemma handleExportLogsCommand_stream cmd w :
  one_stream cmd w (snd (mcp.handleExportLogsCommand cmd w)).
Proof.
  unfold mcp.handleExportLogsCommand.
  destruct (mcp.podOptions cmd) as [lo|] eqn:Hp; [|now left].
  destruct (String.eqb _ ""); [now left|].
  since_then_stream cmd lo w; [|exact G].
  destruct (logs.ExportLogs es _) as [buf [xerr|]]; exact G.
Qed.

(** The world after a command. *)
Lemma HandleCommand_world cmd w :
  (isResourceCommand (mcp.Command.Type_ cmd) = true /\
   one_dynamic_call w (snd (mcp.HandleCommand cmd w))) \/
  (isResourceCommand (mcp.Command.Type_ cmd) = false /\
   one_stream cmd w (snd (mcp.HandleCommand cmd w))).
Proof.
  unfold mcp.HandleCommand, isResourceCommand. cbv zeta.
  destruct (String.eqb _ mcp.ListCommand);
    [left; split; [reflexivity | apply handleListCommand_calls]|].
  destruct (String.eqb _ mcp.GetCommand);
    [left; split; [reflexivity | apply handleGetCommand_calls]|].
  destruct (String.eqb _ mcp.CreateCommand);
    [left; split; [reflexivity | apply handleCreateCommand_calls]|].
  destruct (String.eqb _ mcp.DeleteCommand);
    [left; split; [reflexivity | apply handleDeleteCommand_calls]|].
  right. split; [reflexivity|].
  destruct (String.eqb _ mcp.LogsCommand); [apply handleLogsCommand_stream|].
  destruct (String.eqb _ mcp.SearchLogsCommand); [apply handleSearchLogsCommand_stream|].
  destruct (String.eqb _ mcp.ExportLogsCommand); [apply handleExportLogsCommand_stream|].
  now left.
Qed.

(** X11: a command for a resource ([list], [get], [create], [delete])
    makes at most one call, to the dynamic client, and neither opens a log
    stream nor reads the clock; any other command makes no call to the
    dynamic client: it makes no call at all, or opens one log stream, reads
    it and closes it. *)
Theorem HandleCommand_calls cmd w :
  exists calls,
    events (snd (mcp.HandleCommand cmd w)) = (events w ++ calls)%list /\
    if isResourceCommand (mcp.Command.Type_ cmd)
    then (List.length calls <= 1)%nat /\ Forall (fun e => is_dynamic e = true) calls /\
         ticks (snd (mcp.HandleCommand cmd w)) = ticks w
    else calls = [] \/
         exists ns pod o rest,
           calls = Call_Stream ns pod o :: rest /\ Forall (fun e => is_reading e = true) rest.
Proof.
  destruct (HandleCommand_world cmd w) as [[-> (calls & -> & Hlen & Hdyn)]|[-> Hs]].
  - exists calls. cbn [events ticks]. repeat split; assumption.
  - destruct Hs as [Hs|(lo & sinceTime & rest & _ & _ & Hs & Hrest)].
    + exists []. rewrite app_nil_r. split; [exact Hs | now left].
    + eexists. split; [exact Hs|]. right. now eexists _, _, _, rest.
Qed.

(** X12: whenever the dispatcher opens a log stream, it is the first
    call of the command, which carries log options; the stream is that of
    the command's namespace and of the pod of its options, both non-empty,
    opened with the container of the options, without since seconds, without
    following, with the tail as line limit when the tail is positive and
    without limit otherwise, and without since time when [since] is empty. *)
Theorem HandleCommand_stream_options cmd w before ns pod o after :
  events (snd (mcp.HandleCommand cmd w))
  = (events w ++ before ++ Call_Stream ns pod o :: after)%list ->
  before = [] /\
  exists lo,
    mcp.Command.LogOptions cmd = Some lo /\
    ns = mcp.Command.Namespace cmd /\ pod = mcp.LogOptions.Pod lo /\
    nonempty ns = true /\ nonempty pod = true /\
    corev1.PodLogOptions.Container o = mcp.LogOptions.Container lo /\
    corev1.PodLogOptions.SinceSeconds o = None /\
    corev1.PodLogOptions.Follow o = false /\
    corev1.PodLogOptions.TailLines o
    = (if 0 <? mcp.LogOptions.Tail lo then Some (mcp.LogOptions.Tail lo) else None) /\
    (mcp.LogOptions.Since lo = EmptyString -> corev1.PodLogOptions.SinceTime o = None).
Proof.
  intros Hev.
  destruct (HandleCommand_world cmd w) as [[_ (calls & Hw & Hlen & Hdyn)]|[_ Hs]].
  - exfalso. rewrite Hw in Hev. cbn [events] in Hev. apply app_inv_head in Hev. subst calls.
    apply Forall_app in Hdyn as [_ Hdyn]. inversion Hdyn as [|? ? Hd _]. discriminate Hd.
  - destruct Hs as [Hs|(lo & sinceTime & rest & Hp & Hsince & Hs & Hrest)].
    + exfalso. rewrite Hs in Hev. rewrite <- (app_nil_r (events w)) in Hev at 1.
      apply app_inv_head in Hev. now destruct before.
    + rewrite Hs in Hev. apply app_inv_head in Hev.
      destruct before as [|b before].
      * cbn [app] in Hev. injection Hev as <- <- <- _. split; [reflexivity|].
        unfold mcp.podOptions in Hp. rewrite eqb_empty in Hp.
        destruct (nonempty (mcp.Command.Namespace cmd)) eqn:Hns; [|discriminate].
        cbn [negb] in Hp.
        destruct (mcp.Command.LogOptions cmd) as [lo'|]; [|discriminate].
        rewrite eqb_empty in Hp.
        destruct (nonempty (mcp.LogOptions.Pod lo')) eqn:Hpod; [|discriminate].
        injection Hp as ->. exists lo. repeat split; try assumption; reflexivity.
      * exfalso. cbn [app] in Hev. injection Hev as _ Hev. subst rest.
        apply Forall_app in Hrest as [_ Hrest]. inversion Hrest as [|? ? Hd _].
        discriminate Hd.
Qed.

End Calls.

(** ** The log commands *)

Section LogCommands.
Context `{GoLibrary} `{!Backend}.

Definition failure (err : string) : result mcp.Response.t :=
  Ok (mcp.Response.mk false EmptyString None err).

Lemma HandleCommand_logs cmd w :
  mcp.Command.Type_ cmd = mcp.LogsCommand ->
  mcp.HandleCommand cmd w = mcp.handleLogsCommand cmd w.
Proof. unfold mcp.HandleCommand. now intros ->. Qed.

Lemma HandleCommand_search cmd w :
  mcp.Command.Type_ cmd = mcp.SearchLogsCommand ->
  mcp.HandleCommand cmd w = mcp.handleSearchLogsCommand cmd w.
Proof. unfold mcp.HandleCommand. now intros ->. Qed.

Lemma HandleCommand_export cmd w :
  mcp.Command.Type_ cmd = mcp.ExportLogsCommand ->
  mcp.HandleCommand cmd w = mcp.handleExportLogsCommand cmd w.
Proof. unfold mcp.HandleCommand. now intros ->. Qed.

Lemma isLogCommand_cases type :
  isLogCommand type = true ->
  type = mcp.LogsCommand \/ type = mcp.SearchLogsCommand \/ type = mcp.ExportLogsCommand.
Proof.
  unfold isLogCommand. intros Ht.
  apply orb_prop in Ht as [Ht|Ht]; [apply orb_prop in Ht as [Ht|Ht]|];
    apply String.eqb_eq in Ht; tauto.
Qed.

(** X13: a log command that has its required fields and a [since] that
    is neither a duration nor an RFC 3339 time is answered with the error
    of the time parser, and nothing is called: no stream is opened and the
    clock is not read. *)
Theorem HandleCommand_invalid_since cmd lo w err :
  isLogCommand (mcp.Command.Type_ cmd) = true ->
  (forall f, In f (required (mcp.Command.Type_ cmd)) -> present cmd f = true) ->
  mcp.Command.LogOptions cmd = Some lo ->
  nonempty (mcp.LogOptions.Since lo) = true ->
  is_Ok (time_ParseDuration (mcp.LogOptions.Since lo)) = false ->
  time.Parse_RFC3339 (mcp.LogOptions.Since lo) = Err err ->
  mcp.HandleCommand cmd w = (failure ("invalid 'since' parameter: " +:+ err), w).
Proof.
  intros Ht Hreq Hlo Hne Hd Hp.
  assert (Hsince : mcp.parseSince (mcp.LogOptions.Since lo) w
                   = (Err ("invalid 'since' parameter: " +:+ err), w)).
  { unfold mcp.parseSince. rewrite Hne, Hp.
    destruct (time_ParseDuration _); [discriminate|reflexivity]. }
  destruct (isLogCommand_cases _ Ht) as [Hk|[Hk|Hk]].
  - rewrite Hk in Hreq. rewrite (HandleCommand_logs _ _ Hk).
    unfold mcp.handleLogsCommand.
    rewrite (present_podOptions cmd lo Hlo (Hreq namespace ltac:(cbn; tauto))
               (Hreq logOptions_pod ltac:(cbn; tauto))).
    unfold bind at 1. rewrite Hsince. reflexivity.
  - rewrite Hk in Hreq. rewrite (HandleCommand_search _ _ Hk).
    unfold mcp.handleSearchLogsCommand.
    rewrite (present_podOptions cmd lo Hlo (Hreq namespace ltac:(cbn; tauto))
               (Hreq logOptions_pod ltac:(cbn; tauto))).
    pose proof (Hreq logOptions_pattern ltac:(cbn; tauto)) as Hpat.
    unfold present, logOption in Hpat. rewrite Hlo in Hpat.
    rewrite eqb_empty, Hpat. cbn [negb].
    unfold bind at 1. rewrite Hsince. reflexivity.
  - rewrite Hk in Hreq. rewrite (HandleCommand_export _ _ Hk).
    unfold mcp.handleExportLogsCommand.
    rewrite (present_podOptions cmd lo Hlo (Hreq namespace ltac:(cbn; tauto))
               (Hreq logOptions_pod ltac:(cbn; tauto))).
    pose proof (Hreq logOptions_format ltac:(cbn; tauto)) as Hfmt.
    unfold present, logOption in Hfmt. rewrite Hlo in Hfmt.
    rewrite eqb_empty, Hfmt. cbn [negb].
    unfold bind at 1. rewrite Hsince. reflexivity.
Qed.

(** The three handlers once [since] is read: as nothing when it is
    empty, as a duration before now, or as an RFC 3339 time. *)
Lemma handleLogsCommand_since cmd lo sinceTime w :
  mcp.Command.Type_ cmd = mcp.LogsCommand ->
  mcp.podOptions cmd = Some lo ->
  fst (mcp.parseSince (mcp.LogOptions.Since lo) w) = Ok sinceTime ->
  let w1 := snd (mcp.parseSince (mcp.LogOptions.Since lo) w) in
  mcp.HandleCommand cmd w =
  (match fst (logs.GetLogs (retrieval cmd lo sinceTime) w1) with
   | Err err => failure err
   | Ok logEntries =>
       mcp.NewSuccessResponse
         ("Successfully retrieved logs from pod '" +:+ mcp.LogOptions.Pod lo +:+ "'")
         (mcp.data_LogEntries logEntries)
   end, snd (logs.GetLogs (retrieval cmd lo sinceTime) w1)).
Proof.
  intros Hk Hp Hs w1. subst w1.
  rewrite (HandleCommand_logs _ _ Hk). unfold mcp.handleLogsCommand.
  rewrite Hp. unfold bind at 1.
  destruct (mcp.parseSince _ w) as [[since|serr] w1]; cbn [fst snd] in *; [|discriminate Hs].
  injection Hs as ->.
  unfold bind, ret, retrieval. rewrite Hk.
  change (String.eqb mcp.LogsCommand mcp.LogsCommand) with true. cbn [negb].
  unfold mcp.parseTail.
  destruct (logs.GetLogs _ w1) as [[es|err] w']; reflexivity.
Qed.


Lemma handleExportLogsCommand_since cmd lo sinceTime w :
  mcp.Command.Type_ cmd = mcp.ExportLogsCommand ->
  mcp.podOptions cmd = Some lo ->
  fst (mcp.parseSince (mcp.LogOptions.Since lo) w) = Ok sinceTime ->
  nonempty (mcp.LogOptions.Format lo) = true ->
  let w1 := snd (mcp.parseSince (mcp.LogOptions.Since lo) w) in
  mcp.HandleCommand cmd w =
  (match fst (logs.GetLogs (retrieval cmd lo sinceTime) w1) with
   | Err err => failure err
   | Ok logEntries =>
       match logs.ExportLogs logEntries (mcp.LogOptions.Format lo) with
       | (_, Some err) => failure err
       | (buf, None) =>
           mcp.NewSuccessResponse
             ("Successfully exported logs from pod '" +:+ mcp.LogOptions.Pod lo +:+
              "' in " +:+ mcp.LogOptions.Format lo +:+ " format")
             (mcp.data_exported buf)
       end
   end, snd (logs.GetLogs (retrieval cmd lo sinceTime) w1)).
Proof.
  intros Hk Hp Hs Hfmt w1. subst w1.
  rewrite (HandleCommand_export _ _ Hk). unfold mcp.handleExportLogsCommand.
  rewrite Hp, eqb_empty, Hfmt. cbn [negb]. unfold bind at 1.
  destruct (mcp.parseSince _ w) as [[since|serr] w1]; cbn [fst snd] in *; [|discriminate Hs].
  injection Hs as ->.
  unfold bind, ret, retrieval. rewrite Hk.
  change (String.eqb mcp.ExportLogsCommand mcp.LogsCommand) with false. cbn [negb].
  unfold mcp.parseTail.
  destruct (logs.GetLogs _ w1) as [[es|err] w']; [|reflexivity].
  cbn [fst snd]. destruct (logs.ExportLogs es _) as [buf [xerr|]]; reflexivity.
Qed.

(** ... and without a [since]. *)
Lemma handleLogsCommand_run cmd lo w :
  mcp.Command.Type_ cmd = mcp.LogsCommand ->
  mcp.podOptions cmd = Some lo -> mcp.LogOptions.Since lo = EmptyString ->
  mcp.HandleCommand cmd w =
  (match fst (logs.GetLogs (retrieval cmd lo None) w) with
   | Err err => failure err
   | Ok logEntries =>
       mcp.NewSuccessResponse
         ("Successfully retrieved logs from pod '" +:+ mcp.LogOptions.Pod lo +:+ "'")
         (mcp.data_LogEntries logEntries)
   end, snd (logs.GetLogs (retrieval cmd lo None) w)).
Proof.
  intros Hk Hp Hs. pose proof (handleLogsCommand_since cmd lo None w Hk Hp) as T.
  rewrite Hs in T. exact (T eq_refl).
Qed.

Lemma handleExportLogsCommand_run cmd lo w :
  mcp.Command.Type_ cmd = mcp.ExportLogsCommand ->
  mcp.podOptions cmd = Some lo -> mcp.LogOptions.Since lo = EmptyString ->
  nonempty (mcp.LogOptions.Format lo) = true ->
  mcp.HandleCommand cmd w =
  (match fst (logs.GetLogs (retrieval cmd lo None) w) with
   | Err err => failure err
   | Ok logEntries =>
       match logs.ExportLogs logEntries (mcp.LogOptions.Format lo) with
       | (_, Some err) => failure err
       | (buf, None) =>
           mcp.NewSuccessResponse
             ("Successfully exported logs from pod '" +:+ mcp.LogOptions.Pod lo +:+
              "' in " +:+ mcp.LogOptions.Format lo +:+ " format")
             (mcp.data_exported buf)
       end
   end, snd (logs.GetLogs (retrieval cmd lo None) w)).
Proof.
  intros Hk Hp Hs Hfmt.
  pose proof (handleExportLogsCommand_since cmd lo None w Hk Hp) as T.
  rewrite Hs in T. exact (T eq_refl Hfmt).
Qed.

(** X14: the [logs] command passes neither the pattern nor the level
    of its options to the retrieval.  Its [since] being empty, a duration
    or an RFC 3339 time, on a stream that ends in [io.EOF] it returns the
    entry of every line that ends in a newline, in order, one entry per
    line, whatever pattern, level and format the command carries. *)
Theorem logs_command_every_line cmd lo sinceTime lines tail w :
  mcp.Command.Type_ cmd = mcp.LogsCommand ->
  mcp.podOptions cmd = Some lo ->
  fst (mcp.parseSince (mcp.LogOptions.Since lo) w) = Ok sinceTime ->
  (forall o, pods_GetLogs_Stream (mcp.Command.Namespace cmd) (mcp.LogOptions.Pod lo) o
             = Ok (mkStream (unlines lines +:+ tail) None)) ->
  Forall is_line lines -> no_newline tail = true ->
  let opts :=
    logs.LogOptions.mk (mcp.Command.Namespace cmd) (mcp.LogOptions.Pod lo)
      (mcp.LogOptions.Container lo) sinceTime None None EmptyString EmptyString in
  let tick := ticks (snd (mcp.parseSince (mcp.LogOptions.Since lo) w)) in
  fst (mcp.HandleCommand cmd w)
  = mcp.NewSuccessResponse
      ("Successfully retrieved logs from pod '" +:+ mcp.LogOptions.Pod lo +:+ "'")
      (mcp.data_LogEntries (entries_from opts tick lines)) /\
  List.length (entries_from opts tick lines) = List.length lines.
Proof.
  intros Hk Hp Hs Hstream Hl Ht opts tick.
  rewrite (handleLogsCommand_since cmd lo sinceTime w Hk Hp Hs). cbn [fst].
  rewrite (GetLogs_stream_lines (retrieval cmd lo sinceTime) _ lines tail None None
             (Hstream _) Hl Ht).
  2: { unfold compiled, retrieval. rewrite Hk. reflexivity. }
  cbn [fst]. rewrite filter_all.
  2: { intros e. unfold passes_loop, retrieval. rewrite Hk. reflexivity. }
  fold tick. split.
  - f_equal. f_equal. clear. generalize tick. clear tick.
    induction lines as [|l lines IH]; intros tick; [reflexivity|].
    cbn [entries_from]. now rewrite IH.
  - clear. generalize tick. clear tick.
    induction lines as [|l lines IH]; intros tick; [reflexivity|].
    cbn [entries_from List.length]. now rewrite IH.
Qed.


(** X16: the [export_logs] command checks that a format is given, but
    whether the format is one it can write only after the retrieval: with a
    format that is none of [json], [csv], [ndjson], [plaintext] and [text]
    in lower case, and a [since] that is empty, a duration or an RFC 3339
    time, the stream is opened as for any export, and the answer is the
    retrieval's error or, the retrieval succeeding, the error that names
    the format. *)
Theorem export_logs_unsupported_format cmd lo sinceTime w :
  mcp.Command.Type_ cmd = mcp.ExportLogsCommand ->
  mcp.podOptions cmd = Some lo ->
  fst (mcp.parseSince (mcp.LogOptions.Since lo) w) = Ok sinceTime ->
  nonempty (mcp.LogOptions.Format lo) = true ->
  ~ In (Strings.ToLower (mcp.LogOptions.Format lo))
       ["json"; "csv"; "ndjson"; "plaintext"; "text"] ->
  let retrieved :=
    logs.GetLogs (retrieval cmd lo sinceTime)
      (snd (mcp.parseSince (mcp.LogOptions.Since lo) w)) in
  mcp.HandleCommand cmd w
  = (match fst retrieved with
     | Err err => failure err
     | Ok _ => failure ("unsupported export format: " +:+ mcp.LogOptions.Format lo)
     end, snd retrieved) /\
  exists rest,
    events (snd retrieved)
    = (events w ++ open (retrieval cmd lo sinceTime) :: rest)%list /\
    Forall (fun e => is_reading e = true) rest.
Proof.
  intros Hk Hp Hs Hfmt Hun retrieved. split.
  - rewrite (handleExportLogsCommand_since cmd lo sinceTime w Hk Hp Hs Hfmt). fold retrieved.
    destruct (fst retrieved) as [es|err]; [|reflexivity].
    unfold logs.ExportLogs.
    cbn [In] in Hun.
    destruct (String.eqb _ "json") eqn:E1; [apply String.eqb_eq in E1; symmetry in E1; tauto|].
    destruct (String.eqb _ "csv") eqn:E2; [apply String.eqb_eq in E2; symmetry in E2; tauto|].
    destruct (String.eqb _ "ndjson") eqn:E3; [apply String.eqb_eq in E3; symmetry in E3; tauto|].
    destruct (String.eqb _ "plaintext") eqn:E4; [apply String.eqb_eq in E4; symmetry in E4; tauto|].
    destruct (String.eqb _ "text") eqn:E5; [apply String.eqb_eq in E5; symmetry in E5; tauto|].
    reflexivity.
  - destruct (GetLogs_events (retrieval cmd lo sinceTime)
                (snd (mcp.parseSince (mcp.LogOptions.Since lo) w))) as (rest & Hev & Hr).
    exists rest. subst retrieved. rewrite Hev, parseSince_events. now split.
Qed.

(** X17: a successful [export_logs] answers with an object of the one
    key [exported_logs], whose value is the export of the entries retrieved
    with the [since] of the command (empty, a duration or an RFC 3339 time)
    written as a JSON string; a reader of JSON strings gets the export back
    from it when the export is valid UTF-8. *)
Theorem export_logs_data cmd lo w resp :
  mcp.Command.Type_ cmd = mcp.ExportLogsCommand ->
  mcp.podOptions cmd = Some lo ->
  fst (mcp.HandleCommand cmd w) = Ok resp -> mcp.Response.Success resp = true ->
  exists sinceTime logEntries buf,
    fst (mcp.parseSince (mcp.LogOptions.Since lo) w) = Ok sinceTime /\
    fst (logs.GetLogs (retrieval cmd lo sinceTime)
           (snd (mcp.parseSince (mcp.LogOptions.Since lo) w))) = Ok logEntries /\
    logs.ExportLogs logEntries (mcp.LogOptions.Format lo) = (buf, None) /\
    mcp.Response.Data resp
    = Some ("{" +:+ quoted "exported_logs" +:+ ":" +:+ json.appendString buf +:+ "}") /\
    (ValidString buf = true ->
     reparse.parseString (json.appendString buf +:+ "}") = Some (buf, "}")).
Proof.
  intros Hk Hp Hresp Hok.
  destruct (nonempty (mcp.LogOptions.Format lo)) eqn:Hfmt.
  2: { rewrite (HandleCommand_export _ _ Hk) in Hresp.
       unfold mcp.handleExportLogsCommand in Hresp.
       rewrite Hp, eqb_empty, Hfmt in Hresp. injection Hresp as <-. discriminate Hok. }
  destruct (fst (mcp.parseSince (mcp.LogOptions.Since lo) w)) as [sinceTime|serr] eqn:Hs.
  2: { rewrite (HandleCommand_export _ _ Hk) in Hresp.
       unfold mcp.handleExportLogsCommand in Hresp.
       rewrite Hp, eqb_empty, Hfmt in Hresp. cbn [negb] in Hresp.
       unfold bind at 1 in Hresp.
       destruct (mcp.parseSince _ w) as [since w1]. cbn [fst] in Hs. subst since.
       injection Hresp as <-. discriminate Hok. }
  rewrite (handleExportLogsCommand_since cmd lo sinceTime w Hk Hp Hs Hfmt) in Hresp.
  cbn [fst] in Hresp.
  destruct (fst (logs.GetLogs (retrieval cmd lo sinceTime) _)) as [es|err] eqn:Eg.
  - destruct (logs.ExportLogs es (mcp.LogOptions.Format lo)) as [buf [xerr|]] eqn:Ex.
    + injection Hresp as <-. discriminate Hok.
    + injection Hresp as <-. exists sinceTime, es, buf.
      split; [reflexivity|]. split; [exact Eg|]. split; [exact Ex|]. split.
      { cbn [mcp.Response.Data]. unfold logs.field. now rewrite !append_assoc. }
      intros Hv. now apply parseString_appendString.
  - injection Hresp as <-. discriminate Hok.
Qed.

End LogCommands.

(** ** The HTTP server *)

Definition no_sep (sep : ascii) (s : string) : bool :=
  negb (string_existsb (fun c => byte_val c =? byte_val sep) s).

Lemma strings_Split_cons s sep : exists part parts, strings_Split s sep = part :: parts.
Proof.
  induction s as [|c s (part & parts & IH)]; cbn [strings_Split]; [now eexists _, _|].
  destruct (byte_val c =? byte_val sep); [now eexists _, _|].
  rewrite IH. now eexists _, _.
Qed.

(** Splitting after a first part without separator. *)
Lemma strings_Split_app a b sep :
  no_sep sep a = true ->
  strings_Split (a +:+ String sep b) sep = a :: strings_Split b sep.
Proof.
  unfold no_sep. induction a as [|c a IH]; intros Ha.
  - rewrite append_nil. cbn [strings_Split]. now rewrite Z.eqb_refl.
  - cbn [string_existsb] in Ha. rewrite append_cons. cbn [strings_Split].
    destruct (byte_val c =? byte_val sep); [discriminate|].
    now rewrite IH.
Qed.

Lemma strings_Split_resources rest :
  strings_Split ("/api/v1/resources/" +:+ rest) "/"
  = EmptyString :: "api" :: "v1" :: "resources" :: strings_Split rest "/".
Proof.
  change ("/api/v1/resources/" +:+ rest)
    with ("" +:+ String "/" ("api" +:+ String "/" ("v1" +:+ String "/"
            ("resources" +:+ String "/" rest)))).
  now rewrite !strings_Split_app by reflexivity.
Qed.

Lemma strings_Split_logs rest :
  strings_Split ("/api/v1/logs/" +:+ rest) "/"
  = EmptyString :: "api" :: "v1" :: "logs" :: strings_Split rest "/".
Proof.
  change ("/api/v1/logs/" +:+ rest)
    with ("" +:+ String "/" ("api" +:+ String "/" ("v1" +:+ String "/"
            ("logs" +:+ String "/" rest)))).
  now rewrite !strings_Split_app by reflexivity.
Qed.

Section Server.
Context `{GoLibrary} `{!Backend} `{!ServerLibrary}.

(** The response to a command that fails: status 400 and the failure
    as a JSON object. *)
Definition failed (err : string) : http.ResponseWriter :=
  http.mkResponseWriter {[ "Content-Type" := "application/json" ]} (Some 400)
    ("{" +:+ quoted "success" +:+ ":false," +:+ quoted "error" +:+ ":" +:+
     json.appendString err +:+ "}" +:+ String newline EmptyString).

Lemma handleAndSend_failed cmd w err w' :
  nonempty err = true ->
  mcp.HandleCommand cmd w = (failure err, w') ->
  api.handleAndSend http.fresh cmd w = (failed err, w').
Proof.
  intros Hne Hrun. unfold api.handleAndSend, bind. rewrite Hrun. unfold failure, ret.
  cbn [mcp.Response.Success negb]. f_equal.
  unfold api.json_Marshal_Response, api.json_Encode, failed.
  cbn [mcp.Response.Data mcp.Response.Success mcp.Response.Message mcp.Response.Error
       nonempty]. rewrite Hne.
  unfold http.Write, http.WriteHeader, http.Header_Set, http.fresh, logs.field.
  cbn [http.status http.header http.body]. f_equal.
  now rewrite !append_assoc.
Qed.

Lemma unsupported_resources :
  kubernetes.getGroupVersionResource "resources"
  = Err "unsupported resource type: resources".
Proof. vm_compute. reflexivity. Qed.

Definition no_resources : string := "unsupported resource type: resources".

Lemma list_resources ns w :
  mcp.HandleCommand (mcp.Command.mk mcp.ListCommand "resources" "" ns None None) w
  = (failure no_resources, w).
Proof.
  unfold mcp.HandleCommand, mcp.handleListCommand, kubernetes.ListResources, bind, ret.
  cbn [mcp.Command.Type_ mcp.Command.Resource]. rewrite unsupported_resources. reflexivity.
Qed.

Lemma get_resources name ns w :
  nonempty name = true ->
  mcp.HandleCommand (mcp.Command.mk mcp.GetCommand "resources" name ns None None) w
  = (failure no_resources, w).
Proof.
  intros Hn.
  unfold mcp.HandleCommand, mcp.handleGetCommand, kubernetes.GetResource, bind, ret.
  cbn [mcp.Command.Type_ mcp.Command.Resource mcp.Command.Name].
  rewrite unsupported_resources, (eqb_empty name), Hn. reflexivity.
Qed.

Lemma delete_resources name ns w :
  nonempty name = true ->
  mcp.HandleCommand (mcp.Command.mk mcp.DeleteCommand "resources" name ns None None) w
  = (failure no_resources, w).
Proof.
  intros Hn.
  unfold mcp.HandleCommand, mcp.handleDeleteCommand, kubernetes.DeleteResource, bind, ret.
  cbn [mcp.Command.Type_ mcp.Command.Resource mcp.Command.Name].
  rewrite unsupported_resources, (eqb_empty name), Hn. reflexivity.
Qed.

Lemma create_resources body ns w :
  mcp.HandleCommand (mcp.Command.mk mcp.CreateCommand "resources" "" ns (Some body) None) w
  = (failure (match json_Unmarshal_Object body with
              | Ok _ => no_resources
              | Err err => "invalid resource data: " +:+ err
              end), w).
Proof.
  unfold mcp.HandleCommand, mcp.handleCreateCommand, kubernetes.CreateResource, bind, ret.
  cbn [mcp.Command.Type_ mcp.Command.Resource mcp.Command.Data].
  rewrite unsupported_resources.
  destruct (json_Unmarshal_Object body); reflexivity.
Qed.

(** X18: for a path under [/api/v1/resources/], the pattern the handler
    is registered for, the fourth part of the path is [resources] itself,
    and that is what the handler takes for the resource type: no request
    reaches the cluster.  A GET, and a DELETE with a segment after the
    prefix, are answered with status 400 and the failure
    [unsupported resource type: resources]; every request is answered with
    status 400, or 405 when the method is none of GET, POST and DELETE; the
    answer [Invalid path] is never given. *)
Theorem handleResourceRequest_routed r rest w :
  http.URL_Path r = "/api/v1/resources/" +:+ rest ->
  let out := fst (api.handleResourceRequest http.fresh r w) in
  let name := hd EmptyString (strings_Split rest "/") in
  snd (api.handleResourceRequest http.fresh r w) = w /\
  (http.Method r = http.MethodGet \/
   (http.Method r = http.MethodDelete /\ nonempty name = true) ->
   out = failed no_resources) /\
  http.status out
  = Some (if String.eqb (http.Method r) http.MethodGet ||
             String.eqb (http.Method r) http.MethodPost ||
             String.eqb (http.Method r) http.MethodDelete
          then 400 else 405) /\
  out <> http.Error http.fresh "Invalid path" http.StatusBadRequest.
Proof.
  intros Hpath. cbv zeta. unfold api.handleResourceRequest.
  rewrite Hpath, strings_Split_resources.
  destruct (strings_Split_cons rest "/") as (name & parts & ->). cbn [hd].
  destruct (String.eqb (http.Method r) http.MethodGet) eqn:Eg.
  { apply String.eqb_eq in Eg. rewrite (eqb_empty name).
    destruct (nonempty name) eqn:En; cbn [negb orb].
    - rewrite (handleAndSend_failed _ w no_resources w eq_refl (get_resources _ _ _ En)).
      repeat split; discriminate.
    - rewrite (handleAndSend_failed _ w no_resources w eq_refl (list_resources _ _)).
      repeat split; discriminate. }
  destruct (String.eqb (http.Method r) http.MethodPost) eqn:Ep.
  { apply String.eqb_neq in Eg. apply String.eqb_eq in Ep. cbn [orb].
    destruct (http.Body r) as [body|err].
    - rewrite (handleAndSend_failed _ w _ w) with (2 := create_resources body _ w).
      2: { destruct (json_Unmarshal_Object body); reflexivity. }
      split; [reflexivity|]. split; [|split; [reflexivity | discriminate]].
      intros [Hm|[Hm _]]; [congruence|]. rewrite Ep in Hm. discriminate Hm.
    - unfold ret. split; [reflexivity|]. split; [|split; [reflexivity | discriminate]].
      intros [Hm|[Hm _]]; [congruence|]. rewrite Ep in Hm. discriminate Hm. }
  destruct (String.eqb (http.Method r) http.MethodDelete) eqn:Ed.
  { apply String.eqb_neq in Eg. cbn [orb]. rewrite (eqb_empty name).
    destruct (nonempty name) eqn:En; cbn [negb].
    - rewrite (handleAndSend_failed _ w no_resources w eq_refl (delete_resources _ _ _ En)).
      repeat split; discriminate.
    - unfold ret. split; [reflexivity|]. split; [|split; [reflexivity | discriminate]].
      intros [Hm|[_ Hn]]; [congruence | discriminate Hn]. }
  apply String.eqb_neq in Eg, Ed. cbn [orb]. unfold ret.
  split; [reflexivity|]. split; [|split; [reflexivity | discriminate]].
  intros [Hm|[Hm _]]; congruence.
Qed.

Lemma handleAndSend_world out cmd w :
  snd (api.handleAndSend out cmd w) = snd (mcp.HandleCommand cmd w).
Proof.
  unfold api.handleAndSend, bind, ret.
  destruct (mcp.HandleCommand cmd w) as [[resp|err] w']; reflexivity.
Qed.

(** [handleLogRequest] on a path under [/api/v1/logs/]. *)
Lemma handleLogRequest_run r rest w :
  http.URL_Path r = "/api/v1/logs/" +:+ rest ->
  http.Method r = http.MethodGet ->
  let query := url.Get (http.URL_Query r) in
  let pod := hd EmptyString (strings_Split rest "/") in
  api.handleLogRequest http.fresh r w
  = match (if nonempty (query "tail") then strconv.Atoi (query "tail") else Ok 0) with
    | Err err =>
        (http.Error http.fresh ("Invalid tail parameter: " +:+ err) http.StatusBadRequest, w)
    | Ok tail =>
        api.handleAndSend http.fresh
          (mcp.Command.mk mcp.LogsCommand "" "" "logs" None
             (Some (mcp.LogOptions.mk pod (query "container") (query "since") tail
                      (query "pattern") (query "level") (query "format")))) w
    end.
Proof.
  intros Hpath Hm query pod.
  unfold api.handleLogRequest. rewrite Hm, Hpath, strings_Split_logs.
  change (negb (String.eqb http.MethodGet http.MethodGet)) with false. cbv iota.
  subst pod. destruct (strings_Split_cons rest "/") as (pod & parts & ->). cbn [hd].
  fold query.
  destruct (if nonempty (query "tail") then strconv.Atoi (query "tail") else Ok 0)
    as [tail|err]; reflexivity.
Qed.

(** X19: for a GET of a path under [/api/v1/logs/], the pattern the
    handler is registered for, the fourth part of the path is [logs]
    itself: the request is never taken for a search or an export, but
    always for the [logs] command in the namespace named [logs], for the pod
    named by the segment after the prefix, once the tail parameter is read
    (a tail that is no number is answered with status 400 and nothing is
    called).  So a log stream, if one is opened, is a stream of the
    namespace [logs]. *)
Theorem handleLogRequest_routed r rest w :
  http.URL_Path r = "/api/v1/logs/" +:+ rest ->
  http.Method r = http.MethodGet ->
  let query := url.Get (http.URL_Query r) in
  let pod := hd EmptyString (strings_Split rest "/") in
  api.handleLogRequest http.fresh r w
  = match (if nonempty (query "tail") then strconv.Atoi (query "tail") else Ok 0) with
    | Err err =>
        (http.Error http.fresh ("Invalid tail parameter: " +:+ err) http.StatusBadRequest, w)
    | Ok tail =>
        api.handleAndSend http.fresh
          (mcp.Command.mk mcp.LogsCommand "" "" "logs" None
             (Some (mcp.LogOptions.mk pod (query "container") (query "since") tail
                      (query "pattern") (query "level") (query "format")))) w
    end /\
  forall before ns p o after,
    events (snd (api.handleLogRequest http.fresh r w))
    = (events w ++ before ++ Call_Stream ns p o :: after)%list ->
    ns = "logs" /\ p = pod.
Proof.
  intros Hpath Hm query pod.
  pose proof (handleLogRequest_run r rest w Hpath Hm) as Hrun. cbv zeta in Hrun.
  fold query pod in Hrun.
  split; [exact Hrun|].
  intros before ns p o after Hev. rewrite Hrun in Hev.
  destruct (if nonempty (query "tail") then strconv.Atoi (query "tail") else Ok 0)
    as [tail|err].
  - rewrite handleAndSend_world in Hev.
    match type of Hev with
    | context [mcp.HandleCommand ?c w] =>
        destruct (HandleCommand_world c w) as [[Hres _]|[_ Hs]]; [discriminate Hres|];
        destruct Hs as [Hs|(lo & sinceTime & more & Hp & _ & Hs & Hmore)]
    end.
    + exfalso. rewrite Hs in Hev. rewrite <- (app_nil_r (events w)) in Hev at 1.
      apply app_inv_head in Hev. now destruct before.
    + rewrite Hs in Hev. apply app_inv_head in Hev.
      unfold mcp.podOptions in Hp. cbn [mcp.Command.Namespace mcp.Command.LogOptions] in Hp.
      change (String.eqb "logs" "") with false in Hp. cbv iota in Hp.
      cbn [mcp.LogOptions.Pod] in Hp.
      destruct (String.eqb pod ""); [discriminate|]. injection Hp as <-.
      cbn [mcp.Command.Namespace mcp.LogOptions.Pod] in Hev.
      destruct before as [|b before].
      * cbn [app] in Hev. injection Hev as <- <- _ _. now split.
      * exfalso. cbn [app] in Hev. injection Hev as _ Hev. subst more.
        apply Forall_app in Hmore as [_ Hmore]. inversion Hmore as [|? ? Hd _].
        discriminate Hd.
  - exfalso. cbn [snd] in Hev. rewrite <- (app_nil_r (events w)) in Hev at 1.
    apply app_inv_head in Hev. now destruct before.
Qed.

(** X22: a GET of [/api/v1/logs/] followed by a pod name, without a
    [since] parameter and with a tail parameter that is absent or a number,
    opens the stream of that pod in the namespace [logs], with the
    container of the query, without since time, and limited to the tail
    when it is positive (a tail that is absent, zero or negative sets no
    limit); nothing else is called but reads of that stream and its
    closing. *)
Theorem handleLogRequest_stream r rest w tail :
  http.URL_Path r = "/api/v1/logs/" +:+ rest ->
  http.Method r = http.MethodGet ->
  let query := url.Get (http.URL_Query r) in
  let pod := hd EmptyString (strings_Split rest "/") in
  nonempty pod = true ->
  query "since" = EmptyString ->
  (if nonempty (query "tail") then strconv.Atoi (query "tail") else Ok 0) = Ok tail ->
  exists reads,
    events (snd (api.handleLogRequest http.fresh r w))
    = (events w ++
       Call_Stream "logs" pod
         (corev1.PodLogOptions.mk (query "container") None None
            (if 0 <? tail then Some tail else None) false)
       :: reads)%list /\
    Forall (fun e => is_reading e = true) reads.
Proof.
  intros Hpath Hm query pod Hpod Hsince Htail.
  pose proof (handleLogRequest_run r rest w Hpath Hm) as Hrun. cbv zeta in Hrun.
  fold query pod in Hrun. rewrite Htail in Hrun. rewrite Hrun, handleAndSend_world.
  set (lo := mcp.LogOptions.mk pod (query "container") (query "since") tail
               (query "pattern") (query "level") (query "format")).
  set (cmd := mcp.Command.mk mcp.LogsCommand "" "" "logs" None (Some lo)).
  assert (Hp : mcp.podOptions cmd = Some lo).
  { unfold mcp.podOptions, cmd, lo. cbn [mcp.Command.Namespace mcp.Command.LogOptions
      mcp.LogOptions.Pod]. rewrite (eqb_empty pod), Hpod. reflexivity. }
  rewrite (handleLogsCommand_run cmd lo w eq_refl Hp Hsince). cbn [snd].
  destruct (GetLogs_events (retrieval cmd lo None) w) as (reads & Hev & Hreads).
  exists reads. split; [exact Hev | exact Hreads].
Qed.

(** The dispatcher answers, when the clock shows times that JSON can
    carry; a failure is an error text alone. *)
Lemma HandleCommand_responds cmd w :
  (forall k, representable (wallclock k) = true) ->
  exists resp,
    fst (mcp.HandleCommand cmd w) = Ok resp /\
    (mcp.Response.Success resp = false ->
     exists err, nonempty err = true /\ resp = mcp.Response.mk false EmptyString None err).
Proof.
  intros Hclock.
  destruct (HandleCommand_outcome cmd w) as [err Herr | message d Hnil Hentries Hkind].
  - eexists. split; [reflexivity|]. intros _. now exists err.
  - unfold mcp.NewSuccessResponse.
    destruct d as [|u|l|entries|exported]; cbn [mcp.json_Marshal].
    1-3, 5: eexists; (split; [reflexivity|]); cbn; discriminate.
    pose proof (json_Marshal_LogEntries_ok entries Hclock (Hentries _ eq_refl)) as Hok.
    destruct (logs.json_Marshal_LogEntries entries); [|discriminate Hok].
    eexists; (split; [reflexivity|]); cbn; discriminate.
Qed.

(** The command of a request to [/api/v1/mcp], when the request is a
    POST whose body can be read and decoded. *)
Definition posted (r : http.Request) : option mcp.Command.t :=
  if String.eqb (http.Method r) http.MethodPost then
    match http.Body r with
    | Ok body =>
        match json_Unmarshal_Command body with
        | Ok cmd => Some cmd
        | Err _ => None
        end
    | Err _ => None
    end
  else None.

(** X20: [handleMCPRequest] answers a request that is no POST with
    status 405, and a POST whose body cannot be read or decoded with status
    400, as plain text and without calling anything.  Otherwise the command
    is dispatched, the answer is JSON, and (the clock showing times that
    JSON can carry) the status is 200 when the response says success and 400
    when it does not, the body then being the failure as a JSON object;
    status 500 is not answered. *)
Theorem handleMCPRequest_status r w :
  (forall k, representable (wallclock k) = true) ->
  let out := fst (api.handleMCPRequest http.fresh r w) in
  match posted r with
  | None =>
      snd (api.handleMCPRequest http.fresh r w) = w /\
      http.statusCode out
      = (if String.eqb (http.Method r) http.MethodPost then 400 else 405) /\
      http.header out !! "Content-Type" = Some "text/plain; charset=utf-8"
  | Some cmd =>
      exists resp,
        mcp.HandleCommand cmd w = (Ok resp, snd (api.handleMCPRequest http.fresh r w)) /\
        http.statusCode out = (if mcp.Response.Success resp then 200 else 400) /\
        http.header out !! "Content-Type" = Some "application/json" /\
        (mcp.Response.Success resp = false -> out = failed (mcp.Response.Error resp))
  end.
Proof.
  intros Hclock. cbv zeta. unfold posted, api.handleMCPRequest, api.ParseCommand.
  destruct (String.eqb (http.Method r) http.MethodPost); cbn [negb];
    [|repeat split; reflexivity].
  destruct (http.Body r) as [body|err]; [|repeat split; reflexivity].
  destruct (json_Unmarshal_Command body) as [cmd|err]; [|repeat split; reflexivity].
  destruct (HandleCommand_responds cmd w Hclock) as (resp & Hresp & Hfail).
  exists resp. rewrite handleAndSend_world.
  destruct (mcp.HandleCommand cmd w) as [r0 w'] eqn:Hrun. cbn [fst snd] in *. subst r0.
  split; [reflexivity|].
  destruct (mcp.Response.Success resp) eqn:Hs.
  - unfold api.handleAndSend, bind, ret. rewrite Hrun. cbn [fst]. rewrite Hs. cbn [negb].
    split; [|split; [|discriminate]].
    + unfold api.json_Encode. destruct (api.json_Marshal_Response resp); reflexivity.
    + unfold api.json_Encode. destruct (api.json_Marshal_Response resp); reflexivity.
  - destruct (Hfail eq_refl) as (err & Hne & ->).
    rewrite (handleAndSend_failed cmd w err w' Hne Hrun). cbn [fst].
    repeat split.
Qed.

End Server.

(** ** One line per record *)

(** A byte other than the line feed. *)
Definition oneline (c : ascii) : bool := negb (byte_val c =? 10).

Lemma oneline_no_newline s : string_forallb oneline s = true -> no_newline s = true.
Proof.
  unfold no_newline, oneline. induction s as [|c s IH]; [reflexivity|].
  cbn [string_forallb string_existsb]. intros Hs. apply andb_prop in Hs as [Hc Hs].
  destruct (byte_val c =? 10); [discriminate|]. now apply IH.
Qed.

Lemma no_newline_line s :
  no_newline s = true -> is_line (s +:+ String newline EmptyString).
Proof.
  unfold no_newline, is_line. induction s as [|c s IH]; [reflexivity|].
  cbn [string_existsb]. rewrite append_cons. cbn [bufio.cut].
  destruct (byte_val c =? 10); [discriminate|]. intros Hs.
  now rewrite (IH Hs).
Qed.

Lemma oneline_of b : 0 <= b < 256 -> b <> 10 -> oneline (byte_of b) = true.
Proof. intros Hb Hn. unfold oneline. rewrite byte_val_of by lia. lia. Qed.

Lemma oneline_digit d : 0 <= d <= 9 -> oneline (time.digit d) = true.
Proof. intros Hd. apply oneline_of; lia. Qed.

Lemma oneline_hex d : 0 <= d <= 15 -> oneline (json.hex d) = true.
Proof. intros Hd. unfold json.hex. destruct (d <? 10); apply oneline_of; lia. Qed.

Lemma oneline_raw c : raw c = true -> oneline c = true.
Proof. unfold raw, oneline. lia. Qed.

Lemma oneline_decimal_loop fuel : forall u acc,
  0 <= u -> string_forallb oneline acc = true ->
  string_forallb oneline (time.decimal_loop fuel u acc) = true.
Proof.
  induction fuel as [|fuel IH]; intros u acc Hu Hacc; [exact Hacc|].
  cbn [time.decimal_loop]. destruct (10 <=? u) eqn:E.
  - apply IH; [Z.div_mod_to_equations; lia|]. cbn [string_forallb].
    rewrite oneline_digit by (Z.div_mod_to_equations; lia). exact Hacc.
  - cbn [string_forallb]. rewrite oneline_digit by lia. exact Hacc.
Qed.

Lemma oneline_zeros n : string_forallb oneline (time.zeros n) = true.
Proof. induction n as [|n IH]; [reflexivity|]. cbn [time.zeros string_forallb]. now rewrite IH. Qed.

Lemma oneline_appendInt x width : string_forallb oneline (time.appendInt x width) = true.
Proof.
  unfold time.appendInt. rewrite forallb_append.
  assert (Hsign : string_forallb oneline (if x <? 0 then "-" else "") = true)
    by (destruct (x <? 0); reflexivity).
  rewrite Hsign. cbn [andb].
  pose proof (Z.abs_nonneg x) as Hx.
  destruct ((width =? 2)%nat && (Z.abs x <? 100)) eqn:E2.
  { apply andb_prop in E2 as [_ E2]. cbn [string_forallb].
    rewrite !oneline_digit by (Z.div_mod_to_equations; lia). reflexivity. }
  destruct ((width =? 4)%nat && (Z.abs x <? 10000)) eqn:E4.
  { apply andb_prop in E4 as [_ E4]. cbn [string_forallb].
    rewrite !oneline_digit by (Z.div_mod_to_equations; lia). reflexivity. }
  rewrite forallb_append, oneline_zeros. cbn [andb].
  now apply oneline_decimal_loop.
Qed.

Lemma oneline_trimZeros s :
  string_forallb oneline s = true -> string_forallb oneline (time.trimZeros s) = true.
Proof.
  intros Hs. destruct (trimZeros_zeros s) as (Ht & _).
  rewrite <- Ht, forallb_append in Hs. now apply andb_prop in Hs as [? _].
Qed.

Lemma oneline_Format t : string_forallb oneline (time.Format_RFC3339Nano t) = true.
Proof.
  unfold time.Format_RFC3339Nano, time.formatDateTime, time.appendNano, time.formatZone.
  rewrite !forallb_append, !oneline_appendInt. cbn [string_forallb andb].
  change (oneline "-") with true. change (oneline "T") with true. change (oneline ":") with true.
  cbn [andb].
  assert (Hn : string_forallb oneline
                 (if nanosecond t =? 0 then ""
                  else "." +:+ time.trimZeros (time.appendInt (nanosecond t) 9)) = true).
  { destruct (nanosecond t =? 0); [reflexivity|].
    rewrite append_cons, append_nil. cbn [string_forallb].
    now rewrite oneline_trimZeros by apply oneline_appendInt. }
  rewrite Hn. cbn [andb].
  destruct (zone t =? 0); [reflexivity|].
  rewrite !forallb_append, !oneline_appendInt.
  destruct (zone t <? 0); reflexivity.
Qed.

Lemma oneline_quoted s : string_forallb oneline s = true -> string_forallb oneline (quoted s) = true.
Proof.
  intros Hs. unfold quoted. cbn [string_forallb]. rewrite forallb_append, Hs. reflexivity.
Qed.

Lemma oneline_escapeByte b : 0 <= b < 128 -> string_forallb oneline (json.escapeByte b) = true.
Proof.
  intros Hb. unfold json.escapeByte.
  destruct ((b =? 92) || (b =? 34)) eqn:E1.
  { cbn [string_forallb]. rewrite (oneline_of b) by lia. reflexivity. }
  repeat match goal with
         | |- context [if ?t then _ else _] => destruct t; [reflexivity|]
         end.
  cbn [string_forallb]. rewrite Z.shiftr_div_pow2, land_15 by lia.
  rewrite !oneline_hex by (Z.div_mod_to_equations; lia). reflexivity.
Qed.

Lemma oneline_take n : forall s,
  string_forallb oneline s = true -> string_forallb oneline (string_take n s) = true.
Proof.
  induction n as [|n IH]; intros [|c s] Hs; try reflexivity.
  cbn [string_forallb string_take] in *. apply andb_prop in Hs as [Hc Hs].
  now rewrite Hc, IH.
Qed.

(** A JSON string holds no line feed: the encoder escapes it. *)
Lemma oneline_appendString_loop n : forall src,
  (String.length src <= n)%nat ->
  string_forallb oneline (json.appendString_loop src) = true.
Proof.
  induction n as [|n IH]; intros src Hlen.
  - destruct src; [reflexivity | simpl in Hlen; lia].
  - destruct src as [|c rest]; [reflexivity|].
    simpl in Hlen. rewrite json.appendString_loop_equation_2. cbv zeta.
    pose proof (byte_val_range c) as Hc.
    destruct (byte_val c <? RuneSelf) eqn:Ec.
    + rewrite forallb_append, IH by lia. rewrite andb_true_r.
      destruct (json.htmlSafe (byte_val c)) eqn:Es.
      * cbn [string_forallb]. rewrite andb_true_r.
        unfold json.htmlSafe in Es. unfold oneline. lia.
      * apply oneline_escapeByte. unfold RuneSelf in Ec. lia.
    + destruct (utf8.DecodeRuneInString (String c rest)) as [r size] eqn:Ed.
      pose proof (string_drop_length (size - 1) rest) as Hdrop.
      destruct ((r =? utf8.RuneError) && (size =? 1)%nat).
      { rewrite forallb_append, IH by lia. reflexivity. }
      destruct ((r =? 8232) || (r =? 8233)) eqn:Er.
      { rewrite forallb_append, IH by lia. cbn [string_forallb].
        rewrite land_15, oneline_hex by (Z.div_mod_to_equations; lia). reflexivity. }
      rewrite forallb_append, IH by lia. rewrite andb_true_r.
      destruct (Nat.eq_dec size 1%nat) as [->|Hsize].
      * cbn [string_take string_forallb]. rewrite andb_true_r.
        unfold oneline, RuneSelf in *. lia.
      * destruct (DecodeRune_wide c rest r size Ed Hsize) as (Hraw & _ & _).
        apply (forallb_impl raw oneline _ oneline_raw), Hraw.
Qed.

Lemma oneline_appendString src : string_forallb oneline (json.appendString src) = true.
Proof.
  unfold json.appendString. apply oneline_quoted.
  now apply (oneline_appendString_loop (String.length src)).
Qed.

Section Records.
Context `{GoLibrary}.

Lemma oneline_field name value :
  string_forallb oneline name = true -> string_forallb oneline value = true ->
  string_forallb oneline (logs.field name value) = true.
Proof.
  intros Hn Hv. unfold logs.field. rewrite !forallb_append, (oneline_quoted _ Hn), Hv.
  reflexivity.
Qed.

Lemma oneline_json_Marshal_LogEntry e je :
  logs.json_Marshal_LogEntry e = Ok je -> string_forallb oneline je = true.
Proof.
  unfold logs.json_Marshal_LogEntry, time.MarshalJSON.
  destruct ((year _ <? 0) || (9999 <? year _)); [discriminate|].
  destruct (24 <=? _); [discriminate|]. intros [= <-].
  rewrite !forallb_append.
  rewrite !oneline_field by
    (reflexivity || apply oneline_appendString || apply oneline_quoted, oneline_Format).
  destruct (nonempty (logs.LogEntry.LogLevel e)); [|reflexivity].
  rewrite forallb_append, oneline_field by (reflexivity || apply oneline_appendString).
  reflexivity.
Qed.

Lemma oneline_json_elements entries : forall n js,
  logs.json_elements n entries = Ok js -> string_forallb oneline js = true.
Proof.
  induction entries as [|e entries IH]; intros n js; cbn [logs.json_elements].
  - intros [= <-]. reflexivity.
  - destruct (logs.json_Marshal_LogEntry e) as [je|] eqn:Ee; [|discriminate].
    destruct (logs.json_elements (S n) entries) as [es|] eqn:Es; [|discriminate].
    intros [= <-]. rewrite !forallb_append, (oneline_json_Marshal_LogEntry e je Ee),
      (IH _ _ Es). destruct (0 <? n)%nat; reflexivity.
Qed.

(** The records of an [ndjson] export. *)
Fixpoint records (entries : list logs.LogEntry.t) : list string :=
  match entries with
  | [] => []
  | e :: rest =>
      match logs.json_Marshal_LogEntry e with
      | Ok je => (je +:+ String newline EmptyString) :: records rest
      | Err _ => []
      end
  end.

(** X21: when all entries can be encoded, the [ndjson] export is one
    line per entry, in order, each the encoding of its entry followed by a
    newline, and the [json] export is a single line: a line feed inside a
    message or any other field is written as an escape, never as a byte of
    its own. *)
Theorem ExportLogs_lines entries :
  carried entries = true ->
  fst (logs.ExportLogs entries "ndjson") = unlines (records entries) /\
  Forall is_line (records entries) /\
  List.length (records entries) = List.length entries /\
  is_line (fst (logs.ExportLogs entries "json")).
Proof.
  intros Hc. rewrite ExportLogs_ndjson, ExportLogs_json.
  split; [|split; [|split]].
  - induction entries as [|e entries IH]; [reflexivity|].
    cbn [carried forallb] in Hc. apply andb_prop in Hc as [He Hc].
    rewrite <- json_Marshal_LogEntry_is_Ok in He.
    cbn [logs.exportToNDJSON records]. unfold logs.Encode.
    destruct (logs.json_Marshal_LogEntry e) as [je|]; [|discriminate].
    specialize (IH Hc). destruct (logs.exportToNDJSON entries) as [out err].
    cbn [fst] in *. now rewrite IH.
  - induction entries as [|e entries IH]; [constructor|].
    cbn [carried forallb] in Hc. apply andb_prop in Hc as [He Hc].
    rewrite <- json_Marshal_LogEntry_is_Ok in He. cbn [records].
    destruct (logs.json_Marshal_LogEntry e) as [je|] eqn:Ee; [|discriminate].
    constructor; [|now apply IH].
    apply no_newline_line, oneline_no_newline, (oneline_json_Marshal_LogEntry e je Ee).
  - induction entries as [|e entries IH]; [reflexivity|].
    cbn [carried forallb] in Hc. apply andb_prop in Hc as [He Hc].
    rewrite <- json_Marshal_LogEntry_is_Ok in He. cbn [records].
    destruct (logs.json_Marshal_LogEntry e) as [je|]; [|discriminate].
    cbn [List.length]. now rewrite IH.
  - pose proof (json_Marshal_LogEntries_is_Ok entries) as Hok. rewrite Hc in Hok.
    unfold logs.json_Marshal_LogEntries in *.
    destruct entries as [|e entries]; [reflexivity|].
    destruct (logs.json_elements 0 (e :: entries)) as [es|] eqn:Ees; [|discriminate].
    cbn [logs.Encode fst]. apply no_newline_line, oneline_no_newline.
    rewrite !forallb_append, (oneline_json_elements _ _ _ Ees). reflexivity.
Qed.

End Records.

(** ** The properties on sample clusters *)

Module Cases.

(** A pod whose log stream breaks after the first line. *)
#[local] Instance broken : @Backend Sample.library := {|
  wallclock := @wallclock Sample.library Sample.backend;
  dynamic_Get := fun _ _ _ => Err "connection refused";
  dynamic_List := fun _ _ => Err "connection refused";
  dynamic_Create := fun _ _ _ => Err "connection refused";
  dynamic_Delete := fun _ _ _ => Some "connection refused";
  pods_GetLogs_Stream := fun _ _ _ =>
    Ok (mkStream (Sample.line1 +:+ "no timestamp") (Some "connection reset"));
|}.

(** A cluster without the pod. *)
#[local] Instance absent : @Backend Sample.library := {|
  wallclock := @wallclock Sample.library Sample.backend;
  dynamic_Get := fun _ _ _ => Err "not found";
  dynamic_List := fun _ _ => Ok (tt : @UnstructuredList Sample.library);
  dynamic_Create := fun _ _ obj => Ok obj;
  dynamic_Delete := fun _ _ _ => Some "not found";
  pods_GetLogs_Stream := fun _ _ _ => Err "pods web not found";
|}.

(** A pod that has written half a line. *)
#[local] Instance quiet : @Backend Sample.library := {|
  wallclock := @wallclock Sample.library Sample.backend;
  dynamic_Get := fun _ _ _ => Ok (tt : @Unstructured Sample.library);
  dynamic_List := fun _ _ => Ok (tt : @UnstructuredList Sample.library);
  dynamic_Create := fun _ _ obj => Ok obj;
  dynamic_Delete := fun _ _ _ => None;
  pods_GetLogs_Stream := fun _ _ _ => Ok (mkStream "starting" None);
|}.

(** The body of a request that deletes the pod [web]. *)
Definition delete_body : string :=
  "{" +:+ quoted "type" +:+ ":" +:+ quoted "delete" +:+ "," +:+
  quoted "resource" +:+ ":" +:+ quoted "pods" +:+ "," +:+
  quoted "name" +:+ ":" +:+ quoted "web" +:+ "," +:+
  quoted "namespace" +:+ ":" +:+ quoted "default" +:+ "}".

(** A server library that decodes that one body, quotes plain texts and
    leaves compact values as they are. *)
#[local] Instance server : ServerLibrary := {|
  strconv_Quote := quoted;
  json_Unmarshal_Command := fun data =>
    if String.eqb data delete_body then Ok Sample.delete_web
    else Err "unexpected end of JSON input";
  json_compact := Ok;
|}.

(** The options of a log command for the pod [web]. *)
Definition web (since : string) (tail : Z) (pattern level format : string)
  : mcp.LogOptions.t :=
  mcp.LogOptions.mk "web" "" since tail pattern level format.

Definition command (type : string) (lo : mcp.LogOptions.t) : mcp.Command.t :=
  mcp.Command.mk type "" "" "default" None (Some lo).

Definition padded : string := "  INFO ready " +:+ String newline EmptyString.

(** An entry JSON can carry and one it cannot. *)
Definition carriable : logs.LogEntry.t :=
  logs.LogEntry.mk (mkTime 2025 3 14 9 26 53 0 0) "ready" "web" "" "default" "INFO".
Definition far : logs.LogEntry.t :=
  logs.LogEntry.mk (mkTime 10000 1 1 0 0 0 0 0) "late" "web" "" "default" "".

Definition get (path : string) : http.Request := http.mkRequest "GET" path ∅ (Ok EmptyString).

End Cases.

(** C4 as stated fails where the pod is absent: the retrieval with the
    unbalanced pattern [(] fails there with the error of the stream that
    does not open, not with the one of the pattern. *)
Lemma GetLogs_invalid_pattern_counterexample :
  nonempty (logs.LogOptions.Pattern (Sample.search "(" "")) = true /\
  @regexp_Compile Sample.library (logs.LogOptions.Pattern (Sample.search "(" ""))
  = Err "error parsing regexp: missing closing )" /\
  @logs.GetLogs Sample.library Cases.absent (Sample.search "(" "") Sample.world
  = (Err "error opening log stream: pods web not found",
     mkWorld [Call_Stream "default" "web" (corev1.PodLogOptions.mk "" None None None false)]
       0) /\
  fst (@logs.GetLogs Sample.library Cases.absent (Sample.search "(" "") Sample.world)
  <> Err ("invalid regex pattern: " +:+ "error parsing regexp: missing closing )").
Proof.
  split; [reflexivity|]. split; [reflexivity|]. split; [reflexivity|]. discriminate.
Qed.

Lemma quiet_logs :
  fst (@mcp.HandleCommand Sample.library Cases.quiet
         (Cases.command "logs" (Cases.web "" 0 "" "" "")) Sample.world)
  = Ok (mcp.Response.mk true "Successfully retrieved logs from pod 'web'" (Some "null")
          EmptyString).
Proof.
  rewrite (@handleLogsCommand_run Sample.library Cases.quiet
             (Cases.command "logs" (Cases.web "" 0 "" "" ""))
             (Cases.web "" 0 "" "" "") Sample.world eq_refl eq_refl eq_refl).
  cbn [fst].
  rewrite (@GetLogs_stream_lines Sample.library Cases.quiet
             (retrieval (Cases.command "logs" (Cases.web "" 0 "" "" ""))
                (Cases.web "" 0 "" "" "") None)
             Sample.world [] "starting" None None eq_refl ltac:(constructor) eq_refl eq_refl).
  reflexivity.
Qed.

(** The documents of the sample library are written [{}].  The pod of
    [quiet] has not finished a line: the [logs] command succeeds there
    with the data [null], the second exception of the invariant. *)
Lemma Response_invariant_witness :
  (forall u, meaningful (@json_Marshal_Unstructured Sample.library u) = true) /\
  (forall l, meaningful (@json_Marshal_UnstructuredList Sample.library l) = true) /\
  fst (@mcp.HandleCommand Sample.library Cases.quiet
         (Cases.command "logs" (Cases.web "" 0 "" "" "")) Sample.world)
  = Ok (mcp.Response.mk true "Successfully retrieved logs from pod 'web'" (Some "null")
          EmptyString) /\
  populated_error
    (mcp.Response.mk true "Successfully retrieved logs from pod 'web'" (Some "null")
       EmptyString) = false /\
  populated_data
    (mcp.Response.mk true "Successfully retrieved logs from pod 'web'" (Some "null")
       EmptyString) = false /\
  ~ exactly_one
      (mcp.Response.mk true "Successfully retrieved logs from pod 'web'" (Some "null")
         EmptyString).
Proof.
  split; [intros u; reflexivity|]. split; [intros l; reflexivity|].
  split; [exact quiet_logs|].
  destruct (proj2 (proj2
              (@Response_invariant Sample.library Cases.quiet
                 (Cases.command "logs" (Cases.web "" 0 "" "" "")) Sample.world
                 (mcp.Response.mk true "Successfully retrieved logs from pod 'web'"
                    (Some "null") EmptyString)
                 (fun _ => eq_refl) (fun _ => eq_refl) quiet_logs)))
    as [Hone | (_ & Herr & Hdata & _)].
  - discriminate Hone.
  - split; [exact Herr|]. split; [exact Hdata|]. unfold exactly_one. cbn. discriminate.
Defined.

(** The line [padded]: its message is [INFO ready]. *)
Lemma parseLogEntry_message_witness :
  isASCII Cases.padded = true /\
  exists pre post,
    Cases.padded
    = pre +:+
      logs.LogEntry.Message
        (fst (@logs.parseLogEntry Sample.library Sample.backend Cases.padded "web" ""
                "default" Sample.world)) +:+ post /\
    string_forallb Strings.asciiSpace pre = true /\
    string_forallb Strings.asciiSpace post = true /\
    (forall c s,
       logs.LogEntry.Message
         (fst (@logs.parseLogEntry Sample.library Sample.backend Cases.padded "web" ""
                 "default" Sample.world)) = String c s ->
       Strings.asciiSpace c = false) /\
    (forall s c,
       logs.LogEntry.Message
         (fst (@logs.parseLogEntry Sample.library Sample.backend Cases.padded "web" ""
                 "default" Sample.world)) = s +:+ String c EmptyString ->
       Strings.asciiSpace c = false).
Proof.
  split; [reflexivity|].
  exact (@parseLogEntry_message Sample.library Sample.backend Cases.padded "web" ""
           "default" Sample.world eq_refl).
Defined.

(** The stream of [broken] fails after its first line: no entry comes
    back. *)
Lemma GetLogs_read_error_witness :
  @pods_GetLogs_Stream Sample.library Cases.broken "default" "web"
    (podLogOptions (Sample.search "" ""))
  = Ok (mkStream (Sample.line1 +:+ "no timestamp") (Some "connection reset")) /\
  is_Ok (@compiled Sample.library (Sample.search "" "")) = true /\
  fst (@logs.GetLogs Sample.library Cases.broken (Sample.search "" "") Sample.world)
  = Err "error reading logs: connection reset".
Proof.
  split; [reflexivity|]. split; [reflexivity|].
  exact (@GetLogs_read_error Sample.library Cases.broken (Sample.search "" "") Sample.world
           (Sample.line1 +:+ "no timestamp") "connection reset" eq_refl eq_refl).
Defined.

(** Searching the sample log for [fail] at level [error]. *)
Lemma GetLogs_filters_commute_witness :
  is_Ok (@compiled Sample.library (Sample.search "fail" "error")) = true /\
  @logs.GetLogs Sample.library Sample.backend (Sample.search "fail" "error") Sample.world
  = (match fst (@logs.GetLogs Sample.library Sample.backend
                  (unfiltered (Sample.search "fail" "error")) Sample.world) with
     | Ok entries =>
         Ok (List.filter (@passes Sample.library (Sample.search "fail" "error")) entries)
     | Err err => Err err
     end,
     snd (@logs.GetLogs Sample.library Sample.backend
            (unfiltered (Sample.search "fail" "error")) Sample.world)).
Proof.
  split; [reflexivity|].
  exact (@GetLogs_filters_commute Sample.library Sample.backend
           (Sample.search "fail" "error") Sample.world eq_refl).
Defined.

Lemma sample_error_entries :
  fst (@logs.GetLogs Sample.library Sample.backend (Sample.search "" "error") Sample.world)
  = Ok [logs.LogEntry.mk (mkTime 2025 3 14 9 26 1 0 0) "no timestamp here ERROR failed"
          "web" "" "default" "ERROR"].
Proof.
  rewrite (@GetLogs_lines Sample.library Sample.backend (Sample.search "" "error")
             [Sample.line1; Sample.line2] "cut off" None Sample.world);
    [reflexivity | intros o; reflexivity | repeat constructor | reflexivity | discriminate].
Qed.

(** The level filter [error] on the sample log. *)
Lemma GetLogs_level_filter_witness :
  nonempty "error" = true /\ isASCII "error" = true /\
  fst (@logs.GetLogs Sample.library Sample.backend (Sample.search "" "error") Sample.world)
  = Ok [logs.LogEntry.mk (mkTime 2025 3 14 9 26 1 0 0) "no timestamp here ERROR failed"
          "web" "" "default" "ERROR"] /\
  Forall (fun e => logs.LogEntry.LogLevel e = @Strings.ToUpper Sample.library "error")
    [logs.LogEntry.mk (mkTime 2025 3 14 9 26 1 0 0) "no timestamp here ERROR failed"
       "web" "" "default" "ERROR"].
Proof.
  split; [reflexivity|]. split; [reflexivity|]. split; [exact sample_error_entries|].
  exact (proj1 (@GetLogs_level_filter Sample.library Sample.backend
                  (Sample.search "" "error") Sample.world _ eq_refl eq_refl
                  sample_error_entries)).
Defined.

(** An entry of the year 10000 after one that JSON can carry. *)
Lemma exportToNDJSON_first_failure_witness :
  carried [Cases.carriable] = true /\
  representable (logs.LogEntry.Timestamp Cases.far) = false /\
  exists err,
    logs.json_Marshal_LogEntry Cases.far = Err err /\
    @logs.ExportLogs Sample.library ([Cases.carriable] ++ Cases.far :: [Cases.carriable])
      "ndjson"
    = (fst (@logs.ExportLogs Sample.library [Cases.carriable] "ndjson"),
       Some ("error writing NDJSON record: " +:+ err)) /\
    snd (@logs.ExportLogs Sample.library [Cases.carriable] "ndjson") = None /\
    @logs.ExportLogs Sample.library ([Cases.carriable] ++ Cases.far :: [Cases.carriable])
      "json"
    = (EmptyString, Some err).
Proof.
  split; [reflexivity|]. split; [reflexivity|].
  exact (@exportToNDJSON_first_failure Sample.library [Cases.carriable] Cases.far
           [Cases.carriable] eq_refl eq_refl).
Defined.

(** The deployments of the namespace [default], on a cluster that
    refuses connections. *)
Lemma operations_on_supported_kind_witness :
  "deployments" ∈ kinds /\
  @kubernetes.ListResources Sample.library Cases.broken "deployments" "default" Sample.world
  = (Err "failed to list deployments: connection refused",
     mkWorld [Call_List (schema.mkGVR "apps" "v1" "deployments") (Some "default")] 0).
Proof.
  assert (Hk : "deployments" ∈ kinds) by (apply (bool_decide_unpack _); vm_compute; exact I).
  split; [exact Hk|].
  destruct (@operations_on_supported_kind Sample.library Cases.broken "deployments" "default"
              "web" tt Sample.world Hk) as (gvr & Hg & _ & _ & _ & _ & Hlist & _).
  vm_compute in Hg. injection Hg as <-. exact Hlist.
Defined.

(** A [logs] command with a tail of ten lines, on a cluster without the
    pod: the one call is the opening of the stream. *)
Lemma HandleCommand_stream_options_witness :
  events (snd (@mcp.HandleCommand Sample.library Cases.absent
                 (Cases.command "logs" (Cases.web "" 10 "" "" "")) Sample.world))
  = (events Sample.world ++ [] ++
     Call_Stream "default" "web" (corev1.PodLogOptions.mk "" None None (Some 10) false)
     :: [])%list /\
  exists lo,
    mcp.Command.LogOptions (Cases.command "logs" (Cases.web "" 10 "" "" "")) = Some lo /\
    "default" = mcp.Command.Namespace (Cases.command "logs" (Cases.web "" 10 "" "" "")) /\
    "web" = mcp.LogOptions.Pod lo /\
    corev1.PodLogOptions.TailLines (corev1.PodLogOptions.mk "" None None (Some 10) false)
    = (if 0 <? mcp.LogOptions.Tail lo then Some (mcp.LogOptions.Tail lo) else None).
Proof.
  assert (Hev : events (snd (@mcp.HandleCommand Sample.library Cases.absent
                 (Cases.command "logs" (Cases.web "" 10 "" "" "")) Sample.world))
    = (events Sample.world ++ [] ++
       Call_Stream "default" "web" (corev1.PodLogOptions.mk "" None None (Some 10) false)
       :: [])%list) by reflexivity.
  split; [exact Hev|].
  destruct (@HandleCommand_stream_options Sample.library Cases.absent _ _ _ _ _ _ _ Hev)
    as (_ & lo & Hlo & Hns & Hpod & _ & _ & _ & _ & _ & Htail & _).
  exists lo. repeat split; assumption.
Defined.

(** A [logs] command since [yesterday], which the layout parser refuses
    at the year. *)
Lemma HandleCommand_invalid_since_witness :
  isLogCommand "logs" = true /\
  (forall f, In f (required "logs") ->
             present (Cases.command "logs" (Cases.web "yesterday" 0 "" "" "")) f = true) /\
  is_Ok (@time_ParseDuration Sample.library "yesterday") = false /\
  time.Parse_RFC3339 "yesterday" = Err (time.ParseError "yesterday" "2006" "yesterday" "") /\
  @mcp.HandleCommand Sample.library Sample.backend
    (Cases.command "logs" (Cases.web "yesterday" 0 "" "" "")) Sample.world
  = (failure ("invalid 'since' parameter: " +:+
              time.ParseError "yesterday" "2006" "yesterday" ""), Sample.world).
Proof.
  assert (Hreq : forall f, In f (required "logs") ->
            present (Cases.command "logs" (Cases.web "yesterday" 0 "" "" "")) f = true).
  { intros f [<-|[<-|[]]]; reflexivity. }
  split; [reflexivity|]. split; [exact Hreq|]. split; [reflexivity|]. split; [reflexivity|].
  exact (@HandleCommand_invalid_since Sample.library Sample.backend
           (Cases.command "logs" (Cases.web "yesterday" 0 "" "" ""))
           (Cases.web "yesterday" 0 "" "" "") Sample.world _ eq_refl Hreq eq_refl eq_refl
           eq_refl eq_refl).
Defined.

(** A [logs] command that carries a pattern, a level and the start of
    2024 as its [since], on the sample log: both lines come back. *)
Lemma logs_command_every_line_witness :
  fst (@mcp.parseSince Sample.library Sample.backend "2024-01-01T00:00:00Z" Sample.world)
  = Ok (Some (mkTime 2024 1 1 0 0 0 0 0)) /\
  Forall is_line [Sample.line1; Sample.line2] /\ no_newline "cut off" = true /\
  List.length
    (@entries_from Sample.library Sample.backend
       (logs.LogOptions.mk "default" "web" "" (Some (mkTime 2024 1 1 0 0 0 0 0)) None None
          "" "") 0
       [Sample.line1; Sample.line2]) = 2%nat /\
  fst (@mcp.HandleCommand Sample.library Sample.backend
         (Cases.command "logs" (Cases.web "2024-01-01T00:00:00Z" 0 "fail" "error" ""))
         Sample.world)
  = @mcp.NewSuccessResponse Sample.library "Successfully retrieved logs from pod 'web'"
      (@mcp.data_LogEntries Sample.library
         (@entries_from Sample.library Sample.backend
            (logs.LogOptions.mk "default" "web" "" (Some (mkTime 2024 1 1 0 0 0 0 0)) None
               None "" "") 0
            [Sample.line1; Sample.line2])).
Proof.
  assert (Hl : Forall is_line [Sample.line1; Sample.line2]) by (repeat constructor).
  split; [reflexivity|]. split; [exact Hl|]. split; [reflexivity|].
  destruct (@logs_command_every_line Sample.library Sample.backend
              (Cases.command "logs" (Cases.web "2024-01-01T00:00:00Z" 0 "fail" "error" ""))
              (Cases.web "2024-01-01T00:00:00Z" 0 "fail" "error" "")
              (Some (mkTime 2024 1 1 0 0 0 0 0)) [Sample.line1; Sample.line2] "cut off"
              Sample.world eq_refl eq_refl eq_refl (fun _ => eq_refl) Hl eq_refl)
    as [Hrun Hlen].
  split; [exact Hlen | exact Hrun].
Defined.


Lemma sample_retrieval :
  @logs.GetLogs Sample.library Sample.backend
    (retrieval (Cases.command "export_logs" (Cases.web "" 0 "" "" "xml"))
       (Cases.web "" 0 "" "" "xml") None) Sample.world
  = (Ok [logs.LogEntry.mk (mkTime 2025 3 14 9 26 0 0 0) "2024-01-01T10:00:00 INFO starting"
           "web" "" "default" "INFO";
         logs.LogEntry.mk (mkTime 2025 3 14 9 26 1 0 0) "no timestamp here ERROR failed"
           "web" "" "default" "ERROR"],
     mkWorld [Call_Stream "default" "web" (corev1.PodLogOptions.mk "" None None None false);
              Call_ReadString; Call_ReadString; Call_ReadString; Call_Close] 2).
Proof.
  rewrite (@GetLogs_stream_lines Sample.library Sample.backend
             (retrieval (Cases.command "export_logs" (Cases.web "" 0 "" "" "xml"))
                (Cases.web "" 0 "" "" "xml") None)
             Sample.world [Sample.line1; Sample.line2] "cut off" None None eq_refl
             ltac:(repeat constructor) eq_refl eq_refl).
  reflexivity.
Qed.

(** An export as [xml]: on a cluster without the pod the answer is the
    error of the stream, on the sample cluster the two lines are read
    before the format is refused. *)
Lemma export_logs_unsupported_format_witness :
  nonempty "xml" = true /\
  ~ In (@Strings.ToLower Sample.library "xml") ["json"; "csv"; "ndjson"; "plaintext"; "text"] /\
  @mcp.HandleCommand Sample.library Cases.absent
    (Cases.command "export_logs" (Cases.web "" 0 "" "" "xml")) Sample.world
  = (failure "error opening log stream: pods web not found",
     mkWorld [Call_Stream "default" "web" (corev1.PodLogOptions.mk "" None None None false)]
       0) /\
  @mcp.HandleCommand Sample.library Sample.backend
    (Cases.command "export_logs" (Cases.web "" 0 "" "" "xml")) Sample.world
  = (failure "unsupported export format: xml",
     mkWorld [Call_Stream "default" "web" (corev1.PodLogOptions.mk "" None None None false);
              Call_ReadString; Call_ReadString; Call_ReadString; Call_Close] 2).
Proof.
  assert (Hun : ~ In (@Strings.ToLower Sample.library "xml")
                    ["json"; "csv"; "ndjson"; "plaintext"; "text"]).
  { cbn. intros [Hx|[Hx|[Hx|[Hx|[Hx|[]]]]]]; discriminate Hx. }
  split; [reflexivity|]. split; [exact Hun|]. split.
  - exact (proj1 (@export_logs_unsupported_format Sample.library Cases.absent
                    (Cases.command "export_logs" (Cases.web "" 0 "" "" "xml"))
                    (Cases.web "" 0 "" "" "xml") None Sample.world eq_refl eq_refl eq_refl
                    eq_refl Hun)).
  - pose proof (proj1 (@export_logs_unsupported_format Sample.library Sample.backend
                         (Cases.command "export_logs" (Cases.web "" 0 "" "" "xml"))
                         (Cases.web "" 0 "" "" "xml") None Sample.world eq_refl eq_refl
                         eq_refl eq_refl Hun)) as T.
    change (snd (@mcp.parseSince Sample.library Sample.backend
                   (mcp.LogOptions.Since (Cases.web "" 0 "" "" "xml")) Sample.world))
      with Sample.world in T.
    rewrite sample_retrieval in T. exact T.
Defined.

Lemma sample_export :
  fst (@mcp.HandleCommand Sample.library Cases.quiet
         (Cases.command "export_logs" (Cases.web "" 0 "" "" "csv")) Sample.world)
  = Ok (mcp.Response.mk true "Successfully exported logs from pod 'web' in csv format"
          (Some ("{" +:+ quoted "exported_logs" +:+ ":" +:+
                 json.appendString
                   ("Timestamp,Pod,Container,Namespace,Level,Message" +:+
                    String newline EmptyString) +:+ "}"))
          EmptyString).
Proof.
  rewrite (@handleExportLogsCommand_run Sample.library Cases.quiet
             (Cases.command "export_logs" (Cases.web "" 0 "" "" "csv"))
             (Cases.web "" 0 "" "" "csv") Sample.world eq_refl eq_refl eq_refl eq_refl).
  cbn [fst].
  rewrite (@GetLogs_stream_lines Sample.library Cases.quiet
             (retrieval (Cases.command "export_logs" (Cases.web "" 0 "" "" "csv"))
                (Cases.web "" 0 "" "" "csv") None)
             Sample.world [] "starting" None None eq_refl ltac:(constructor) eq_refl eq_refl).
  reflexivity.
Qed.

(** An export as [csv] of the log of [quiet], which holds no line: the
    header line, as a JSON string. *)
Lemma export_logs_data_witness :
  fst (@mcp.HandleCommand Sample.library Cases.quiet
         (Cases.command "export_logs" (Cases.web "" 0 "" "" "csv")) Sample.world)
  = Ok (mcp.Response.mk true "Successfully exported logs from pod 'web' in csv format"
          (Some ("{" +:+ quoted "exported_logs" +:+ ":" +:+
                 json.appendString
                   ("Timestamp,Pod,Container,Namespace,Level,Message" +:+
                    String newline EmptyString) +:+ "}"))
          EmptyString) /\
  exists sinceTime logEntries buf,
    fst (@mcp.parseSince Sample.library Cases.quiet "" Sample.world) = Ok sinceTime /\
    fst (@logs.GetLogs Sample.library Cases.quiet
           (retrieval
              (Cases.command "export_logs" (Cases.web "" 0 "" "" "csv"))
              (Cases.web "" 0 "" "" "csv") sinceTime)
           (snd (@mcp.parseSince Sample.library Cases.quiet "" Sample.world)))
    = Ok logEntries /\
    @logs.ExportLogs Sample.library logEntries "csv" = (buf, None) /\
    Some ("{" +:+ quoted "exported_logs" +:+ ":" +:+
          json.appendString
            ("Timestamp,Pod,Container,Namespace,Level,Message" +:+
             String newline EmptyString) +:+ "}")
    = Some ("{" +:+ quoted "exported_logs" +:+ ":" +:+ json.appendString buf +:+ "}") /\
    (ValidString buf = true ->
     reparse.parseString (json.appendString buf +:+ "}") = Some (buf, "}")).
Proof.
  split; [exact sample_export|].
  exact (@export_logs_data Sample.library Cases.quiet
           (Cases.command "export_logs" (Cases.web "" 0 "" "" "csv"))
           (Cases.web "" 0 "" "" "csv") Sample.world _ eq_refl eq_refl
           sample_export eq_refl).
Defined.

(** A GET of the pod [web] through the resource endpoint. *)
Lemma handleResourceRequest_routed_witness :
  http.URL_Path (Cases.get "/api/v1/resources/pods/web") = "/api/v1/resources/" +:+ "pods/web" /\
  @api.handleResourceRequest Sample.library Sample.backend Cases.server http.fresh
    (Cases.get "/api/v1/resources/pods/web") Sample.world
  = (failed "unsupported resource type: resources", Sample.world).
Proof.
  split; [reflexivity|].
  destruct (@handleResourceRequest_routed Sample.library Sample.backend Cases.server
              (Cases.get "/api/v1/resources/pods/web") "pods/web" Sample.world eq_refl)
    as (Hw & Hout & _).
  apply injective_projections; [exact (Hout (or_introl eq_refl)) | exact Hw].
Defined.

(** A GET of the logs of the pod [web] of the namespace [default]: it
    is answered for the pod [default] of the namespace [logs]. *)
Lemma handleLogRequest_routed_witness :
  http.URL_Path (Cases.get "/api/v1/logs/default/web") = "/api/v1/logs/" +:+ "default/web" /\
  http.Method (Cases.get "/api/v1/logs/default/web") = http.MethodGet /\
  @api.handleLogRequest Sample.library Sample.backend Cases.server http.fresh
    (Cases.get "/api/v1/logs/default/web") Sample.world
  = @api.handleAndSend Sample.library Sample.backend Cases.server http.fresh
      (mcp.Command.mk "logs" "" "" "logs" None
         (Some (mcp.LogOptions.mk "default" "" "" 0 "" "" ""))) Sample.world.
Proof.
  split; [reflexivity|]. split; [reflexivity|].
  exact (proj1 (@handleLogRequest_routed Sample.library Sample.backend Cases.server
                  (Cases.get "/api/v1/logs/default/web") "default/web" Sample.world
                  eq_refl eq_refl)).
Defined.

(** Deleting the pod [web] through [/api/v1/mcp], and a GET of it. *)
Lemma handleMCPRequest_status_witness :
  (forall k, representable (@wallclock Sample.library Sample.backend k) = true) /\
  (exists resp,
     @mcp.HandleCommand Sample.library Sample.backend Sample.delete_web Sample.world
     = (Ok resp,
        snd (@api.handleMCPRequest Sample.library Sample.backend Cases.server http.fresh
               (http.mkRequest "POST" "/api/v1/mcp" ∅ (Ok Cases.delete_body)) Sample.world)) /\
     http.statusCode
       (fst (@api.handleMCPRequest Sample.library Sample.backend Cases.server http.fresh
               (http.mkRequest "POST" "/api/v1/mcp" ∅ (Ok Cases.delete_body)) Sample.world))
     = (if mcp.Response.Success resp then 200 else 400)) /\
  http.statusCode
    (fst (@api.handleMCPRequest Sample.library Sample.backend Cases.server http.fresh
            (Cases.get "/api/v1/mcp") Sample.world)) = 405.
Proof.
  assert (Hclock : forall k, representable (@wallclock Sample.library Sample.backend k) = true)
    by (intros k; reflexivity).
  split; [exact Hclock|]. split.
  - destruct (@handleMCPRequest_status Sample.library Sample.backend Cases.server
                (http.mkRequest "POST" "/api/v1/mcp" ∅ (Ok Cases.delete_body)) Sample.world
                Hclock) as (resp & Hrun & Hstatus & _).
    exists resp. split; [exact Hrun | exact Hstatus].
  - exact (proj1 (proj2 (@handleMCPRequest_status Sample.library Sample.backend Cases.server
                           (Cases.get "/api/v1/mcp") Sample.world Hclock))).
Defined.

(** An entry whose message holds a line feed. *)
Lemma ExportLogs_lines_witness :
  let entry :=
    logs.LogEntry.mk (mkTime 2025 3 14 9 26 53 0 0)
      ("first" +:+ String newline "second") "web" "" "default" "" in
  carried [entry; entry] = true /\
  Forall is_line (records [entry; entry]) /\
  List.length (records [entry; entry]) = 2%nat.
Proof.
  intros entry. split; [reflexivity|].
  destruct (@ExportLogs_lines Sample.library [entry; entry] eq_refl) as (_ & Hl & Hn & _).
  split; [exact Hl | exact Hn].
Defined.

(** A GET of the last 25 lines of the container [app] of the pod [web]. *)
Lemma handleLogRequest_stream_witness :
  let r := http.mkRequest "GET" "/api/v1/logs/web"
             (<["tail" := ["25"]]> (<["container" := ["app"]]> ∅)) (Ok EmptyString) in
  http.URL_Path r = "/api/v1/logs/" +:+ "web" /\
  @strconv.Atoi Cases.server "25" = Ok 25 /\
  exists reads,
    events (snd (@api.handleLogRequest Sample.library Sample.backend Cases.server
                   http.fresh r Sample.world))
    = (events Sample.world ++
       Call_Stream "logs" "web" (corev1.PodLogOptions.mk "app" None None (Some 25) false)
       :: reads)%list /\
    Forall (fun e => @is_reading Sample.library e = true) reads.
Proof.
  intros r. split; [reflexivity|]. split; [reflexivity|].
  exact (@handleLogRequest_stream Sample.library Sample.backend Cases.server r "web"
           Sample.world 25 eq_refl eq_refl eq_refl eq_refl eq_refl).
Defined.
